(** * The gRPC server core (src/core/surface/server.c)

    A shallow embedding of the server core: the registered-method table and
    its per-channel probe table, the request matchers, the per-call state
    machine, ticket submission and shutdown.

    The program is concurrent.  Its executions are modelled as interleavings
    of atomic steps, one step per critical section or atomic operation of
    the source: a thread that is inside one of the functions below is a
    value of type [thread] (or [recv_pc] for the receive callback of a call)
    that records where it stands and its local variables.  The two server
    mutexes [mu_global] and [mu_call] are fields of the state; a section of
    code is atomic with respect to another one only when both run under the
    same mutex in the source.  Where the source writes [ZOMBIED] under
    [mu_state] and then adds the kill closure of the call, the two are one
    step when the call is still [NOT_STARTED], since no other thread can
    reach such a call, and two steps in the shutdown walk, whose call the
    pairing drain may hold as well. *)

From Stdlib Require Import ZArith List Bool String Lia Arith PeanoNat.
Import ListNotations.

Set Implicit Arguments.

(** ** Identifiers

    Heap objects are named by their address.  Calls, channels, completion
    queues and threads are numbered by [nat]; request ids are C [int]s and
    application pointers (tags, out-parameters) are [Z]. *)

Definition call_id := nat.
Definition chan_id := nat.
Definition cq_id := nat.
Definition thread_id := nat.
Definition addr := Z.

(** A [grpc_mdstr] is an interned metadata string.  Inside one metadata
    context two [grpc_mdstr] pointers are equal exactly when their contents
    are, so the pointer is represented by the contents and pointer
    comparison by [String.eqb]. *)
Definition grpc_mdstr := string.

(** The address of a [registered_method]; it is the opaque handle that
    [grpc_server_register_method] returns. *)
Definition method_handle := nat.

(** Total maps with pointwise update. *)
Definition upd_nat {A} (f : nat -> A) (k : nat) (v : A) : nat -> A :=
  fun x => if Nat.eqb x k then v else f x.

Definition upd_Z {A} (f : Z -> A) (k : Z) (v : A) : Z -> A :=
  fun x => if Z.eqb x k then v else f x.

(** ** Enumerations of the source *)

Inductive requested_call_type := BATCH_CALL | REGISTERED_CALL.

Inductive call_state :=
| NOT_STARTED   (* waiting for metadata *)
| PENDING       (* inital metadata read, not flow controlled in yet *)
| ACTIVATED     (* flow controlled in, on completion queue *)
| ZOMBIED.      (* cancelled before being queued *)

Inductive grpc_stream_state :=
| GRPC_STREAM_OPEN
| GRPC_STREAM_SEND_CLOSED
| GRPC_STREAM_RECV_CLOSED
| GRPC_STREAM_CLOSED.

Inductive grpc_call_error :=
| GRPC_CALL_OK
| GRPC_CALL_ERROR_NOT_SERVER_COMPLETION_QUEUE.

Definition call_state_eqb (a b : call_state) : bool :=
  match a, b with
  | NOT_STARTED, NOT_STARTED | PENDING, PENDING
  | ACTIVATED, ACTIVATED | ZOMBIED, ZOMBIED => true
  | _, _ => false
  end.

Definition terminal (s : call_state) : bool :=
  match s with ACTIVATED | ZOMBIED => true | _ => false end.

(** The edges of the call state machine that the specification allows. *)
Definition legal_transition (a b : call_state) : bool :=
  match a, b with
  | NOT_STARTED, (PENDING | ACTIVATED | ZOMBIED) => true
  | PENDING, (ACTIVATED | ZOMBIED) => true
  | _, _ => false
  end.

(** ** The lock-free index stack *)

(** Modelled from the spec: src/core/support/stack_lockfree.c is not part of
    the sources at hand.  Section 4.1 of the specification gives a stack of
    integers whose [push] reports whether the stack went from empty to
    non-empty and whose [pop] yields -1 on the empty stack; each operation is
    one atomic step.  The head of the list is the top of the stack. *)
Definition gpr_stack_lockfree := list Z.

Definition gpr_stack_lockfree_push (st : gpr_stack_lockfree) (entry : Z)
  : bool * gpr_stack_lockfree :=
  (match st with [] => true | _ :: _ => false end, entry :: st).

Definition gpr_stack_lockfree_pop (st : gpr_stack_lockfree)
  : Z * gpr_stack_lockfree :=
  match st with
  | [] => ((-1)%Z, [])
  | x :: rest => (x, rest)
  end.

(** [gpr_stack_lockfree_create] followed by the pushes of 0 .. n-1 that
    [grpc_server_create_from_filters] performs on the request freelist. *)
Definition freelist_init (n : Z) : gpr_stack_lockfree :=
  fst (Z.iter n (fun p => (snd p :: fst p, (snd p + 1)%Z)) ([], 0%Z)).

(** ** Request tickets *)

(** The union [data] of [requested_call]; its constructor is the [type]
    field. *)
Inductive requested_call_data :=
| batch (details : addr) (initial_metadata : addr)
| registered (registered_method : method_handle) (deadline : addr)
             (initial_metadata : addr) (optional_payload : option addr).

Record requested_call := {
  data : requested_call_data;
  tag : addr;
  cq_bound_to_call : cq_id;
  cq_for_notification : cq_id;
  call : addr                      (* grpc_call **call *)
}.

Definition rc_type (rc : requested_call) : requested_call_type :=
  match data rc with
  | batch _ _ => BATCH_CALL
  | registered _ _ _ _ => REGISTERED_CALL
  end.

Definition rc_initial_metadata (rc : requested_call) : addr :=
  match data rc with
  | batch _ md => md
  | registered _ _ md _ => md
  end.

(** Where a ticket lives: the heap copy that the request API allocates
    (named by the thread that allocated it) or a slot of the server's
    [requested_calls] array. *)
Inductive rc_ref :=
| Heap (t : thread_id)
| Slot (request_id : Z).

Definition rc_ref_eqb (a b : rc_ref) : bool :=
  match a, b with
  | Heap x, Heap y => Nat.eqb x y
  | Slot x, Slot y => Z.eqb x y
  | _, _ => false
  end.

(** ** Registered methods *)

Record registered_method := {
  rm_handle : method_handle;       (* the address of this record *)
  rm_method : string;              (* char *method, never NULL *)
  rm_host : option string          (* char *host, NULL for a wildcard *)
}.

(** [streq]: NULL equals only NULL. *)
Definition streq (a b : option string) : bool :=
  match a, b with
  | None, None => true
  | None, _ => false
  | _, None => false
  | Some x, Some y => String.eqb x y
  end.

(** ** Per-channel probe table *)

(** A filled slot of [channel_data.registered_methods].  [setup_transport]
    zeroes the table and then writes the three fields of a slot together,
    so a slot is either untouched (all three pointers NULL, [None] below) or
    filled, with [server_registered_method] and [method] set and [host] NULL
    for a wildcard registration. *)
Record channel_registered_method := {
  server_registered_method : method_handle;
  crm_method : grpc_mdstr;
  crm_host : option grpc_mdstr
}.

Definition probe_table := list (option channel_registered_method).

(** The hashing of a metadata context.  [mdstr_hash] is the [hash] field of
    an interned string and [kv_hash] is the macro [GRPC_MDSTR_KV_HASH]; both
    are declared in src/core/transport/metadata.h, outside the sources at
    hand, and are taken as parameters. *)
Record grpc_mdctx := {
  mdstr_hash : grpc_mdstr -> Z;
  kv_hash : Z -> Z -> Z
}.

Definition uint32_max : Z := 4294967295.

Definition wrap32 (x : Z) : Z := (x mod 4294967296)%Z.

(** [(hash + i) % slots], with the sum in [gpr_uint32]. *)
Definition probe_index (hash i slots : Z) : nat :=
  Z.to_nat (wrap32 (hash + i) mod slots)%Z.

Record channel_data := {
  registered_methods_tbl : option probe_table;   (* NULL when no method is registered *)
  registered_method_slots : Z;
  registered_method_max_probes : Z;
  chan_mdctx : grpc_mdctx
}.

(** [rm->host != calld->host] and [rm->method != calld->path] of the first
    loop of [start_new_rpc]; [calld->host] and [calld->path] are not NULL
    there. *)
Definition exact_hit (slot : option channel_registered_method)
           (host path : grpc_mdstr) : option method_handle :=
  match slot with
  | None => None
  | Some rm =>
      match crm_host rm with
      | None => None
      | Some h =>
          if negb (String.eqb h host) then None
          else if negb (String.eqb (crm_method rm) path) then None
          else Some (server_registered_method rm)
      end
  end.

(** [rm->host != NULL] and [rm->method != calld->path] of the second loop. *)
Definition wildcard_hit (slot : option channel_registered_method)
           (path : grpc_mdstr) : option method_handle :=
  match slot with
  | None => None
  | Some rm =>
      match crm_host rm with
      | Some _ => None
      | None =>
          if negb (String.eqb (crm_method rm) path) then None
          else Some (server_registered_method rm)
      end
  end.

(** The probing loop [for (i = 0; i <= max_probes; i++)] of
    [start_new_rpc], for either test.  [n] counts the iterations left; the
    result carries the number of slots that were examined. *)
Fixpoint probe (hit : option channel_registered_method -> option method_handle)
         (tbl : probe_table) (slots hash : Z) (n : nat) (i : Z)
  : option method_handle * Z :=
  match n with
  | O => (None, i)
  | S n' =>
      match hit (nth (probe_index hash i slots) tbl None) with
      | Some m => (Some m, (i + 1)%Z)
      | None => probe hit tbl slots hash n' (i + 1)%Z
      end
  end.

(** A request matcher is named by the method that owns it; [None] is the
    server's [unregistered_request_matcher]. *)
Definition matcher_ref := option method_handle.

Definition matcher_ref_eqb (a b : matcher_ref) : bool :=
  match a, b with
  | None, None => true
  | Some x, Some y => Nat.eqb x y
  | _, _ => false
  end.

Definition probe_count (chand : channel_data) : nat :=
  Z.to_nat (registered_method_max_probes chand + 1).

(** The matcher that [start_new_rpc] hands to [finish_start_new_rpc], for a
    call whose [path] and [host] fields are as given. *)
Definition start_new_rpc_matcher (chand : channel_data)
           (path host : option grpc_mdstr) : matcher_ref :=
  match registered_methods_tbl chand, path, host with
  | Some tbl, Some p, Some h =>
      let md := chan_mdctx chand in
      let slots := registered_method_slots chand in
      (* check for an exact match with host *)
      match fst (probe (fun rm => exact_hit rm h p) tbl slots
                       (kv_hash md (mdstr_hash md h) (mdstr_hash md p))
                       (probe_count chand) 0) with
      | Some m => Some m
      | None =>
          (* check for a wildcard method definition (no host set) *)
          match fst (probe (fun rm => wildcard_hit rm p) tbl slots
                           (kv_hash md 0%Z (mdstr_hash md p))
                           (probe_count chand) 0) with
          | Some m => Some m
          | None => None
          end
      end
  | _, _, _ => None
  end.

(** [setup_transport]: the construction of the probe table of a new
    channel from the server's list of registered methods. *)

Fixpoint list_set {A} (l : list A) (n : nat) (v : A) : list A :=
  match l, n with
  | [], _ => []
  | _ :: t, O => v :: t
  | h :: t, S n' => h :: list_set t n' v
  end.

(** [for (probes = 0; tbl[(hash + probes) % slots].server_registered_method
    != NULL; probes++);].  The loop of the source is unbounded; it is run
    here for at most [fuel] probes, and [find_free_slot_total] below shows
    that twice the number of slots is always enough when a slot is free. *)
Fixpoint find_free_slot (fuel : nat) (tbl : probe_table) (slots hash probes : Z)
  : option Z :=
  match fuel with
  | O => None
  | S fuel' =>
      match nth (probe_index hash probes slots) tbl None with
      | Some _ => find_free_slot fuel' tbl slots hash (probes + 1)%Z
      | None => Some probes
      end
  end.

Definition rm_hash (md : grpc_mdctx) (rm : registered_method) : Z :=
  kv_hash md (match rm_host rm with Some h => mdstr_hash md h | None => 0%Z end)
          (mdstr_hash md (rm_method rm)).

Definition crm_of (rm : registered_method) : channel_registered_method :=
  {| server_registered_method := rm_handle rm;
     crm_method := rm_method rm;
     crm_host := rm_host rm |}.

(** One iteration of the loop over [s->registered_methods]; the state is the
    table and [max_probes]. *)
Definition table_insert (md : grpc_mdctx) (slots : Z) (rm : registered_method)
           (st : probe_table * Z) : option (probe_table * Z) :=
  let hash := rm_hash md rm in
  match find_free_slot (2 * Z.to_nat slots) (fst st) slots hash 0 with
  | None => None
  | Some probes =>
      Some (list_set (fst st) (probe_index hash probes slots) (Some (crm_of rm)),
            if (snd st <? probes)%Z then probes else snd st)
  end.

Fixpoint table_build (md : grpc_mdctx) (slots : Z) (rms : list registered_method)
         (st : probe_table * Z) : option (probe_table * Z) :=
  match rms with
  | [] => Some st
  | rm :: rest =>
      match table_insert md slots rm st with
      | None => None
      | Some st' => table_build md slots rest st'
      end
  end.

(** The [channel_data] that [grpc_server_setup_transport] installs; [None]
    when the function does not return (a failed assertion, or a probing loop
    that runs out of fuel). *)
Definition setup_channel_data (md : grpc_mdctx) (rms : list registered_method)
  : option channel_data :=
  match rms with
  | [] => Some {| registered_methods_tbl := None;
                  registered_method_slots := 0;
                  registered_method_max_probes := 0;
                  chan_mdctx := md |}
  | _ :: _ =>
      let slots := (2 * Z.of_nat (List.length rms))%Z in
      match table_build md slots rms (repeat None (Z.to_nat slots), 0%Z) with
      | None => None
      | Some (tbl, max_probes) =>
          (* GPR_ASSERT (slots <= GPR_UINT32_MAX) *)
          if (uint32_max <? slots)%Z then None
          else
            Some {| registered_methods_tbl := Some tbl;
                    registered_method_slots := slots;
                    registered_method_max_probes := max_probes;
                    chan_mdctx := md |}
      end
  end.

(** ** Calls *)

Record grpc_metadata_batch := {
  md_list : list (grpc_mdstr * grpc_mdstr);   (* key, value *)
  md_deadline : option Z                      (* None is gpr_inf_future *)
}.

Inductive grpc_stream_op :=
| GRPC_OP_METADATA (b : grpc_metadata_batch)
| GRPC_OP_OTHER.

(** [call_data], one per stream.  The mutex [mu_state] guards single reads
    and writes of [state]; each of them is one step below. *)
Record call_data := {
  cd_channel : chan_id   (* elem->channel_data *);
  state : call_state;
  path : option grpc_mdstr;
  host : option grpc_mdstr;
  deadline : option Z;
  got_initial_metadata : bool;
  cq_new : option cq_id;
  recv_state : grpc_stream_state   (* *calld->recv_state *);
  pending_next : option call_id
}.

Definition set_cd_channel (v : chan_id) (x : call_data) : call_data :=
  {| cd_channel := v;
     state := state x;
     path := path x;
     host := host x;
     deadline := deadline x;
     got_initial_metadata := got_initial_metadata x;
     cq_new := cq_new x;
     recv_state := recv_state x;
     pending_next := pending_next x |}.

Definition set_state (v : call_state) (x : call_data) : call_data :=
  {| cd_channel := cd_channel x;
     state := v;
     path := path x;
     host := host x;
     deadline := deadline x;
     got_initial_metadata := got_initial_metadata x;
     cq_new := cq_new x;
     recv_state := recv_state x;
     pending_next := pending_next x |}.

Definition set_path (v : option grpc_mdstr) (x : call_data) : call_data :=
  {| cd_channel := cd_channel x;
     state := state x;
     path := v;
     host := host x;
     deadline := deadline x;
     got_initial_metadata := got_initial_metadata x;
     cq_new := cq_new x;
     recv_state := recv_state x;
     pending_next := pending_next x |}.

Definition set_host (v : option grpc_mdstr) (x : call_data) : call_data :=
  {| cd_channel := cd_channel x;
     state := state x;
     path := path x;
     host := v;
     deadline := deadline x;
     got_initial_metadata := got_initial_metadata x;
     cq_new := cq_new x;
     recv_state := recv_state x;
     pending_next := pending_next x |}.

Definition set_deadline (v : option Z) (x : call_data) : call_data :=
  {| cd_channel := cd_channel x;
     state := state x;
     path := path x;
     host := host x;
     deadline := v;
     got_initial_metadata := got_initial_metadata x;
     cq_new := cq_new x;
     recv_state := recv_state x;
     pending_next := pending_next x |}.

Definition set_got_initial_metadata (v : bool) (x : call_data) : call_data :=
  {| cd_channel := cd_channel x;
     state := state x;
     path := path x;
     host := host x;
     deadline := deadline x;
     got_initial_metadata := v;
     cq_new := cq_new x;
     recv_state := recv_state x;
     pending_next := pending_next x |}.

Definition set_cq_new (v : option cq_id) (x : call_data) : call_data :=
  {| cd_channel := cd_channel x;
     state := state x;
     path := path x;
     host := host x;
     deadline := deadline x;
     got_initial_metadata := got_initial_metadata x;
     cq_new := v;
     recv_state := recv_state x;
     pending_next := pending_next x |}.

Definition set_recv_state (v : grpc_stream_state) (x : call_data) : call_data :=
  {| cd_channel := cd_channel x;
     state := state x;
     path := path x;
     host := host x;
     deadline := deadline x;
     got_initial_metadata := got_initial_metadata x;
     cq_new := cq_new x;
     recv_state := v;
     pending_next := pending_next x |}.

Definition set_pending_next (v : option call_id) (x : call_data) : call_data :=
  {| cd_channel := cd_channel x;
     state := state x;
     path := path x;
     host := host x;
     deadline := deadline x;
     got_initial_metadata := got_initial_metadata x;
     cq_new := cq_new x;
     recv_state := recv_state x;
     pending_next := v |}.

(** [init_call_elem] *)
Definition init_call_elem (ch : chan_id) : call_data :=
  {| cd_channel := ch; state := NOT_STARTED; path := None; host := None;
     deadline := None; got_initial_metadata := false; cq_new := None;
     recv_state := GRPC_STREAM_OPEN; pending_next := None |}.

(** [server_filter], applied by [grpc_metadata_batch_filter] to every element
    of a batch: [:path] and [:authority] are moved into the call. *)
Definition path_key : grpc_mdstr := ":path"%string.
Definition authority_key : grpc_mdstr := ":authority"%string.

Definition server_filter (cd : call_data) (md : grpc_mdstr * grpc_mdstr) : call_data :=
  if String.eqb (fst md) path_key then set_path (Some (snd md)) cd
  else if String.eqb (fst md) authority_key then set_host (Some (snd md)) cd
  else cd.

Fixpoint first_metadata (ops : list grpc_stream_op) : option grpc_metadata_batch :=
  match ops with
  | [] => None
  | GRPC_OP_METADATA b :: _ => Some b
  | GRPC_OP_OTHER :: rest => first_metadata rest
  end.

(** ** Request matchers *)

(** The pending calls form an intrusive list through [pending_next]. *)
Record request_matcher := {
  pending_head : option call_id;
  pending_tail : option call_id;
  requests : gpr_stack_lockfree
}.

Definition set_pending_head (v : option call_id) (x : request_matcher) : request_matcher :=
  {| pending_head := v;
     pending_tail := pending_tail x;
     requests := requests x |}.

Definition set_pending_tail (v : option call_id) (x : request_matcher) : request_matcher :=
  {| pending_head := pending_head x;
     pending_tail := v;
     requests := requests x |}.

Definition set_requests (v : gpr_stack_lockfree) (x : request_matcher) : request_matcher :=
  {| pending_head := pending_head x;
     pending_tail := pending_tail x;
     requests := v |}.

Definition request_matcher_init : request_matcher :=
  {| pending_head := None; pending_tail := None; requests := [] |}.

Definition upd_matcher (f : matcher_ref -> request_matcher) (k : matcher_ref)
           (v : request_matcher) : matcher_ref -> request_matcher :=
  fun x => if matcher_ref_eqb x k then v else f x.

(** ** The server *)

Record shutdown_tag := {
  sd_tag : addr;
  sd_cq : cq_id
}.

(** [struct grpc_server].  The filter list, the channel arguments, the
    pollsets and the reference count play no part in what follows and are
    left out. *)
Record grpc_server := {
  cqs : list cq_id;
  registered_methods : list registered_method   (* newest first *);
  matchers : matcher_ref -> request_matcher   (* unregistered_request_matcher and the matcher of each method *);
  request_freelist : gpr_stack_lockfree;
  requested_calls : Z -> requested_call;
  max_requested_calls : Z;
  shutdown_flag : bool;
  shutdown_published : bool;
  shutdown_tags : list shutdown_tag;
  channel_ring : list chan_id   (* the ring rooted at root_channel_data *);
  listeners : list addr   (* the arg of each listener, newest first *);
  listeners_destroyed : Z;
  mu_global : option thread_id   (* the holder of the mutex *);
  mu_call : option thread_id;
  error_log : list string   (* gpr_log (GPR_ERROR, ...) *)
}.

Definition set_cqs (v : list cq_id) (x : grpc_server) : grpc_server :=
  {| cqs := v;
     registered_methods := registered_methods x;
     matchers := matchers x;
     request_freelist := request_freelist x;
     requested_calls := requested_calls x;
     max_requested_calls := max_requested_calls x;
     shutdown_flag := shutdown_flag x;
     shutdown_published := shutdown_published x;
     shutdown_tags := shutdown_tags x;
     channel_ring := channel_ring x;
     listeners := listeners x;
     listeners_destroyed := listeners_destroyed x;
     mu_global := mu_global x;
     mu_call := mu_call x;
     error_log := error_log x |}.

Definition set_registered_methods (v : list registered_method) (x : grpc_server) : grpc_server :=
  {| cqs := cqs x;
     registered_methods := v;
     matchers := matchers x;
     request_freelist := request_freelist x;
     requested_calls := requested_calls x;
     max_requested_calls := max_requested_calls x;
     shutdown_flag := shutdown_flag x;
     shutdown_published := shutdown_published x;
     shutdown_tags := shutdown_tags x;
     channel_ring := channel_ring x;
     listeners := listeners x;
     listeners_destroyed := listeners_destroyed x;
     mu_global := mu_global x;
     mu_call := mu_call x;
     error_log := error_log x |}.

Definition set_matchers (v : matcher_ref -> request_matcher) (x : grpc_server) : grpc_server :=
  {| cqs := cqs x;
     registered_methods := registered_methods x;
     matchers := v;
     request_freelist := request_freelist x;
     requested_calls := requested_calls x;
     max_requested_calls := max_requested_calls x;
     shutdown_flag := shutdown_flag x;
     shutdown_published := shutdown_published x;
     shutdown_tags := shutdown_tags x;
     channel_ring := channel_ring x;
     listeners := listeners x;
     listeners_destroyed := listeners_destroyed x;
     mu_global := mu_global x;
     mu_call := mu_call x;
     error_log := error_log x |}.

Definition set_request_freelist (v : gpr_stack_lockfree) (x : grpc_server) : grpc_server :=
  {| cqs := cqs x;
     registered_methods := registered_methods x;
     matchers := matchers x;
     request_freelist := v;
     requested_calls := requested_calls x;
     max_requested_calls := max_requested_calls x;
     shutdown_flag := shutdown_flag x;
     shutdown_published := shutdown_published x;
     shutdown_tags := shutdown_tags x;
     channel_ring := channel_ring x;
     listeners := listeners x;
     listeners_destroyed := listeners_destroyed x;
     mu_global := mu_global x;
     mu_call := mu_call x;
     error_log := error_log x |}.

Definition set_requested_calls (v : Z -> requested_call) (x : grpc_server) : grpc_server :=
  {| cqs := cqs x;
     registered_methods := registered_methods x;
     matchers := matchers x;
     request_freelist := request_freelist x;
     requested_calls := v;
     max_requested_calls := max_requested_calls x;
     shutdown_flag := shutdown_flag x;
     shutdown_published := shutdown_published x;
     shutdown_tags := shutdown_tags x;
     channel_ring := channel_ring x;
     listeners := listeners x;
     listeners_destroyed := listeners_destroyed x;
     mu_global := mu_global x;
     mu_call := mu_call x;
     error_log := error_log x |}.

Definition set_max_requested_calls (v : Z) (x : grpc_server) : grpc_server :=
  {| cqs := cqs x;
     registered_methods := registered_methods x;
     matchers := matchers x;
     request_freelist := request_freelist x;
     requested_calls := requested_calls x;
     max_requested_calls := v;
     shutdown_flag := shutdown_flag x;
     shutdown_published := shutdown_published x;
     shutdown_tags := shutdown_tags x;
     channel_ring := channel_ring x;
     listeners := listeners x;
     listeners_destroyed := listeners_destroyed x;
     mu_global := mu_global x;
     mu_call := mu_call x;
     error_log := error_log x |}.

Definition set_shutdown_flag (v : bool) (x : grpc_server) : grpc_server :=
  {| cqs := cqs x;
     registered_methods := registered_methods x;
     matchers := matchers x;
     request_freelist := request_freelist x;
     requested_calls := requested_calls x;
     max_requested_calls := max_requested_calls x;
     shutdown_flag := v;
     shutdown_published := shutdown_published x;
     shutdown_tags := shutdown_tags x;
     channel_ring := channel_ring x;
     listeners := listeners x;
     listeners_destroyed := listeners_destroyed x;
     mu_global := mu_global x;
     mu_call := mu_call x;
     error_log := error_log x |}.

Definition set_shutdown_published (v : bool) (x : grpc_server) : grpc_server :=
  {| cqs := cqs x;
     registered_methods := registered_methods x;
     matchers := matchers x;
     request_freelist := request_freelist x;
     requested_calls := requested_calls x;
     max_requested_calls := max_requested_calls x;
     shutdown_flag := shutdown_flag x;
     shutdown_published := v;
     shutdown_tags := shutdown_tags x;
     channel_ring := channel_ring x;
     listeners := listeners x;
     listeners_destroyed := listeners_destroyed x;
     mu_global := mu_global x;
     mu_call := mu_call x;
     error_log := error_log x |}.

Definition set_shutdown_tags (v : list shutdown_tag) (x : grpc_server) : grpc_server :=
  {| cqs := cqs x;
     registered_methods := registered_methods x;
     matchers := matchers x;
     request_freelist := request_freelist x;
     requested_calls := requested_calls x;
     max_requested_calls := max_requested_calls x;
     shutdown_flag := shutdown_flag x;
     shutdown_published := shutdown_published x;
     shutdown_tags := v;
     channel_ring := channel_ring x;
     listeners := listeners x;
     listeners_destroyed := listeners_destroyed x;
     mu_global := mu_global x;
     mu_call := mu_call x;
     error_log := error_log x |}.

Definition set_channel_ring (v : list chan_id) (x : grpc_server) : grpc_server :=
  {| cqs := cqs x;
     registered_methods := registered_methods x;
     matchers := matchers x;
     request_freelist := request_freelist x;
     requested_calls := requested_calls x;
     max_requested_calls := max_requested_calls x;
     shutdown_flag := shutdown_flag x;
     shutdown_published := shutdown_published x;
     shutdown_tags := shutdown_tags x;
     channel_ring := v;
     listeners := listeners x;
     listeners_destroyed := listeners_destroyed x;
     mu_global := mu_global x;
     mu_call := mu_call x;
     error_log := error_log x |}.

Definition set_listeners (v : list addr) (x : grpc_server) : grpc_server :=
  {| cqs := cqs x;
     registered_methods := registered_methods x;
     matchers := matchers x;
     request_freelist := request_freelist x;
     requested_calls := requested_calls x;
     max_requested_calls := max_requested_calls x;
     shutdown_flag := shutdown_flag x;
     shutdown_published := shutdown_published x;
     shutdown_tags := shutdown_tags x;
     channel_ring := channel_ring x;
     listeners := v;
     listeners_destroyed := listeners_destroyed x;
     mu_global := mu_global x;
     mu_call := mu_call x;
     error_log := error_log x |}.

Definition set_listeners_destroyed (v : Z) (x : grpc_server) : grpc_server :=
  {| cqs := cqs x;
     registered_methods := registered_methods x;
     matchers := matchers x;
     request_freelist := request_freelist x;
     requested_calls := requested_calls x;
     max_requested_calls := max_requested_calls x;
     shutdown_flag := shutdown_flag x;
     shutdown_published := shutdown_published x;
     shutdown_tags := shutdown_tags x;
     channel_ring := channel_ring x;
     listeners := listeners x;
     listeners_destroyed := v;
     mu_global := mu_global x;
     mu_call := mu_call x;
     error_log := error_log x |}.

Definition set_mu_global (v : option thread_id) (x : grpc_server) : grpc_server :=
  {| cqs := cqs x;
     registered_methods := registered_methods x;
     matchers := matchers x;
     request_freelist := request_freelist x;
     requested_calls := requested_calls x;
     max_requested_calls := max_requested_calls x;
     shutdown_flag := shutdown_flag x;
     shutdown_published := shutdown_published x;
     shutdown_tags := shutdown_tags x;
     channel_ring := channel_ring x;
     listeners := listeners x;
     listeners_destroyed := listeners_destroyed x;
     mu_global := v;
     mu_call := mu_call x;
     error_log := error_log x |}.

Definition set_mu_call (v : option thread_id) (x : grpc_server) : grpc_server :=
  {| cqs := cqs x;
     registered_methods := registered_methods x;
     matchers := matchers x;
     request_freelist := request_freelist x;
     requested_calls := requested_calls x;
     max_requested_calls := max_requested_calls x;
     shutdown_flag := shutdown_flag x;
     shutdown_published := shutdown_published x;
     shutdown_tags := shutdown_tags x;
     channel_ring := channel_ring x;
     listeners := listeners x;
     listeners_destroyed := listeners_destroyed x;
     mu_global := mu_global x;
     mu_call := v;
     error_log := error_log x |}.

Definition set_error_log (v : list string) (x : grpc_server) : grpc_server :=
  {| cqs := cqs x;
     registered_methods := registered_methods x;
     matchers := matchers x;
     request_freelist := request_freelist x;
     requested_calls := requested_calls x;
     max_requested_calls := max_requested_calls x;
     shutdown_flag := shutdown_flag x;
     shutdown_published := shutdown_published x;
     shutdown_tags := shutdown_tags x;
     channel_ring := channel_ring x;
     listeners := listeners x;
     listeners_destroyed := listeners_destroyed x;
     mu_global := mu_global x;
     mu_call := mu_call x;
     error_log := v |}.

(** [grpc_server_create_from_filters] *)
Definition grpc_server_create : grpc_server :=
  {| cqs := [];
     registered_methods := [];
     matchers := fun _ => request_matcher_init;
     request_freelist := freelist_init 32768;
     requested_calls := fun _ =>
       {| data := batch 0%Z 0%Z; tag := 0%Z; cq_bound_to_call := 0;
          cq_for_notification := 0; call := 0%Z |};
     max_requested_calls := 32768;
     shutdown_flag := false;
     shutdown_published := false;
     shutdown_tags := [];
     channel_ring := [];
     listeners := [];
     listeners_destroyed := 0%Z;
     mu_global := None;
     mu_call := None;
     error_log := [] |}.

(** [grpc_server_register_completion_queue] *)
Definition grpc_server_register_completion_queue (cq : cq_id) (server : grpc_server)
  : grpc_server :=
  if existsb (Nat.eqb cq) (cqs server) then server
  else set_cqs (cqs server ++ [cq]) server.

(** [grpc_cq_is_server_cq]: the queue was marked by
    [grpc_cq_mark_server_cq], which only the registration above calls. *)
Definition grpc_cq_is_server_cq (server : grpc_server) (cq : cq_id) : bool :=
  existsb (Nat.eqb cq) (cqs server).

(** The test of the loop of [grpc_server_register_method]. *)
Definition same_registration (method : string) (host : option string)
           (m : registered_method) : bool :=
  streq (Some (rm_method m)) (Some method) && streq (rm_host m) host.

(** [grpc_server_register_method].  A NULL [method] is [None]; the result is
    the handle, [None] for NULL.  The fresh record is named by the length of
    the list, which only grows. *)
Definition grpc_server_register_method (server : grpc_server)
           (method : option string) (host : option string)
  : option method_handle * grpc_server :=
  match method with
  | None =>
      (None,
       set_error_log
         (error_log server ++
          ["grpc_server_register_method method string cannot be NULL"%string])
         server)
  | Some method' =>
      if existsb (same_registration method' host) (registered_methods server) then
        (None,
         set_error_log (error_log server ++ ["duplicate registration"%string]) server)
      else
        let m := {| rm_handle := List.length (registered_methods server);
                    rm_method := method';
                    rm_host := host |} in
        (Some (rm_handle m),
         set_registered_methods (m :: registered_methods server)
           (set_matchers
              (upd_matcher (matchers server) (Some (rm_handle m)) request_matcher_init)
              server))
  end.

(** [num_listeners] *)
Definition num_listeners (server : grpc_server) : Z :=
  Z.of_nat (List.length (listeners server)).

(** The matchers in the order in which [kill_pending_work_locked] visits
    them. *)
Definition all_matchers (server : grpc_server) : list matcher_ref :=
  None :: map (fun m => Some (rm_handle m)) (registered_methods server).

(** ** Threads *)

(** Where a thread stands inside [kill_pending_work_locked], for the matcher
    at hand: in the loop of [request_matcher_kill_requests], or in the loop
    of [request_matcher_zombify_all_pending_calls] before the read of
    [pending_head], before the write of [pending_head], before the write
    of [state] under [mu_state], or after the release of [mu_state], before
    the kill closure is added to the closure list. *)
Inductive walk_phase :=
| W_kill
| W_zread
| W_zdetach (calld : call_id)
| W_zkill (calld : call_id)
| W_zadd (calld : call_id).

(** A thread inside one of the functions of the server, at a point between
    two steps, with the local variables that are live there. *)
Inductive thread :=
| T_done (r : option grpc_call_error)
    (* past its last step; what is left is the run of the closure list and
       the return *)
| T_queue_call_request (rc : requested_call)
    (* queue_call_request, before the load of shutdown_flag *)
| T_queue_freelist (rc : requested_call)
    (* before the pop of request_freelist *)
| T_queue_push (rc : requested_call) (request_id : Z)
    (* before the copy into requested_calls and the push *)
| T_drain (rm : matcher_ref)
    (* the pairing loop, before gpr_mu_lock (&server->mu_call) *)
| T_drain_call (rm : matcher_ref) (calld : call_id) (request_id : Z)
    (* the pairing loop, before gpr_mu_lock (&calld->mu_state) *)
| T_shutdown_and_notify (cq : cq_id) (tag : addr)
    (* grpc_server_shutdown_and_notify, before gpr_mu_lock (&server->mu_global) *)
| T_shutdown_lock_call
    (* before gpr_mu_lock (&server->mu_call) *)
| T_kill_pending_work (locked : bool) (ms : list matcher_ref) (ph : walk_phase)
    (* kill_pending_work_locked; locked tells whether mu_call is held *)
| T_shutdown_store_flag
    (* before gpr_atm_rel_store (&server->shutdown_flag, 1) *)
| T_maybe_finish_shutdown
    (* maybe_finish_shutdown, at its entry *)
| T_maybe_finish_check
    (* maybe_finish_shutdown, after kill_pending_work_locked *)
| T_listener_destroy_done
    (* listener_destroy_done, before gpr_mu_lock (&server->mu_global) *)
| T_destroy_channel (ch : chan_id) (elem : bool).
    (* destroy_channel (from channel_connectivity_changed) or, with elem set,
       destroy_channel_elem, before gpr_mu_lock (&server->mu_global) *)

(** Where the callback [server_on_recv] of a call stands.  The transport
    runs the receive callbacks of one stream one after the other. *)
Inductive recv_pc :=
| R_idle
| R_pop (rm : matcher_ref)
    (* finish_start_new_rpc, after the load of shutdown_flag *)
| R_append (rm : matcher_ref)
    (* finish_start_new_rpc, before gpr_mu_lock (&server->mu_call) *)
| R_switch.
    (* before switch ( *calld->recv_state ) *)

(** ** Completion queues *)

(** The [done] callback handed to [grpc_cq_end_op] with its argument. *)
Inductive cq_done :=
| done_request_event (rc : rc_ref)
| done_shutdown_event
| done_published_shutdown.

(** One call of [grpc_cq_end_op]. *)
Record completion := {
  comp_cq : option cq_id;
  comp_tag : addr;
  comp_success : bool;
  comp_done : cq_done
}.

(** The assertions of the source that can fail. *)
Inductive abort_site :=
| assert_drain_pending        (* GPR_ASSERT (calld->state == PENDING) *)
| assert_destroy_call_elem.   (* GPR_ASSERT (calld->state != PENDING) *)

(** ** The state of the system *)

(** The server together with the objects around it: channels, calls, the
    threads in flight, the log of completions, the closures scheduled, and
    the application memory that the tickets point to. *)
Record world := {
  server : grpc_server;
  channels : chan_id -> channel_data;
  nchannels : nat;
  calls : call_id -> call_data;
  ncalls : nat;
  on_recv : call_id -> recv_pc;
  threads : thread_id -> thread;
  nthreads : nat;
  completions : list completion   (* the calls of grpc_cq_end_op, oldest first *);
  consumed : list nat   (* the completions whose done callback has run *);
  kill_scheduled : list call_id   (* the kill_zombie closures added to a closure list *);
  started_ioreqs : list (call_id * Z)   (* the ioreqs of begin_call that have not called back *);
  begun : list (call_id * Z)   (* the calls of begin_call *);
  call_out : addr -> option call_id   (* the grpc_call * that rc->call points to *);
  md_count : addr -> Z   (* the count field of a grpc_metadata_array *);
  destroyed : list call_id   (* the calls whose destroy_call_elem has run *);
  aborted : option abort_site
}.

Definition set_server (v : grpc_server) (x : world) : world :=
  {| server := v;
     channels := channels x;
     nchannels := nchannels x;
     calls := calls x;
     ncalls := ncalls x;
     on_recv := on_recv x;
     threads := threads x;
     nthreads := nthreads x;
     completions := completions x;
     consumed := consumed x;
     kill_scheduled := kill_scheduled x;
     started_ioreqs := started_ioreqs x;
     begun := begun x;
     call_out := call_out x;
     md_count := md_count x;
     destroyed := destroyed x;
     aborted := aborted x |}.

Definition set_channels (v : chan_id -> channel_data) (x : world) : world :=
  {| server := server x;
     channels := v;
     nchannels := nchannels x;
     calls := calls x;
     ncalls := ncalls x;
     on_recv := on_recv x;
     threads := threads x;
     nthreads := nthreads x;
     completions := completions x;
     consumed := consumed x;
     kill_scheduled := kill_scheduled x;
     started_ioreqs := started_ioreqs x;
     begun := begun x;
     call_out := call_out x;
     md_count := md_count x;
     destroyed := destroyed x;
     aborted := aborted x |}.

Definition set_nchannels (v : nat) (x : world) : world :=
  {| server := server x;
     channels := channels x;
     nchannels := v;
     calls := calls x;
     ncalls := ncalls x;
     on_recv := on_recv x;
     threads := threads x;
     nthreads := nthreads x;
     completions := completions x;
     consumed := consumed x;
     kill_scheduled := kill_scheduled x;
     started_ioreqs := started_ioreqs x;
     begun := begun x;
     call_out := call_out x;
     md_count := md_count x;
     destroyed := destroyed x;
     aborted := aborted x |}.

Definition set_calls (v : call_id -> call_data) (x : world) : world :=
  {| server := server x;
     channels := channels x;
     nchannels := nchannels x;
     calls := v;
     ncalls := ncalls x;
     on_recv := on_recv x;
     threads := threads x;
     nthreads := nthreads x;
     completions := completions x;
     consumed := consumed x;
     kill_scheduled := kill_scheduled x;
     started_ioreqs := started_ioreqs x;
     begun := begun x;
     call_out := call_out x;
     md_count := md_count x;
     destroyed := destroyed x;
     aborted := aborted x |}.

Definition set_ncalls (v : nat) (x : world) : world :=
  {| server := server x;
     channels := channels x;
     nchannels := nchannels x;
     calls := calls x;
     ncalls := v;
     on_recv := on_recv x;
     threads := threads x;
     nthreads := nthreads x;
     completions := completions x;
     consumed := consumed x;
     kill_scheduled := kill_scheduled x;
     started_ioreqs := started_ioreqs x;
     begun := begun x;
     call_out := call_out x;
     md_count := md_count x;
     destroyed := destroyed x;
     aborted := aborted x |}.

Definition set_on_recv (v : call_id -> recv_pc) (x : world) : world :=
  {| server := server x;
     channels := channels x;
     nchannels := nchannels x;
     calls := calls x;
     ncalls := ncalls x;
     on_recv := v;
     threads := threads x;
     nthreads := nthreads x;
     completions := completions x;
     consumed := consumed x;
     kill_scheduled := kill_scheduled x;
     started_ioreqs := started_ioreqs x;
     begun := begun x;
     call_out := call_out x;
     md_count := md_count x;
     destroyed := destroyed x;
     aborted := aborted x |}.

Definition set_threads (v : thread_id -> thread) (x : world) : world :=
  {| server := server x;
     channels := channels x;
     nchannels := nchannels x;
     calls := calls x;
     ncalls := ncalls x;
     on_recv := on_recv x;
     threads := v;
     nthreads := nthreads x;
     completions := completions x;
     consumed := consumed x;
     kill_scheduled := kill_scheduled x;
     started_ioreqs := started_ioreqs x;
     begun := begun x;
     call_out := call_out x;
     md_count := md_count x;
     destroyed := destroyed x;
     aborted := aborted x |}.

Definition set_nthreads (v : nat) (x : world) : world :=
  {| server := server x;
     channels := channels x;
     nchannels := nchannels x;
     calls := calls x;
     ncalls := ncalls x;
     on_recv := on_recv x;
     threads := threads x;
     nthreads := v;
     completions := completions x;
     consumed := consumed x;
     kill_scheduled := kill_scheduled x;
     started_ioreqs := started_ioreqs x;
     begun := begun x;
     call_out := call_out x;
     md_count := md_count x;
     destroyed := destroyed x;
     aborted := aborted x |}.

Definition set_completions (v : list completion) (x : world) : world :=
  {| server := server x;
     channels := channels x;
     nchannels := nchannels x;
     calls := calls x;
     ncalls := ncalls x;
     on_recv := on_recv x;
     threads := threads x;
     nthreads := nthreads x;
     completions := v;
     consumed := consumed x;
     kill_scheduled := kill_scheduled x;
     started_ioreqs := started_ioreqs x;
     begun := begun x;
     call_out := call_out x;
     md_count := md_count x;
     destroyed := destroyed x;
     aborted := aborted x |}.

Definition set_consumed (v : list nat) (x : world) : world :=
  {| server := server x;
     channels := channels x;
     nchannels := nchannels x;
     calls := calls x;
     ncalls := ncalls x;
     on_recv := on_recv x;
     threads := threads x;
     nthreads := nthreads x;
     completions := completions x;
     consumed := v;
     kill_scheduled := kill_scheduled x;
     started_ioreqs := started_ioreqs x;
     begun := begun x;
     call_out := call_out x;
     md_count := md_count x;
     destroyed := destroyed x;
     aborted := aborted x |}.

Definition set_kill_scheduled (v : list call_id) (x : world) : world :=
  {| server := server x;
     channels := channels x;
     nchannels := nchannels x;
     calls := calls x;
     ncalls := ncalls x;
     on_recv := on_recv x;
     threads := threads x;
     nthreads := nthreads x;
     completions := completions x;
     consumed := consumed x;
     kill_scheduled := v;
     started_ioreqs := started_ioreqs x;
     begun := begun x;
     call_out := call_out x;
     md_count := md_count x;
     destroyed := destroyed x;
     aborted := aborted x |}.

Definition set_started_ioreqs (v : list (call_id * Z)) (x : world) : world :=
  {| server := server x;
     channels := channels x;
     nchannels := nchannels x;
     calls := calls x;
     ncalls := ncalls x;
     on_recv := on_recv x;
     threads := threads x;
     nthreads := nthreads x;
     completions := completions x;
     consumed := consumed x;
     kill_scheduled := kill_scheduled x;
     started_ioreqs := v;
     begun := begun x;
     call_out := call_out x;
     md_count := md_count x;
     destroyed := destroyed x;
     aborted := aborted x |}.

Definition set_begun (v : list (call_id * Z)) (x : world) : world :=
  {| server := server x;
     channels := channels x;
     nchannels := nchannels x;
     calls := calls x;
     ncalls := ncalls x;
     on_recv := on_recv x;
     threads := threads x;
     nthreads := nthreads x;
     completions := completions x;
     consumed := consumed x;
     kill_scheduled := kill_scheduled x;
     started_ioreqs := started_ioreqs x;
     begun := v;
     call_out := call_out x;
     md_count := md_count x;
     destroyed := destroyed x;
     aborted := aborted x |}.

Definition set_call_out (v : addr -> option call_id) (x : world) : world :=
  {| server := server x;
     channels := channels x;
     nchannels := nchannels x;
     calls := calls x;
     ncalls := ncalls x;
     on_recv := on_recv x;
     threads := threads x;
     nthreads := nthreads x;
     completions := completions x;
     consumed := consumed x;
     kill_scheduled := kill_scheduled x;
     started_ioreqs := started_ioreqs x;
     begun := begun x;
     call_out := v;
     md_count := md_count x;
     destroyed := destroyed x;
     aborted := aborted x |}.

Definition set_md_count (v : addr -> Z) (x : world) : world :=
  {| server := server x;
     channels := channels x;
     nchannels := nchannels x;
     calls := calls x;
     ncalls := ncalls x;
     on_recv := on_recv x;
     threads := threads x;
     nthreads := nthreads x;
     completions := completions x;
     consumed := consumed x;
     kill_scheduled := kill_scheduled x;
     started_ioreqs := started_ioreqs x;
     begun := begun x;
     call_out := call_out x;
     md_count := v;
     destroyed := destroyed x;
     aborted := aborted x |}.

Definition set_destroyed (v : list call_id) (x : world) : world :=
  {| server := server x;
     channels := channels x;
     nchannels := nchannels x;
     calls := calls x;
     ncalls := ncalls x;
     on_recv := on_recv x;
     threads := threads x;
     nthreads := nthreads x;
     completions := completions x;
     consumed := consumed x;
     kill_scheduled := kill_scheduled x;
     started_ioreqs := started_ioreqs x;
     begun := begun x;
     call_out := call_out x;
     md_count := md_count x;
     destroyed := v;
     aborted := aborted x |}.

Definition set_aborted (v : option abort_site) (x : world) : world :=
  {| server := server x;
     channels := channels x;
     nchannels := nchannels x;
     calls := calls x;
     ncalls := ncalls x;
     on_recv := on_recv x;
     threads := threads x;
     nthreads := nthreads x;
     completions := completions x;
     consumed := consumed x;
     kill_scheduled := kill_scheduled x;
     started_ioreqs := started_ioreqs x;
     begun := begun x;
     call_out := call_out x;
     md_count := md_count x;
     destroyed := destroyed x;
     aborted := v |}.

(** ** Primitive operations on the state *)

Definition upd_server (f : grpc_server -> grpc_server) (w : world) : world :=
  set_server (f (server w)) w.

Definition matcher (w : world) (rm : matcher_ref) : request_matcher :=
  matchers (server w) rm.

Definition set_matcher (rm : matcher_ref) (m : request_matcher) (w : world) : world :=
  upd_server (fun s => set_matchers (upd_matcher (matchers s) rm m) s) w.

Definition set_call (c : call_id) (cd : call_data) (w : world) : world :=
  set_calls (upd_nat (calls w) c cd) w.

Definition set_thread (t : thread_id) (th : thread) (w : world) : world :=
  set_threads (upd_nat (threads w) t th) w.

Definition set_recv_pc (c : call_id) (pc : recv_pc) (w : world) : world :=
  set_on_recv (upd_nat (on_recv w) c pc) w.

Definition spawn (th : thread) (w : world) : world :=
  set_nthreads (S (nthreads w)) (set_thread (nthreads w) th w).

(** [grpc_cq_end_op (cq, tag, success, done, done_arg, ...)] *)
Definition grpc_cq_end_op (cq : option cq_id) (tg : addr) (success : bool)
           (done : cq_done) (w : world) : world :=
  set_completions
    (completions w ++
     [{| comp_cq := cq; comp_tag := tg; comp_success := success; comp_done := done |}])
    w.

(** [grpc_closure_init (&calld->kill_zombie_closure, kill_zombie, elem);
    grpc_closure_list_add (closure_list, &calld->kill_zombie_closure, 1)] *)
Definition schedule_kill_zombie (calld : call_id) (w : world) : world :=
  set_kill_scheduled (kill_scheduled w ++ [calld]) w.

(** [fail_call (server, rc, closure_list)]; [r] is the pointer [rc]. *)
Definition fail_call (rc : requested_call) (r : rc_ref) (w : world) : world :=
  let w1 := set_call_out (upd_Z (call_out w) (call rc) None) w in
  let w2 := set_md_count (upd_Z (md_count w1) (rc_initial_metadata rc) 0%Z) w1 in
  grpc_cq_end_op (Some (cq_for_notification rc)) (tag rc) false
                 (done_request_event r) w2.

(** [begin_call (server, calld, &server->requested_calls[request_id], ...)]:
    the call is bound to the ticket, handed to the application through
    [*rc->call], and the ioreq that ends in [publish_registered_or_batch]
    is started.  The copies into [details] and [deadline] are left out. *)
Definition begin_call (calld : call_id) (request_id : Z) (w : world) : world :=
  let rc := requested_calls (server w) request_id in
  let w1 := set_call_out (upd_Z (call_out w) (call rc) (Some calld)) w in
  let w2 := set_call calld
              (set_cq_new (Some (cq_for_notification rc)) (calls w1 calld)) w1 in
  set_begun (begun w2 ++ [(calld, request_id)])
            (set_started_ioreqs (started_ioreqs w2 ++ [(calld, request_id)]) w2).

(** [publish_registered_or_batch (call, success, prc, ...)] *)
Definition publish_registered_or_batch (calld : call_id) (success : bool)
           (request_id : Z) (w : world) : world :=
  grpc_cq_end_op (cq_new (calls w calld))
                 (tag (requested_calls (server w) request_id)) success
                 (done_request_event (Slot request_id)) w.

(** The matcher that [queue_call_request] selects by [rc->type]. *)
Definition rc_matcher (rc : requested_call) : matcher_ref :=
  match data rc with
  | batch _ _ => None
  | registered m _ _ _ => Some m
  end.

Definition is_free (m : option thread_id) : bool :=
  match m with None => true | Some _ => false end.

Definition ioreq_eqb (a b : call_id * Z) : bool :=
  Nat.eqb (fst a) (fst b) && Z.eqb (snd a) (snd b).

Fixpoint remove_first {A} (eqb : A -> A -> bool) (x : A) (l : list A) : list A :=
  match l with
  | [] => []
  | y :: rest => if eqb x y then rest else y :: remove_first eqb x rest
  end.

(** ** The receive callback

    [server_on_recv], up to the call of [start_new_rpc]: the scan of the op
    buffer for the first metadata op.  The second component tells whether
    [start_new_rpc] is called. *)
Definition recv_metadata (cd : call_data) (success : bool)
           (ops : list grpc_stream_op) : call_data * bool :=
  if success && negb (got_initial_metadata cd) then
    match first_metadata ops with
    | None => (cd, false)
    | Some b =>
        let cd1 := fold_left server_filter (md_list b) cd in
        let cd2 := match md_deadline b with
                   | Some d => set_deadline (Some d) cd1
                   | None => cd1
                   end in
        match host cd2, path cd2 with
        | Some _, Some _ => (set_got_initial_metadata true cd2, true)
        | _, _ => (cd2, false)
        end
    end
  else (cd, false).

(** What the transport guarantees about the callbacks of one stream (the
    transport is outside the sources at hand): the stream state only
    advances, and no metadata arrives once the receiving side is closed. *)
Definition stream_state_le (a b : grpc_stream_state) : bool :=
  match a, b with
  | GRPC_STREAM_OPEN, _ => true
  | GRPC_STREAM_SEND_CLOSED, (GRPC_STREAM_SEND_CLOSED | GRPC_STREAM_CLOSED) => true
  | GRPC_STREAM_RECV_CLOSED, (GRPC_STREAM_RECV_CLOSED | GRPC_STREAM_CLOSED) => true
  | GRPC_STREAM_CLOSED, GRPC_STREAM_CLOSED => true
  | _, _ => false
  end.

Definition recv_closed (s : grpc_stream_state) : bool :=
  match s with
  | GRPC_STREAM_RECV_CLOSED | GRPC_STREAM_CLOSED => true
  | _ => false
  end.

Definition transport_contract (old : grpc_stream_state)
           (ops : list grpc_stream_op) (new : grpc_stream_state) : bool :=
  stream_state_le old new &&
  (negb (recv_closed old) ||
   match first_metadata ops with None => true | Some _ => false end).

(** The entry of [server_on_recv] for call [c], through [start_new_rpc] up
    to the load of [shutdown_flag] in [finish_start_new_rpc].  Everything
    before that load works on the call alone. *)
Definition server_on_recv (c : call_id) (success : bool)
           (ops : list grpc_stream_op) (st : grpc_stream_state) (w : world) : world :=
  let cd0 := set_recv_state st (calls w c) in
  let (cd, start) := recv_metadata cd0 success ops in
  if start then
    let rm := start_new_rpc_matcher (channels w (cd_channel cd)) (path cd) (host cd) in
    if shutdown_flag (server w) then
      set_recv_pc c R_switch
        (schedule_kill_zombie c (set_call c (set_state ZOMBIED cd) w))
    else
      set_recv_pc c (R_pop rm) (set_call c cd w)
  else
    set_recv_pc c R_switch (set_call c cd w).

(** The append of [finish_start_new_rpc], under [mu_call]. *)
Definition enqueue_pending (rm : matcher_ref) (c : call_id) (w : world) : world :=
  let w1 := set_call c (set_state PENDING (calls w c)) w in
  let m := matcher w1 rm in
  let w2 :=
    match pending_head m with
    | None =>
        set_matcher rm (set_pending_tail (Some c) (set_pending_head (Some c) m)) w1
    | Some _ =>
        let w' := match pending_tail m with
                  | Some tl => set_call tl (set_pending_next (Some c) (calls w1 tl)) w1
                  | None => w1
                  end in
        set_matcher rm (set_pending_tail (Some c) m) w'
    end in
  set_call c (set_pending_next None (calls w2 c)) w2.

(** The [switch ( *calld->recv_state )] of [server_on_recv]. *)
Definition recv_switch (c : call_id) (w : world) : world :=
  let cd := calls w c in
  match recv_state cd with
  | GRPC_STREAM_OPEN => w
  | GRPC_STREAM_SEND_CLOSED => w
  | GRPC_STREAM_RECV_CLOSED =>
      match state cd with
      | NOT_STARTED => schedule_kill_zombie c (set_call c (set_state ZOMBIED cd) w)
      | _ => w
      end
  | GRPC_STREAM_CLOSED =>
      match state cd with
      | NOT_STARTED => schedule_kill_zombie c (set_call c (set_state ZOMBIED cd) w)
      | PENDING =>
          (* zombied call will be destroyed when it's removed from the pending
             queue... later *)
          set_call c (set_state ZOMBIED cd) w
      | _ => w
      end
  end.

(** One step of the callback of call [c]. *)
Definition recv_step (c : call_id) (w : world) : option world :=
  match on_recv w c with
  | R_idle => None
  | R_pop rm =>
      let m := matcher w rm in
      let (request_id, st) := gpr_stack_lockfree_pop (requests m) in
      if (request_id =? -1)%Z then
        Some (set_recv_pc c (R_append rm) w)
      else
        let w1 := set_matcher rm (set_requests st m) w in
        let w2 := set_call c (set_state ACTIVATED (calls w1 c)) w1 in
        Some (set_recv_pc c R_switch (begin_call c request_id w2))
  | R_append rm =>
      if is_free (mu_call (server w)) then
        Some (set_recv_pc c R_switch (enqueue_pending rm c w))
      else None
  | R_switch =>
      Some (set_recv_pc c R_idle (recv_switch c w))
  end.

(** ** Threads: ticket submission *)

Definition finish (t : thread_id) (r : option grpc_call_error) (w : world) : world :=
  set_thread t (T_done r) w.

(** [queue_call_request], one case per step. *)
Definition queue_step (t : thread_id) (th : thread) (w : world) : option world :=
  match th with
  | T_queue_call_request rc =>
      if shutdown_flag (server w) then
        Some (finish t (Some GRPC_CALL_OK) (fail_call rc (Heap t) w))
      else Some (set_thread t (T_queue_freelist rc) w)
  | T_queue_freelist rc =>
      let (request_id, fl) := gpr_stack_lockfree_pop (request_freelist (server w)) in
      if (request_id =? -1)%Z then
        (* out of request ids: just fail this one *)
        Some (finish t (Some GRPC_CALL_OK) (fail_call rc (Heap t) w))
      else
        Some (set_thread t (T_queue_push rc request_id)
                (upd_server (set_request_freelist fl) w))
  | T_queue_push rc request_id =>
      let rm := rc_matcher rc in
      let w1 := upd_server
                  (fun s => set_requested_calls
                              (upd_Z (requested_calls s) request_id rc) s) w in
      let m := matcher w1 rm in
      let (first, st) := gpr_stack_lockfree_push (requests m) request_id in
      let w2 := set_matcher rm (set_requests st m) w1 in
      if first then
        (* this was the first queued request: we need to lock and start
           matching calls *)
        Some (set_thread t (T_drain rm) w2)
      else Some (finish t (Some GRPC_CALL_OK) w2)
  | T_drain rm =>
      if is_free (mu_call (server w)) then
        let m := matcher w rm in
        match pending_head m with
        | None => Some (finish t (Some GRPC_CALL_OK) w)
        | Some calld =>
            let (request_id, st) := gpr_stack_lockfree_pop (requests m) in
            if (request_id =? -1)%Z then Some (finish t (Some GRPC_CALL_OK) w)
            else
              Some (set_thread t (T_drain_call rm calld request_id)
                      (set_matcher rm
                         (set_pending_head (pending_next (calls w calld))
                                           (set_requests st m)) w))
        end
      else None
  | T_drain_call rm calld request_id =>
      match state (calls w calld) with
      | ZOMBIED => Some (set_thread t (T_drain rm) (schedule_kill_zombie calld w))
      | PENDING =>
          let w1 := set_call calld (set_state ACTIVATED (calls w calld)) w in
          Some (set_thread t (T_drain rm) (begin_call calld request_id w1))
      | _ => Some (set_aborted (Some assert_drain_pending) w)
      end
  | _ => None
  end.

(** ** Threads: shutdown *)

Definition unlock_global (w : world) : world :=
  upd_server (set_mu_global None) w.

(** [kill_pending_work_locked] for the matchers [m :: rest] still to visit,
    one step per access to the stack or to the pending list. *)
Definition walk_step (t : thread_id) (locked : bool) (m : matcher_ref)
           (rest : list matcher_ref) (ph : walk_phase) (w : world) : world :=
  match ph with
  | W_kill =>
      let rmq := matcher w m in
      let (request_id, st) := gpr_stack_lockfree_pop (requests rmq) in
      if (request_id =? -1)%Z then
        set_thread t (T_kill_pending_work locked (m :: rest) W_zread) w
      else
        fail_call (requested_calls (server w) request_id) (Slot request_id)
                  (set_matcher m (set_requests st rmq) w)
  | W_zread =>
      match pending_head (matcher w m) with
      | None => set_thread t (T_kill_pending_work locked rest W_kill) w
      | Some calld =>
          set_thread t (T_kill_pending_work locked (m :: rest) (W_zdetach calld)) w
      end
  | W_zdetach calld =>
      set_thread t (T_kill_pending_work locked (m :: rest) (W_zkill calld))
        (set_matcher m
           (set_pending_head (pending_next (calls w calld)) (matcher w m)) w)
  | W_zkill calld =>
      set_thread t (T_kill_pending_work locked (m :: rest) (W_zadd calld))
        (set_call calld (set_state ZOMBIED (calls w calld)) w)
  | W_zadd calld =>
      set_thread t (T_kill_pending_work locked (m :: rest) W_zread)
        (schedule_kill_zombie calld w)
  end.

(** The completions that [maybe_finish_shutdown] posts, one per registered
    shutdown tag. *)
Definition publish_shutdown (w : world) : world :=
  fold_left
    (fun w' sdt => grpc_cq_end_op (Some (sd_cq sdt)) (sd_tag sdt) true
                                  done_shutdown_event w')
    (shutdown_tags (server w))
    (upd_server (set_shutdown_published true) w).

Definition ring_remove (ch : chan_id) (ring : list chan_id) : list chan_id :=
  filter (fun x => negb (Nat.eqb x ch)) ring.

(** [is_channel_orphaned] *)
Definition is_channel_orphaned (w : world) (ch : chan_id) : bool :=
  negb (existsb (Nat.eqb ch) (channel_ring (server w))).

(** [grpc_server_shutdown_and_notify], [maybe_finish_shutdown] and its other
    callers, one case per step.  A thread is followed up to its last
    release of [mu_global], where it becomes [T_done].  What
    [grpc_server_shutdown_and_notify] does after that release (it asks each
    listener to destroy itself, broadcasts the goaway to the channels and
    runs its closure list) is not a step of the thread: it reaches the
    state kept here only through [listener_destroy_done], the destruction
    of channels and the kill closures, and these are the labels
    [L_listener_destroy_done], [L_channel_connectivity_changed],
    [L_destroy_channel_elem] and [L_destroy_call], which can be taken at
    any time, also before the call returns. *)
Definition shutdown_step (t : thread_id) (th : thread) (w : world) : option world :=
  match th with
  | T_shutdown_and_notify cq tg =>
      if is_free (mu_global (server w)) then
        if shutdown_published (server w) then
          Some (finish t None
                  (grpc_cq_end_op (Some cq) tg true done_published_shutdown w))
        else
          let w1 := upd_server
                      (fun s => set_shutdown_tags
                                  (shutdown_tags s ++ [{| sd_tag := tg; sd_cq := cq |}]) s)
                      w in
          if shutdown_flag (server w1) then Some (finish t None w1)
          else
            Some (set_thread t T_shutdown_lock_call
                    (upd_server (set_mu_global (Some t)) w1))
      else None
  | T_shutdown_lock_call =>
      (* collect all unregistered then registered calls *)
      if is_free (mu_call (server w)) then
        Some (set_thread t (T_kill_pending_work true (all_matchers (server w)) W_kill)
                (upd_server (set_mu_call (Some t)) w))
      else None
  | T_kill_pending_work locked [] _ =>
      if locked then
        Some (set_thread t T_shutdown_store_flag (upd_server (set_mu_call None) w))
      else Some (set_thread t T_maybe_finish_check w)
  | T_kill_pending_work locked (m :: rest) ph =>
      Some (walk_step t locked m rest ph w)
  | T_shutdown_store_flag =>
      Some (set_thread t T_maybe_finish_shutdown
              (upd_server (set_shutdown_flag true) w))
  | T_maybe_finish_shutdown =>
      if negb (shutdown_flag (server w)) || shutdown_published (server w) then
        Some (finish t None (unlock_global w))
      else
        Some (set_thread t
                (T_kill_pending_work false (all_matchers (server w)) W_kill) w)
  | T_maybe_finish_check =>
      if negb (match channel_ring (server w) with [] => true | _ => false end)
         || (listeners_destroyed (server w) <? num_listeners (server w))%Z then
        Some (finish t None (unlock_global w))
      else
        Some (finish t None (unlock_global (publish_shutdown w)))
  | T_listener_destroy_done =>
      if is_free (mu_global (server w)) then
        Some (set_thread t T_maybe_finish_shutdown
                (upd_server
                   (fun s => set_listeners_destroyed (listeners_destroyed s + 1)%Z
                               (set_mu_global (Some t) s)) w))
      else None
  | T_destroy_channel ch elem =>
      if is_free (mu_global (server w)) then
        if negb elem && is_channel_orphaned w ch then Some (finish t None w)
        else
          Some (set_thread t T_maybe_finish_shutdown
                  (upd_server
                     (fun s => set_channel_ring (ring_remove ch (channel_ring s))
                                 (set_mu_global (Some t) s)) w))
      else None
  | _ => None
  end.

Definition thread_step (t : thread_id) (w : world) : option world :=
  match threads w t with
  | T_done _ => None
  | T_queue_call_request _ | T_queue_freelist _ | T_queue_push _ _
  | T_drain _ | T_drain_call _ _ _ => queue_step t (threads w t) w
  | _ => shutdown_step t (threads w t) w
  end.

(** ** The transition system *)

(** What the surroundings of the server can do: the application calls the
    API, the transport sets up channels, accepts streams and delivers
    receive callbacks, the call object calls back when an ioreq is done, the
    completion queue runs the done callback of a completion, closures run,
    and the scheduler lets a thread take its next step. *)
Inductive label :=
| L_register_completion_queue (cq : cq_id)
| L_register_method (method : option string) (host : option string)
| L_add_listener (arg : addr)
| L_setup_transport (mdctx : grpc_mdctx)
| L_accept_stream (ch : chan_id)
| L_server_on_recv (c : call_id) (success : bool) (ops : list grpc_stream_op)
                   (st : grpc_stream_state)
| L_recv_step (c : call_id)
| L_request_call (call details initial_metadata : addr)
                 (cq_bound_to_call cq_for_notification : cq_id) (tag : addr)
| L_request_registered_call (rm : method_handle) (call deadline initial_metadata : addr)
                            (optional_payload : option addr)
                            (cq_bound_to_call cq_for_notification : cq_id) (tag : addr)
| L_shutdown_and_notify (cq : cq_id) (tag : addr)
| L_listener_destroy_done
| L_channel_connectivity_changed (ch : chan_id)
| L_destroy_channel_elem (ch : chan_id)
| L_thread_step (t : thread_id)
| L_publish (c : call_id) (request_id : Z) (success : bool)
| L_cq_done (i : nat)
| L_destroy_call (c : call_id).

(** [grpc_server_request_call] and [grpc_server_request_registered_call] up
    to the call of [queue_call_request]. *)
Definition request_call_entry (rc : requested_call) (w : world) : world :=
  if negb (grpc_cq_is_server_cq (server w) (cq_for_notification rc)) then
    spawn (T_done (Some GRPC_CALL_ERROR_NOT_SERVER_COMPLETION_QUEUE)) w
  else spawn (T_queue_call_request rc) w.

(** The done callback of a completion: [done_request_event] returns an
    array slot to the freelist and frees a heap ticket. *)
Definition run_done (d : cq_done) (w : world) : world :=
  match d with
  | done_request_event (Slot request_id) =>
      upd_server
        (fun s => set_request_freelist
                    (snd (gpr_stack_lockfree_push (request_freelist s) request_id)) s)
        w
  | _ => w
  end.

(** [destroy_call_elem], reached through [grpc_call_destroy]. *)
Definition destroy_call_elem (c : call_id) (w : world) : world :=
  match state (calls w c) with
  | PENDING => set_aborted (Some assert_destroy_call_elem) w
  | _ => set_destroyed (destroyed w ++ [c]) w
  end.

(** Who may call [grpc_call_destroy] on a call: the closure [kill_zombie],
    once scheduled, and the application, once [begin_call] has stored the
    call into [*rc->call]. *)
Definition may_destroy (w : world) (c : call_id) : bool :=
  (existsb (Nat.eqb c) (kill_scheduled w)
   || existsb (fun p => Nat.eqb c (fst p)) (begun w))
  && negb (existsb (Nat.eqb c) (destroyed w)).

Definition step (l : label) (w : world) : option world :=
  match aborted w with
  | Some _ => None
  | None =>
      match l with
      | L_register_completion_queue cq =>
          Some (upd_server (grpc_server_register_completion_queue cq) w)
      | L_register_method method host =>
          Some (set_server (snd (grpc_server_register_method (server w) method host)) w)
      | L_add_listener arg =>
          Some (upd_server (fun s => set_listeners (arg :: listeners s) s) w)
      | L_setup_transport mdctx =>
          if is_free (mu_global (server w)) then
            match setup_channel_data mdctx (registered_methods (server w)) with
            | None => None
            | Some chand =>
                Some (set_nchannels (S (nchannels w))
                        (set_channels (upd_nat (channels w) (nchannels w) chand)
                           (upd_server
                              (fun s => set_channel_ring (channel_ring s ++ [nchannels w]) s)
                              w)))
            end
          else None
      | L_accept_stream ch =>
          if ch <? nchannels w then
            Some (set_ncalls (S (ncalls w))
                    (set_recv_pc (ncalls w) R_idle
                       (set_call (ncalls w) (init_call_elem ch) w)))
          else None
      | L_server_on_recv c success ops st =>
          if (c <? ncalls w)
             && match on_recv w c with R_idle => true | _ => false end
             && transport_contract (recv_state (calls w c)) ops st
          then Some (server_on_recv c success ops st w)
          else None
      | L_recv_step c =>
          if c <? ncalls w then recv_step c w else None
      | L_request_call cl details md cqb cqn tg =>
          Some (request_call_entry
                  {| data := batch details md; tag := tg; cq_bound_to_call := cqb;
                     cq_for_notification := cqn; call := cl |} w)
      | L_request_registered_call rm cl dl md pl cqb cqn tg =>
          Some (request_call_entry
                  {| data := registered rm dl md pl; tag := tg; cq_bound_to_call := cqb;
                     cq_for_notification := cqn; call := cl |} w)
      | L_shutdown_and_notify cq tg => Some (spawn (T_shutdown_and_notify cq tg) w)
      | L_listener_destroy_done => Some (spawn T_listener_destroy_done w)
      | L_channel_connectivity_changed ch =>
          if ch <? nchannels w then Some (spawn (T_destroy_channel ch false) w) else None
      | L_destroy_channel_elem ch =>
          if ch <? nchannels w then Some (spawn (T_destroy_channel ch true) w) else None
      | L_thread_step t =>
          if t <? nthreads w then thread_step t w else None
      | L_publish c request_id success =>
          if existsb (ioreq_eqb (c, request_id)) (started_ioreqs w) then
            Some (publish_registered_or_batch c success request_id
                    (set_started_ioreqs
                       (remove_first ioreq_eqb (c, request_id) (started_ioreqs w)) w))
          else None
      | L_cq_done i =>
          match nth_error (completions w) i with
          | Some cmp =>
              if existsb (Nat.eqb i) (consumed w) then None
              else Some (run_done (comp_done cmp) (set_consumed (i :: consumed w) w))
          | None => None
          end
      | L_destroy_call c =>
          if may_destroy w c then Some (destroy_call_elem c w) else None
      end
  end.

Definition init_world : world :=
  {| server := grpc_server_create;
     channels := fun _ =>
       {| registered_methods_tbl := None; registered_method_slots := 0;
          registered_method_max_probes := 0;
          chan_mdctx := {| mdstr_hash := fun _ => 0%Z; kv_hash := fun _ _ => 0%Z |} |};
     nchannels := 0;
     calls := fun _ => init_call_elem 0;
     ncalls := 0;
     on_recv := fun _ => R_idle;
     threads := fun _ => T_done None;
     nthreads := 0;
     completions := [];
     consumed := [];
     kill_scheduled := [];
     started_ioreqs := [];
     begun := [];
     call_out := fun _ => None;
     md_count := fun _ => 0%Z;
     destroyed := [];
     aborted := None |}.

(** The states that an execution can reach. *)
Inductive reachable : world -> Prop :=
| reachable_init : reachable init_world
| reachable_step : forall w l w', reachable w -> step l w = Some w' -> reachable w'.

(** An execution given by its labels. *)
Fixpoint run (ls : list label) (w : world) : option world :=
  match ls with
  | [] => Some w
  | l :: rest =>
      match step l w with
      | Some w' => run rest w'
      | None => None
      end
  end.

(** A thread run alone, for at most [fuel] steps. *)
Fixpoint run_thread (fuel : nat) (t : thread_id) (w : world) : world :=
  match fuel with
  | O => w
  | S fuel' =>
      match thread_step t w with
      | Some w' => run_thread fuel' t w'
      | None => w
      end
  end.

(** What an execution from the initial state shows of its final state. *)
Definition observe {A} (f : world -> A) (ls : list label) : option A :=
  option_map f (run ls init_world).

(** ** Notions used in the statements *)

(** The pending calls of a matcher, from [pending_head] along
    [pending_next]. *)
Inductive fifo (w : world) : option call_id -> list call_id -> Prop :=
| fifo_nil : fifo w None []
| fifo_cons : forall c l,
    fifo w (pending_next (calls w c)) l -> fifo w (Some c) (c :: l).

Definition is_shutdown_event (c : completion) : bool :=
  match comp_done c with done_shutdown_event => true | _ => false end.

Definition shutdown_completion (sdt : shutdown_tag) : completion :=
  {| comp_cq := Some (sd_cq sdt); comp_tag := sd_tag sdt; comp_success := true;
     comp_done := done_shutdown_event |}.

(** The threads that hold [mu_global] across steps, and those that stand
    inside [maybe_finish_shutdown] past its entry test. *)
Definition holds_global (th : thread) : bool :=
  match th with
  | T_shutdown_lock_call | T_kill_pending_work _ _ _ | T_shutdown_store_flag
  | T_maybe_finish_shutdown | T_maybe_finish_check => true
  | _ => false
  end.

Definition in_maybe_finish (th : thread) : bool :=
  match th with
  | T_kill_pending_work false _ _ | T_maybe_finish_check => true
  | _ => false
  end.

Record shutdown_inv (w : world) : Prop := {
  sdi_holder : forall t, holds_global (threads w t) = true ->
                         mu_global (server w) = Some t;
  sdi_inside : forall t, in_maybe_finish (threads w t) = true ->
                         shutdown_flag (server w) = true /\
                         shutdown_published (server w) = false;
  sdi_flag : shutdown_published (server w) = true -> shutdown_flag (server w) = true;
  sdi_posted : filter is_shutdown_event (completions w) =
               if shutdown_published (server w)
               then map shutdown_completion (shutdown_tags (server w))
               else []
}.

(** A call that has been handed to a matcher: it has been created, its
    initial metadata has been seen and it has left [NOT_STARTED]. *)
Definition linked (w : world) (c : call_id) : Prop :=
  c < ncalls w /\ got_initial_metadata (calls w c) = true /\
  state (calls w c) <> NOT_STARTED.

(** The call that a thread holds in its local variable [calld]. *)
Definition thread_call (th : thread) : option call_id :=
  match th with
  | T_drain_call _ calld _ => Some calld
  | T_kill_pending_work _ _ (W_zdetach calld) => Some calld
  | T_kill_pending_work _ _ (W_zkill calld) => Some calld
  | T_kill_pending_work _ _ (W_zadd calld) => Some calld
  | _ => None
  end.

Definition in_finish_start_new_rpc (pc : recv_pc) : bool :=
  match pc with R_pop _ | R_append _ => true | _ => false end.

(** Some thread inside [request_matcher_zombify_all_pending_calls] has
    written [ZOMBIED] into call [c], released [mu_state] and has not yet
    added the kill closure of [c] to its closure list. *)
Definition adding_kill (w : world) (c : call_id) : Prop :=
  exists t locked ms, threads w t = T_kill_pending_work locked ms (W_zadd c).

Record call_inv (w : world) : Prop := {
  ci_recv : forall c, in_finish_start_new_rpc (on_recv w c) = true ->
                      state (calls w c) = NOT_STARTED /\
                      got_initial_metadata (calls w c) = true;
  ci_head : forall rm c, pending_head (matcher w rm) = Some c -> linked w c;
  ci_next : forall c' c, pending_next (calls w c') = Some c -> linked w c;
  ci_thread : forall t c, thread_call (threads w t) = Some c -> linked w c;
  ci_sched : forall c, In c (kill_scheduled w) \/ In c (map fst (begun w)) ->
                       c < ncalls w /\ terminal (state (calls w c)) = true;
  ci_nomd : forall c, got_initial_metadata (calls w c) = false ->
                      state (calls w c) = NOT_STARTED \/
                      (state (calls w c) = ZOMBIED /\
                       recv_closed (recv_state (calls w c)) = true);
  ci_zombie : forall c, state (calls w c) = ZOMBIED ->
                        In c (kill_scheduled w) \/
                        (recv_state (calls w c) = GRPC_STREAM_CLOSED /\
                         got_initial_metadata (calls w c) = true) \/
                        adding_kill w c;
  ci_zadd : forall t locked ms c,
      threads w t = T_kill_pending_work locked ms (W_zadd c) ->
      state (calls w c) = ZOMBIED /\ ms <> [];
  ci_threads : forall t, nthreads w <= t -> threads w t = T_done None;
  ci_abort : aborted w <> Some assert_destroy_call_elem
}.

(** ** Sample executions *)

Definition from_run (ls : list label) : world :=
  match run ls init_world with
  | Some w => w
  | None => init_world
  end.

Definition sample_mdctx : grpc_mdctx :=
  {| mdstr_hash := fun s => Z.of_nat (String.length s);
     kv_hash := fun k v => Z.lxor (4 * k) v |}.

(** The initial metadata of a stream for [path] on [host]. *)
Definition headers (host path : string) : list grpc_stream_op :=
  [GRPC_OP_METADATA
     {| md_list := [(path_key, path); (authority_key, host)];
        md_deadline := None |}].

(** A server with completion queue 0, one channel and one stream on it. *)
Definition trace_one_stream : list label :=
  [L_register_completion_queue 0; L_setup_transport sample_mdctx; L_accept_stream 0].

(** The stream delivers its initial metadata while no ticket is
    outstanding, so call 0 is parked in the pending queue; then the stream
    is closed. *)
Definition trace_closed_while_pending : list label :=
  trace_one_stream ++
  [L_server_on_recv 0 true (headers "h"%string "/svc/M"%string) GRPC_STREAM_OPEN;
   L_recv_step 0; L_recv_step 0; L_recv_step 0;
   L_server_on_recv 0 true [] GRPC_STREAM_CLOSED; L_recv_step 0].

(** After that the application requests a call with tag 7; thread 0 runs
    [queue_call_request] to its end. *)
Definition trace_lost_ticket : list label :=
  trace_closed_while_pending ++
  [L_request_call 100%Z 200%Z 300%Z 0 0 7%Z;
   L_thread_step 0; L_thread_step 0; L_thread_step 0;
   L_thread_step 0; L_thread_step 0; L_thread_step 0].

(** A full shutdown of a server with one listener and one channel:
    [grpc_server_shutdown_and_notify] (thread 0), then the destruction of
    the channel (thread 1), then the acknowledgement of the listener
    (thread 2). *)
Definition trace_shutdown : list label :=
  [L_register_completion_queue 0; L_add_listener 5%Z; L_setup_transport sample_mdctx;
   L_shutdown_and_notify 0 9%Z] ++ repeat (L_thread_step 0) 11 ++
  [L_destroy_channel_elem 0] ++ repeat (L_thread_step 1) 6 ++
  [L_listener_destroy_done] ++ repeat (L_thread_step 2) 6.

(** The prefix of [trace_lost_ticket] at which thread 0 has detached call 0
    from the pending queue and is about to look at its state. *)
Definition trace_drain_finds_zombie : list label :=
  trace_closed_while_pending ++
  [L_request_call 100%Z 200%Z 300%Z 0 0 7%Z;
   L_thread_step 0; L_thread_step 0; L_thread_step 0; L_thread_step 0].

(** The stream delivers its initial metadata and [finish_start_new_rpc]
    finds no ticket (its pop returns -1); before it takes [mu_call], the
    application requests a call and thread 0 runs [queue_call_request] to
    its end; then [finish_start_new_rpc] appends the call. *)
Definition trace_lost_wakeup : list label :=
  trace_one_stream ++
  [L_server_on_recv 0 true (headers "h"%string "/svc/M"%string) GRPC_STREAM_OPEN;
   L_recv_step 0;
   L_request_call 100%Z 200%Z 300%Z 0 0 7%Z;
   L_thread_step 0; L_thread_step 0; L_thread_step 0; L_thread_step 0;
   L_recv_step 0; L_recv_step 0].

(** Three threads.  The receive callback of call 0 and thread 0
    ([grpc_server_request_call]) both load [shutdown_flag] before thread 1
    ([grpc_server_shutdown_and_notify]) sets it.  Thread 1 reaches the
    zombify pass of [maybe_finish_shutdown], which runs without [mu_call];
    the call is appended; thread 1 reads [pending_head]; thread 0 pushes its
    ticket, detaches the call under [mu_call], activates it and begins the
    call. *)
Definition trace_activated_during_shutdown : list label :=
  trace_one_stream ++
  [L_server_on_recv 0 true (headers "h"%string "/svc/M"%string) GRPC_STREAM_OPEN;
   L_request_call 100%Z 200%Z 300%Z 0 0 7%Z; L_thread_step 0; L_thread_step 0;
   L_shutdown_and_notify 0 9%Z] ++ repeat (L_thread_step 1) 8 ++
  [L_recv_step 0; L_recv_step 0;
   L_thread_step 1;
   L_thread_step 0; L_thread_step 0; L_thread_step 0].

(** Thread 1 then goes on with the pass: it writes [pending_head] and the
    state of the call that it read. *)
Definition trace_unlocked_write : list label :=
  trace_activated_during_shutdown ++ [L_thread_step 1; L_thread_step 1].

(** And it adds the kill closure of the call to its closure list. *)
Definition trace_unlocked_zombify : list label :=
  trace_unlocked_write ++ [L_thread_step 1].

(** Two streams and two tickets during shutdown.  The receive callbacks of
    calls 0 and 1 and the threads 0 and 1 ([grpc_server_request_call]) all
    load [shutdown_flag] before thread 2 ([grpc_server_shutdown_and_notify])
    sets it.  Thread 2 reaches the zombify pass of [maybe_finish_shutdown],
    which runs without [mu_call]; both calls are appended; thread 2 reads
    [pending_head], which is call 0. *)
Definition trace_two_pending_in_shutdown : list label :=
  [L_register_completion_queue 0; L_setup_transport sample_mdctx;
   L_accept_stream 0; L_accept_stream 0;
   L_server_on_recv 0 true (headers "h"%string "/svc/M"%string) GRPC_STREAM_OPEN;
   L_server_on_recv 1 true (headers "h"%string "/svc/N"%string) GRPC_STREAM_OPEN;
   L_request_call 100%Z 200%Z 300%Z 0 0 7%Z; L_thread_step 0; L_thread_step 0;
   L_request_call 101%Z 201%Z 301%Z 0 0 8%Z; L_thread_step 1; L_thread_step 1;
   L_shutdown_and_notify 0 9%Z] ++ repeat (L_thread_step 2) 8 ++
  [L_recv_step 0; L_recv_step 0; L_recv_step 1; L_recv_step 1;
   L_thread_step 2].

(** Threads 0 and 1 push their tickets; thread 0 drains under [mu_call]:
    it detaches calls 0 and 1, activates them and begins both.  Thread 2
    then writes [pending_head] with the [pending_next] of the call it had
    read, which is call 1.  The ioreq of call 1 is done and its completion
    is posted; the application destroys call 1, which it was handed. *)
Definition trace_destroyed_while_linked : list label :=
  trace_two_pending_in_shutdown ++
  [L_thread_step 0; L_thread_step 1] ++ repeat (L_thread_step 0) 5 ++
  [L_thread_step 2; L_publish 1 32767%Z true; L_destroy_call 1].

(** Thread 2 goes on with its pass, over call 0 and then over call 1. *)
Definition trace_walk_over_destroyed : list label :=
  trace_destroyed_while_linked ++ repeat (L_thread_step 2) 6.

(** The request id that a thread holds in its local variable
    [request_id]. *)
Definition thread_request (th : thread) : option Z :=
  match th with
  | T_queue_push _ request_id => Some request_id
  | T_drain_call _ _ request_id => Some request_id
  | _ => None
  end.

(** A slot of [requested_calls] that nothing refers to any more: it is
    neither free, nor queued on a matcher, nor held by a thread, nor bound
    to a call that has begun, and no completion carries it. *)
Record lost (id : Z) (w : world) : Prop := {
  lost_freelist : ~ In id (request_freelist (server w));
  lost_matchers : forall rm, ~ In id (requests (matcher w rm));
  lost_threads : forall t, thread_request (threads w t) <> Some id;
  lost_ioreqs : forall c, ~ In (c, id) (started_ioreqs w);
  lost_completions : forall cmp, In cmp (completions w) ->
                                 comp_done cmp <> done_request_event (Slot id)
}.

(** The completion that [fail_call] posts for a ticket. *)
Definition failed_completion (rc : requested_call) (r : rc_ref) : completion :=
  {| comp_cq := Some (cq_for_notification rc); comp_tag := tag rc;
     comp_success := false; comp_done := done_request_event r |}.

(** After the shutdown of [trace_shutdown] the application requests a call
    with tag 7; thread 3 is at the entry of [queue_call_request]. *)
Definition trace_request_after_shutdown : list label :=
  trace_shutdown ++ [L_request_call 100%Z 200%Z 300%Z 0 0 7%Z].

(** ** Registration outcomes *)

Definition already_registered (server : grpc_server) (method : string)
           (host : option string) : Prop :=
  exists m, In m (registered_methods server) /\ rm_method m = method /\ rm_host m = host.

Definition missing_or_empty (method : option string) : Prop :=
  method = None \/ method = Some ""%string.

(** Following the words of the specification: NULL is returned exactly
    when the method string is missing or empty, or the pair is registered
    already. *)
Definition register_method_spec (server : grpc_server) (method : option string)
           (host : option string) : Prop :=
  fst (grpc_server_register_method server method host) = None <->
  (missing_or_empty method \/
   exists s, method = Some s /\ already_registered server s host).

(** ** The pairing drain *)

(** The calls that a thread run alone detaches from a pending queue, each
    with the ticket popped for it, in the order of the steps. *)
Fixpoint drain_log (fuel : nat) (t : thread_id) (w : world) : list (call_id * Z) :=
  match fuel with
  | O => []
  | S fuel' =>
      match thread_step t w with
      | None => []
      | Some w' =>
          match threads w' t with
          | T_drain_call _ calld request_id =>
              (calld, request_id) :: drain_log fuel' t w'
          | _ => drain_log fuel' t w'
          end
      end
  end.

Definition pending_or_zombied (w : world) (c : call_id) : Prop :=
  state (calls w c) = PENDING \/ state (calls w c) = ZOMBIED.

(** Two streams deliver their initial metadata while no ticket is
    outstanding; then a call is requested and thread 0 pushes its ticket. *)
Definition trace_two_pending : list label :=
  trace_one_stream ++
  [L_server_on_recv 0 true (headers "h"%string "/svc/M"%string) GRPC_STREAM_OPEN;
   L_recv_step 0; L_recv_step 0; L_recv_step 0;
   L_accept_stream 0;
   L_server_on_recv 1 true (headers "h"%string "/svc/N"%string) GRPC_STREAM_OPEN;
   L_recv_step 1; L_recv_step 1; L_recv_step 1;
   L_request_call 100%Z 200%Z 300%Z 0 0 7%Z;
   L_thread_step 0; L_thread_step 0; L_thread_step 0].

(** ** The probe table of a channel *)

(** The slot examined by probe [i] of a lookup with hash [hash]. *)
Definition slot_at (tbl : probe_table) (slots hash i : Z)
  : option channel_registered_method :=
  nth (probe_index hash i slots) tbl None.

Definition is_filled (s : option channel_registered_method) : bool :=
  match s with Some _ => true | None => false end.

(** The number of filled slots. *)
Definition occupied (tbl : probe_table) : nat := List.length (filter is_filled tbl).

(** [(method, host)] is in the server's list of registered methods. *)
Definition method_registered (rms : list registered_method) (method : string)
           (host : option string) : Prop :=
  exists rm, In rm rms /\ rm_method rm = method /\ rm_host rm = host.

Definition rm_key (rm : registered_method) : string * option string :=
  (rm_method rm, rm_host rm).

(** What the insertion loop of [setup_transport] maintains, after the
    methods [done] have been entered: the table has [slots] entries, one
    filled slot for each method entered, each of them within [snd st] probes
    of its hash, and no other filled slot. *)
Record table_ok (md : grpc_mdctx) (slots : Z) (done : list registered_method)
       (st : probe_table * Z) : Prop := {
  tok_length : List.length (fst st) = Z.to_nat slots;
  tok_count : occupied (fst st) = List.length done;
  tok_max : (0 <= snd st)%Z;
  tok_present : forall rm, In rm done ->
      exists p, (0 <= p <= snd st)%Z /\
                slot_at (fst st) slots (rm_hash md rm) p = Some (crm_of rm);
  tok_sound : forall idx e, nth idx (fst st) None = Some e ->
      exists rm, In rm done /\ e = crm_of rm
}.

(** Method [/svc/M] is registered for host [h1] (handle 0) and with no
    host (handle 1); a ticket is submitted on each; a stream then delivers
    [:authority = h1] and [:path = /svc/M]. *)
Definition trace_exact_and_wildcard : list label :=
  [L_register_completion_queue 0;
   L_register_method (Some "/svc/M"%string) (Some "h1"%string);
   L_register_method (Some "/svc/M"%string) None;
   L_setup_transport sample_mdctx;
   L_request_registered_call 0 101%Z 201%Z 301%Z None 0 0 11%Z] ++
  repeat (L_thread_step 0) 4 ++
  [L_request_registered_call 1 102%Z 202%Z 302%Z None 0 0 12%Z] ++
  repeat (L_thread_step 1) 4 ++
  [L_accept_stream 0;
   L_server_on_recv 0 true (headers "h1"%string "/svc/M"%string) GRPC_STREAM_OPEN].

(** ** Metadata of a call *)

(** The value of the last element of a batch whose key is [key]. *)
Fixpoint last_value (key : grpc_mdstr) (l : list (grpc_mdstr * grpc_mdstr))
  : option grpc_mdstr :=
  match l with
  | [] => None
  | md :: rest =>
      match last_value key rest with
      | Some v => Some v
      | None => if String.eqb (fst md) key then Some (snd md) else None
      end
  end.

(** ** Call details

    [cpstr], with which [begin_call] copies host and method into the
    [grpc_call_details] of a batch ticket.  A buffer is its contents and
    its capacity; [size_t] is taken to be 64 bits wide. *)

Definition wrap64 (x : Z) : Z := (x mod 18446744073709551616)%Z.

Record str_buf := {
  buf_str : option string;     (* what *dest holds, NULL at first *)
  buf_capacity : Z
}.

Definition slice_length (value : grpc_mdstr) : Z := Z.of_nat (String.length value).

(** [cpstr (&dest, &capacity, value)] *)
Definition cpstr (b : str_buf) (value : grpc_mdstr) : str_buf :=
  let len := slice_length value in
  let capacity :=
    if (buf_capacity b <? wrap64 (len + 1))%Z
    then Z.max (wrap64 (len + 1)) (wrap64 (buf_capacity b * 2))
    else buf_capacity b in
  {| buf_str := Some value; buf_capacity := capacity |}.

(** ** What a step never undoes *)

(** [w'] is later than [w]: the flags that are set stay set, the lists that
    record registrations and events have only grown at their open end. *)
Record later (w w' : world) : Prop := {
  lt_flag : shutdown_flag (server w) = true -> shutdown_flag (server w') = true;
  lt_published : shutdown_published (server w) = true ->
                 shutdown_published (server w') = true;
  lt_tags : exists l, shutdown_tags (server w') = shutdown_tags (server w) ++ l;
  lt_cqs : exists l, cqs (server w') = cqs (server w) ++ l;
  lt_methods : exists l, registered_methods (server w') = l ++ registered_methods (server w);
  lt_listeners : exists l, listeners (server w') = l ++ listeners (server w);
  lt_destroyed : (listeners_destroyed (server w) <= listeners_destroyed (server w'))%Z;
  lt_completions : exists l, completions w' = completions w ++ l;
  lt_kills : exists l, kill_scheduled w' = kill_scheduled w ++ l;
  lt_begun : exists l, begun w' = begun w ++ l;
  lt_counts : ncalls w <= ncalls w' /\ nchannels w <= nchannels w' /\
              nthreads w <= nthreads w'
}.

(** ** The registry of a server *)

(** The completion queues are registered once each; the registered methods
    have distinct [(method, host)] pairs, and their handles are the
    positions at which they were registered. *)
Record registry_inv (s : grpc_server) : Prop := {
  rg_cqs : NoDup (cqs s);
  rg_keys : NoDup (map rm_key (registered_methods s));
  rg_handles : map rm_handle (registered_methods s) =
               rev (seq 0 (List.length (registered_methods s)))
}.

(** ** The two mutexes *)

(** The thread that stands inside the call of [kill_pending_work_locked]
    made by [grpc_server_shutdown_and_notify]. *)
Definition holds_call (th : thread) : bool :=
  match th with
  | T_kill_pending_work true _ _ => true
  | _ => false
  end.

Record lock_inv (w : world) : Prop := {
  lk_global : forall t, mu_global (server w) = Some t ->
                        t < nthreads w /\ holds_global (threads w t) = true;
  lk_call : forall t, mu_call (server w) = Some t ->
                      t < nthreads w /\ holds_call (threads w t) = true;
  lk_call_held : forall t, holds_call (threads w t) = true ->
                           mu_call (server w) = Some t
}.

(** ** Dispatch of a call *)


(** [grpc_server_shutdown_and_notify] has taken [mu_call] and stands inside
    [kill_pending_work_locked]. *)
Definition trace_shutdown_locked : list label :=
  [L_register_completion_queue 0; L_shutdown_and_notify 0 9%Z;
   L_thread_step 0; L_thread_step 0].

(** A method is registered for host [h1] on a new server; later a second
    method is registered and a channel is set up. *)
Definition trace_register_then_setup : list label :=
  [L_register_method (Some "/svc/N"%string) None; L_setup_transport sample_mdctx].


(** ** Request ids

    Where a request id (an index into [requested_calls]) can be: on the
    freelist, on the stack of a matcher, in the local variable [request_id]
    of a thread, bound to a call by an ioreq that has not called back, or in
    a completion whose done callback has not run. *)
Inductive place :=
| P_free
| P_matcher (rm : matcher_ref)
| P_thread (t : thread_id)
| P_ioreq (c : call_id)
| P_done (i : nat).

(** Completion [i] carries slot [id] and [done_request_event] has not run
    for it. *)
Definition live (w : world) (i : nat) (id : Z) : Prop :=
  exists cmp, nth_error (completions w) i = Some cmp /\
              comp_done cmp = done_request_event (Slot id) /\
              ~ In i (consumed w).

Definition holds (w : world) (p : place) (id : Z) : Prop :=
  match p with
  | P_free => In id (request_freelist (server w))
  | P_matcher rm => In id (requests (matcher w rm))
  | P_thread t => thread_request (threads w t) = Some id
  | P_ioreq c => In (c, id) (started_ioreqs w)
  | P_done i => live w i id
  end.

Record slots_inv (w : world) : Prop := {
  sl_max : max_requested_calls (server w) = 32768%Z;
  sl_range : forall p id, holds w p id -> (0 <= id < 32768)%Z;
  sl_unique : forall p q id, holds w p id -> holds w q id -> p = q;
  sl_free : NoDup (request_freelist (server w));
  sl_stack : forall rm, NoDup (requests (matcher w rm));
  sl_ioreqs : NoDup (started_ioreqs w);
  sl_consumed : forall i, In i (consumed w) -> i < List.length (completions w)
}.

(** What a step does to the places: nothing new is held ([None]), or one
    id goes from one place to another. *)
Definition transfers (w w' : world) (moved : option (place * place * Z)) : Prop :=
  match moved with
  | None => forall p id, holds w' p id -> holds w p id
  | Some (src, dst, id0) =>
      holds w src id0 /\
      forall p id, holds w' p id ->
                   (p = dst /\ id = id0) \/ (holds w p id /\ (p = src -> id <> id0))
  end.

(** ** The walk over the matchers at shutdown *)

(** The completions that [request_matcher_kill_requests] posts for the
    tickets [ids], which it pops in this order. *)
Definition killed_requests (s : grpc_server) (ids : list Z) : list completion :=
  map (fun request_id => failed_completion (requested_calls s request_id) (Slot request_id))
      ids.

(** The server apart from its matchers. *)
Record server_frame (s s' : grpc_server) : Prop := {
  sf_cqs : cqs s' = cqs s;
  sf_methods : registered_methods s' = registered_methods s;
  sf_freelist : request_freelist s' = request_freelist s;
  sf_calls : requested_calls s' = requested_calls s;
  sf_max : max_requested_calls s' = max_requested_calls s;
  sf_flag : shutdown_flag s' = shutdown_flag s;
  sf_published : shutdown_published s' = shutdown_published s;
  sf_tags : shutdown_tags s' = shutdown_tags s;
  sf_ring : channel_ring s' = channel_ring s;
  sf_listeners : listeners s' = listeners s;
  sf_destroyed : listeners_destroyed s' = listeners_destroyed s;
  sf_global : mu_global s' = mu_global s;
  sf_call : mu_call s' = mu_call s;
  sf_log : error_log s' = error_log s
}.

(** A ticket with tag 7 is queued on the unregistered matcher; then
    [grpc_server_shutdown_and_notify] (thread 1) takes both mutexes and
    stands at the entry of [kill_pending_work_locked]. *)
Definition trace_shutdown_with_ticket : list label :=
  [L_register_completion_queue 0; L_request_call 100%Z 200%Z 300%Z 0 0 7%Z] ++
  repeat (L_thread_step 0) 4 ++
  [L_shutdown_and_notify 0 9%Z; L_thread_step 1; L_thread_step 1].

(** Call 0 is parked in the pending queue of the unregistered matcher; then
    the application calls [grpc_server_shutdown_and_notify] (thread 0). *)
Definition trace_pending_then_shutdown : list label :=
  trace_one_stream ++
  [L_server_on_recv 0 true (headers "h"%string "/svc/M"%string) GRPC_STREAM_OPEN;
   L_recv_step 0; L_recv_step 0; L_recv_step 0;
   L_shutdown_and_notify 0 9%Z].

(** The same, with [grpc_server_shutdown_and_notify] at the zombify pass of
    its first visit. *)
Definition trace_shutdown_with_pending : list label :=
  trace_pending_then_shutdown ++ repeat (L_thread_step 0) 3.

(** ** Pending lists

    The links of the pending lists: every walk along [pending_next] ends,
    a call that has not left [NOT_STARTED] has no successor, and
    [pending_tail] names a call that has been appended. *)
Record chain_inv (w : world) : Prop := {
  ch_fifo : forall c, exists L, fifo w (Some c) L;
  ch_fresh : forall c, state (calls w c) = NOT_STARTED ->
                       pending_next (calls w c) = None;
  ch_tail : forall rm c, pending_tail (matcher w rm) = Some c ->
                         c < ncalls w /\ state (calls w c) <> NOT_STARTED
}.

(** The server of [trace_shutdown] when the transport destroys the only
    channel (thread 1): shutdown has been requested, the listener has not
    acknowledged. *)
Definition trace_shutdown_last_channel : list label :=
  [L_register_completion_queue 0; L_add_listener 5%Z; L_setup_transport sample_mdctx;
   L_shutdown_and_notify 0 9%Z] ++ repeat (L_thread_step 0) 11 ++
  [L_destroy_channel_elem 0].

(** After that the channel is gone and the listener acknowledges its
    destruction (thread 2). *)
Definition trace_shutdown_last_listener : list label :=
  trace_shutdown_last_channel ++ repeat (L_thread_step 1) 6 ++ [L_listener_destroy_done].

(** Call 0 is parked in the pending queue; a second stream has delivered
    its initial metadata, found no ticket and stands before the append of
    [finish_start_new_rpc]. *)
Definition trace_second_pending : list label :=
  trace_one_stream ++
  [L_server_on_recv 0 true (headers "h"%string "/svc/M"%string) GRPC_STREAM_OPEN;
   L_recv_step 0; L_recv_step 0; L_recv_step 0;
   L_accept_stream 0;
   L_server_on_recv 1 true (headers "h"%string "/svc/N"%string) GRPC_STREAM_OPEN;
   L_recv_step 1].

(** ** The life of a call

    The order in which the code moves a call through its states. *)
Definition state_rank (s : call_state) : nat :=
  match s with
  | NOT_STARTED => 0
  | PENDING => 1
  | ACTIVATED => 2
  | ZOMBIED => 3
  end.

(** Call [c] in [w'] is a later stage of call [c] in [w]. *)
Record advanced (w w' : world) (c : call_id) : Prop := {
  ad_state : state_rank (state (calls w c)) <= state_rank (state (calls w' c));
  ad_channel : cd_channel (calls w' c) = cd_channel (calls w c);
  ad_metadata : got_initial_metadata (calls w c) = true ->
                got_initial_metadata (calls w' c) = true /\
                path (calls w' c) = path (calls w c) /\
                host (calls w' c) = host (calls w c) /\
                deadline (calls w' c) = deadline (calls w c)
}.

(** ** Tickets and completion queues

    The ticket that a thread of [queue_call_request] carries in [rc]. *)
Definition thread_rc (th : thread) : option requested_call :=
  match th with
  | T_queue_call_request rc | T_queue_freelist rc | T_queue_push rc _ => Some rc
  | _ => None
  end.

(** Every ticket in flight notifies a registered completion queue: the
    ticket of a thread, a queued slot, the slot of a draining thread, the
    queue bound to a call by [begin_call], and every completion of a
    request. *)
Record ticket_inv (w : world) : Prop := {
  tk_thread : forall t rc, thread_rc (threads w t) = Some rc ->
      grpc_cq_is_server_cq (server w) (cq_for_notification rc) = true;
  tk_stack : forall rm id, In id (requests (matcher w rm)) ->
      grpc_cq_is_server_cq (server w)
        (cq_for_notification (requested_calls (server w) id)) = true;
  tk_drain : forall t rm c id, threads w t = T_drain_call rm c id ->
      c < ncalls w /\
      grpc_cq_is_server_cq (server w)
        (cq_for_notification (requested_calls (server w) id)) = true;
  tk_new : forall c cq, cq_new (calls w c) = Some cq ->
      grpc_cq_is_server_cq (server w) cq = true;
  tk_ioreq : forall c id, In (c, id) (started_ioreqs w) ->
      c < ncalls w /\ cq_new (calls w c) <> None;
  tk_done : forall cmp r, In cmp (completions w) ->
      comp_done cmp = done_request_event r ->
      exists cq, comp_cq cmp = Some cq /\ grpc_cq_is_server_cq (server w) cq = true
}.

(** After the shutdown of [trace_shutdown] a ticket with tag 7 is submitted
    and thread 3 runs [queue_call_request], which fails it. *)
Definition trace_ticket_after_shutdown : list label :=
  trace_request_after_shutdown ++ [L_thread_step 3].

(** * Properties *)

(** ** Case analysis on a step *)

Ltac unfold_ops :=
  unfold request_call_entry, spawn, finish, unlock_global, publish_registered_or_batch,
    run_done, destroy_call_elem, server_on_recv, recv_switch, enqueue_pending,
    begin_call, fail_call, schedule_kill_zombie, grpc_cq_end_op,
    set_recv_pc, set_thread, set_call, set_matcher, matcher, upd_server in *.

Lemma fold_end_op_eq tags w0 :
  fold_left (fun w' sdt => grpc_cq_end_op (Some (sd_cq sdt)) (sd_tag sdt) true
                                          done_shutdown_event w') tags w0 =
  set_completions (completions w0 ++ map shutdown_completion tags) w0.
Proof.
  revert w0; induction tags as [|sdt tags IH]; intros w0; simpl.
  - rewrite app_nil_r. destruct w0; reflexivity.
  - rewrite IH. unfold grpc_cq_end_op. simpl. rewrite <- app_assoc. reflexivity.
Qed.

Lemma publish_shutdown_eq w :
  publish_shutdown w =
  set_completions
    (completions w ++ map shutdown_completion (shutdown_tags (server w)))
    (upd_server (set_shutdown_published true) w).
Proof. unfold publish_shutdown. rewrite fold_end_op_eq. reflexivity. Qed.

Ltac split_step H :=
  repeat (match type of H with
  | None = Some _ => discriminate H
  | context [if ?b then _ else _] => destruct b eqn:?
  | context [match ?x with _ => _ end] => destruct x eqn:?
  | Some _ = Some _ => inversion H; subst; clear H
  end).

Ltac unfold_step H :=
  unfold step in H;
  match type of H with context [aborted ?w] => destruct (aborted w) eqn:?; [discriminate H|] end;
  match type of H with context [match ?l with L_register_completion_queue _ => _ | _ => _ end] => destruct l end;
  try match type of H with
      | (if ?b then thread_step ?t ?w else None) = _ =>
          destruct b eqn:?; [|discriminate H];
          unfold thread_step in H; destruct (threads w t) eqn:?; simpl in H
      | (if ?b then recv_step ?c ?w else None) = _ =>
          destruct b eqn:?; [|discriminate H];
          unfold recv_step in H; destruct (on_recv w c) eqn:?
      end;
  unfold queue_step, shutdown_step, walk_step,
    gpr_stack_lockfree_pop, gpr_stack_lockfree_push,
    request_call_entry, run_done, destroy_call_elem, server_on_recv, recv_switch,
    enqueue_pending,
    grpc_server_register_completion_queue, grpc_server_register_method in H;
  rewrite ?publish_shutdown_eq in H;
  unfold_ops; cbv beta in H;
  split_step H.


(** ** Executions *)

Lemma run_reachable ls : forall w w', reachable w -> run ls w = Some w' -> reachable w'.
Proof.
  induction ls as [|l ls IH]; simpl; intros w w' R H.
  - inversion H; subst; exact R.
  - destruct (step l w) as [w1|] eqn:E; [|discriminate].
    apply (IH w1 w'); [|exact H]. exact (reachable_step l R E).
Defined.

Lemma reachable_from_run ls : reachable (from_run ls).
Proof.
  unfold from_run. destruct (run ls init_world) as [w|] eqn:E.
  - exact (run_reachable ls reachable_init E).
  - exact reachable_init.
Defined.

Lemma run_app ls1 ls2 w :
  run (ls1 ++ ls2) w =
  match run ls1 w with Some w1 => run ls2 w1 | None => None end.
Proof.
  revert w; induction ls1 as [|l ls1 IH]; intros w; simpl; [reflexivity|].
  destruct (step l w); [apply IH | reflexivity].
Qed.

(** ** Shutdown *)

Lemma in_mfs_holds th : in_maybe_finish th = true -> holds_global th = true.
Proof. destruct th; simpl; auto. Qed.

Lemma shutdown_inv_frame w w' :
  shutdown_inv w ->
  mu_global (server w') = mu_global (server w) ->
  shutdown_flag (server w') = shutdown_flag (server w) ->
  shutdown_published (server w') = shutdown_published (server w) ->
  shutdown_tags (server w') = shutdown_tags (server w) ->
  filter is_shutdown_event (completions w') = filter is_shutdown_event (completions w) ->
  (forall t, threads w' t = threads w t \/
             (holds_global (threads w' t) = true -> holds_global (threads w t) = true) /\
             (in_maybe_finish (threads w' t) = true -> in_maybe_finish (threads w t) = true)) ->
  shutdown_inv w'.
Proof.
  intros [I1 I2 I3 I4] Hm Hf Hp Ht Hc Hth.
  constructor; rewrite ?Hm, ?Hf, ?Hp, ?Ht, ?Hc; auto.
  - intros t Ht'. apply I1. destruct (Hth t) as [E|[E _]]; [rewrite <- E|]; auto.
  - intros t Ht'. apply (I2 t). destruct (Hth t) as [E|[_ E]]; [rewrite <- E|]; auto.
Qed.

Ltac frame_threads :=
  intros ?t'; unfold upd_nat;
  match goal with
  | |- context [Nat.eqb ?a ?b] =>
      destruct (Nat.eqb_spec a b); [subst; right; split; simpl; intros; try discriminate;
         repeat match goal with H : threads _ _ = _ |- _ => rewrite H end; simpl; auto | left; reflexivity]
  | |- _ => left; reflexivity
  end.

Lemma filter_shutdown_map tags :
  filter is_shutdown_event (map shutdown_completion tags) = map shutdown_completion tags.
Proof. induction tags; simpl; congruence. Qed.

Ltac norm_hyps :=
  repeat match goal with
  | H : is_free ?m = true |- _ => destruct m eqn:?; simpl in H; [discriminate H|clear H]
  | H : _ || _ = false |- _ => apply orb_false_iff in H; destruct H
  | H : negb _ = false |- _ => apply negb_false_iff in H
  | H : negb _ = true |- _ => apply negb_true_iff in H
  end.

Ltac use_thread I t :=
  let B := fresh "B" in
  pose proof (I t) as B;
  repeat match goal with H : threads _ t = _ |- _ => rewrite H in B end;
  simpl in B; try specialize (B eq_refl).

Lemma shutdown_inv_step l w w' : shutdown_inv w -> step l w = Some w' -> shutdown_inv w'.
Proof.
  intros I H. unfold_step H.
  all: try solve [ eapply shutdown_inv_frame; [ exact I | .. ]; simpl;
                   rewrite ?filter_app; simpl; rewrite ?app_nil_r;
                   try reflexivity; frame_threads ].
  all: destruct I as [I1 I2 I3 I4]; use_thread I1 t; use_thread I2 t; norm_hyps;
       constructor; simpl;
       
       rewrite ?filter_app, ?filter_shutdown_map; simpl; rewrite ?app_nil_r.
  all: try match goal with |- forall _, _ = true -> _ =>
         let t' := fresh "t'" in let Ht' := fresh "Ht'" in
         intros t' Ht'; unfold upd_nat in Ht';
         destruct (Nat.eqb_spec t' t); [subst t'; simpl in Ht'; try discriminate Ht' |];
         try (pose proof (I1 t' Ht')); try (pose proof (I2 t' Ht'));
         try (pose proof (I1 t' (in_mfs_holds _ Ht')))
       end.
  all: try solve [intuition congruence].
  all: repeat match goal with H : _ /\ _ |- _ => destruct H end;
       repeat match goal with H : shutdown_published _ = _ |- _ => rewrite H in * end;
       simpl in *; rewrite ?I4; auto.
Qed.

Lemma publish_step l w w' :
  shutdown_inv w -> step l w = Some w' ->
  shutdown_published (server w) = false ->
  shutdown_published (server w') = true ->
  (exists t, l = L_thread_step t /\ threads w t = T_maybe_finish_check) /\
  shutdown_flag (server w) = true /\
  channel_ring (server w) = [] /\
  (num_listeners (server w) <= listeners_destroyed (server w))%Z /\
  completions w' =
    completions w ++ map shutdown_completion (shutdown_tags (server w)).
Proof.
  intros I H Hp Hp'. unfold_step H.
  all: simpl in Hp'; try congruence.
  all: destruct I as [I1 I2 I3 I4]; use_thread I2 t.
  all: repeat match goal with H : _ || _ = false |- _ => apply orb_false_iff in H; destruct H end.
  all: repeat match goal with H : negb _ = false |- _ => apply negb_false_iff in H end.
  all: simpl; repeat split; eauto; try tauto.
  all: try (destruct (channel_ring (server w)); [reflexivity | discriminate]).
  all: try (apply Z.ltb_ge; assumption).
Qed.

Lemma shutdown_inv_init : shutdown_inv init_world.
Proof. constructor; simpl; intros; try discriminate; auto. Qed.

Lemma shutdown_inv_reachable w : reachable w -> shutdown_inv w.
Proof.
  induction 1 as [|w l w' R IH H]; [exact shutdown_inv_init|].
  exact (shutdown_inv_step l IH H).
Qed.

(** C8.  [maybe_finish_shutdown] sets [shutdown_published] only when the
    shutdown flag is set, the channel ring is empty and every listener has
    acknowledged its destruction, and it then posts one completion with
    success = 1 for each registered shutdown tag; in every reachable state
    [shutdown_published] implies [shutdown_flag], and the completions posted
    for shutdown tags are exactly one per registered tag once the shutdown
    is published and none before. *)
Theorem maybe_finish_shutdown_publishes_once w :
  reachable w ->
  (shutdown_published (server w) = true -> shutdown_flag (server w) = true) /\
  filter is_shutdown_event (completions w) =
    (if shutdown_published (server w)
     then map shutdown_completion (shutdown_tags (server w))
     else []) /\
  (forall l w',
      step l w = Some w' ->
      shutdown_published (server w) = false ->
      shutdown_published (server w') = true ->
      (exists t, l = L_thread_step t /\ threads w t = T_maybe_finish_check) /\
      shutdown_flag (server w) = true /\
      channel_ring (server w) = [] /\
      (num_listeners (server w) <= listeners_destroyed (server w))%Z /\
      completions w' =
        completions w ++ map shutdown_completion (shutdown_tags (server w))).
Proof.
  intros R. pose proof (shutdown_inv_reachable R) as I.
  split; [exact (sdi_flag I)|]. split; [exact (sdi_posted I)|].
  intros l w' H Hp Hp'. exact (publish_step l I H Hp Hp').
Qed.

Lemma maybe_finish_shutdown_publishes_once_witness :
  reachable (from_run trace_shutdown) /\
  shutdown_published (server (from_run trace_shutdown)) = true /\
  shutdown_flag (server (from_run trace_shutdown)) = true /\
  filter is_shutdown_event (completions (from_run trace_shutdown)) =
    [{| comp_cq := Some 0; comp_tag := 9%Z; comp_success := true;
        comp_done := done_shutdown_event |}].
Proof.
  pose proof (maybe_finish_shutdown_publishes_once
                (reachable_from_run trace_shutdown)) as T.
  split; [exact (reachable_from_run trace_shutdown)|].
  assert (P : shutdown_published (server (from_run trace_shutdown)) = true)
    by (vm_compute; reflexivity).
  split; [exact P|]. split; [exact (proj1 T P)|].
  rewrite (proj1 (proj2 T)). vm_compute. reflexivity.
Defined.

(** ** Calls *)

Lemma server_filter_frame cd md :
  state (server_filter cd md) = state cd /\
  got_initial_metadata (server_filter cd md) = got_initial_metadata cd /\
  recv_state (server_filter cd md) = recv_state cd /\
  pending_next (server_filter cd md) = pending_next cd /\
  cd_channel (server_filter cd md) = cd_channel cd.
Proof.
  unfold server_filter.
  destruct (String.eqb (fst md) path_key); [simpl; auto|].
  destruct (String.eqb (fst md) authority_key); simpl; auto.
Qed.

Lemma fold_server_filter_frame l cd :
  state (fold_left server_filter l cd) = state cd /\
  got_initial_metadata (fold_left server_filter l cd) = got_initial_metadata cd /\
  recv_state (fold_left server_filter l cd) = recv_state cd /\
  pending_next (fold_left server_filter l cd) = pending_next cd /\
  cd_channel (fold_left server_filter l cd) = cd_channel cd.
Proof.
  revert cd; induction l as [|md l IH]; intros cd; simpl; auto.
  destruct (IH (server_filter cd md)) as (A & B & C & D & E).
  destruct (server_filter_frame cd md) as (A' & B' & C' & D' & E').
  repeat split; congruence.
Qed.

Lemma recv_metadata_spec cd success ops cd' start :
  recv_metadata cd success ops = (cd', start) ->
  state cd' = state cd /\ recv_state cd' = recv_state cd /\
  pending_next cd' = pending_next cd /\ cd_channel cd' = cd_channel cd /\
  (if start
   then got_initial_metadata cd = false /\ got_initial_metadata cd' = true /\
        first_metadata ops <> None
   else got_initial_metadata cd' = got_initial_metadata cd).
Proof.
  unfold recv_metadata. intros H.
  destruct (success && negb (got_initial_metadata cd)) eqn:E.
  2:{ inversion H; subst; auto. }
  apply andb_true_iff in E. destruct E as [_ E]. apply negb_true_iff in E.
  destruct (first_metadata ops) as [b|] eqn:F.
  2:{ inversion H; subst; auto. }
  destruct (fold_server_filter_frame (md_list b) cd) as (A & B & C & D & E').
  set (cd1 := fold_left server_filter (md_list b) cd) in *.
  assert (X : forall cd2, cd2 = match md_deadline b with Some d => set_deadline (Some d) cd1 | None => cd1 end ->
     state cd2 = state cd /\ got_initial_metadata cd2 = got_initial_metadata cd /\
     recv_state cd2 = recv_state cd /\ pending_next cd2 = pending_next cd /\ cd_channel cd2 = cd_channel cd).
  { intros cd2 ->. destruct (md_deadline b); simpl; auto. }
  specialize (X _ eq_refl).
  set (cd2 := match md_deadline b with Some d => set_deadline (Some d) cd1 | None => cd1 end) in *.
  destruct X as (X1 & X2 & X3 & X4 & X5).
  destruct (host cd2); [destruct (path cd2)|]; inversion H; subst; simpl;
    repeat split; try congruence.
Qed.

Lemma stream_closed_mono a b :
  stream_state_le a b = true -> recv_closed a = true -> recv_closed b = true.
Proof. destruct a, b; simpl; auto; discriminate. Qed.

Lemma stream_closed_top b :
  stream_state_le GRPC_STREAM_CLOSED b = true -> b = GRPC_STREAM_CLOSED.
Proof. destruct b; simpl; auto; discriminate. Qed.

Lemma matcher_ref_eqb_spec a b : reflect (a = b) (matcher_ref_eqb a b).
Proof.
  destruct a as [x|], b as [y|]; simpl; try (constructor; congruence).
  destruct (Nat.eqb_spec x y); constructor; congruence.
Qed.

Ltac case_eqb :=
  repeat match goal with
  | H : context [Nat.eqb ?a ?b] |- _ => destruct (Nat.eqb_spec a b); [subst|]
  | |- context [Nat.eqb ?a ?b] => destruct (Nat.eqb_spec a b); [subst|]
  | H : context [matcher_ref_eqb ?a ?b] |- _ => destruct (matcher_ref_eqb_spec a b); [subst|]
  | |- context [matcher_ref_eqb ?a ?b] => destruct (matcher_ref_eqb_spec a b); [subst|]
  end.

Ltac norm_bool :=
  repeat match goal with
  | H : _ && _ = true |- _ => apply andb_true_iff in H; destruct H
  | H : _ || _ = false |- _ => apply orb_false_iff in H; destruct H
  | H : negb _ = false |- _ => apply negb_false_iff in H
  | H : negb _ = true |- _ => apply negb_true_iff in H
  | H : (_ <? _) = true |- _ => apply Nat.ltb_lt in H
  end.



Lemma existsb_eqb_In c l : existsb (Nat.eqb c) l = true -> In c l.
Proof.
  intros H. apply existsb_exists in H. destruct H as (x & Hx & E).
  apply Nat.eqb_eq in E. subst. exact Hx.
Qed.

Lemma existsb_fst_In c (l : list (call_id * Z)) :
  existsb (fun p => Nat.eqb c (fst p)) l = true -> In c (map fst l).
Proof.
  intros H. apply existsb_exists in H. destruct H as (x & Hx & E).
  apply Nat.eqb_eq in E. subst. apply in_map. exact Hx.
Qed.

Ltac add_fact pf :=
  let T := type of pf in
  lazymatch goal with
  | _ : T |- _ => fail
  | _ => pose proof pf
  end.

Ltac saturate I1 I2 I3 I4 I5 I6 I7 :=
  repeat match goal with
  | H : pending_head (matchers (server _) ?rm) = Some ?c |- _ => add_fact (I2 rm c H)
  | H : pending_next (calls _ ?c') = Some ?c |- _ => add_fact (I3 c' c H)
  | H : In ?c (kill_scheduled _) |- _ => add_fact (I5 c (or_introl H))
  | H : In ?c (map fst (begun _)) |- _ => add_fact (I5 c (or_intror H))
  | H : got_initial_metadata (calls _ ?c) = false |- _ => add_fact (I6 c H)
  | H : state (calls _ ?c) = ZOMBIED |- _ => add_fact (I7 c H)
  | H : thread_call (threads _ ?t) = Some ?c |- _ => add_fact (I4 t c H)
  | H : in_finish_start_new_rpc (on_recv _ ?c) = true |- _ => add_fact (I1 c H)
  | H : existsb _ _ || existsb _ _ = true |- _ => apply orb_true_iff in H; destruct H
  | H : existsb (Nat.eqb ?c) ?l = true |- _ => apply existsb_eqb_In in H
  | H : existsb (fun p => Nat.eqb ?c (fst p)) ?l = true |- _ => apply existsb_fst_In in H
  | H : state (calls ?w ?c) = PENDING |- _ =>
      lazymatch goal with
      | _ : got_initial_metadata (calls w c) = _ |- _ => fail
      | _ => destruct (got_initial_metadata (calls w c)) eqn:?
      end
  end.


Ltac break_hyps :=
  repeat match goal with
  | H : _ /\ _ |- _ => destruct H
  | H : _ \/ _ |- _ => destruct H
  | H : False |- _ => destruct H
  | H : Some _ = Some _ |- _ => inversion H; subst; clear H
  | H : ?x = ?y |- _ => is_var x; subst x
  | H : ?x = ?y |- _ => is_var y; subst y
  end.

Ltac rewrite_fields :=
  repeat match goal with
  | H : ?f ?x = ?f (calls ?w ?c) |- _ => is_var x; rewrite H in *; clear H
  end.

Ltac finish :=
  repeat match goal with
  | H : negb (recv_closed ?a) || _ = true, H' : recv_closed ?a = true |- _ =>
      rewrite H' in H; simpl in H
  | H : match first_metadata ?ops with _ => _ end = true |- _ =>
      destruct (first_metadata ops); [discriminate H|]
  end;
  repeat match goal with
  | H : stream_state_le ?a ?b = true, H' : recv_closed ?a = true |- _ =>
      add_fact (stream_closed_mono a b H H')
  | H : stream_state_le ?a ?b = true, H' : ?a = GRPC_STREAM_CLOSED |- _ =>
      rewrite H' in H; apply stream_closed_top in H
  end;
  repeat match goal with
  | H : recv_state (calls ?w ?c) = ?v |- _ =>
      match v with
      | GRPC_STREAM_OPEN => idtac | GRPC_STREAM_SEND_CLOSED => idtac
      | GRPC_STREAM_RECV_CLOSED => idtac | GRPC_STREAM_CLOSED => idtac
      end;
      rewrite H in *
  end;
  repeat match goal with
  | H : state (calls ?w ?c) = ?v |- _ =>
      match v with NOT_STARTED => idtac | PENDING => idtac | ACTIVATED => idtac | ZOMBIED => idtac end;
      rewrite H in *
  end;
  simpl in *;
  try solve [intuition (try congruence; try lia)].

Lemma call_inv_step l w w' : call_inv w -> step l w = Some w' -> call_inv w'.
Proof.
  intros I H. unfold_step H.
  all: destruct I as [I1 I2 I3 I4 I5 I6 I7 I9 I10 I8].
  all: norm_bool.
  all: repeat match goal with
       | H : recv_metadata _ _ _ = (_, _) |- _ => apply recv_metadata_spec in H; simpl in H;
            destruct H as (? & ? & ? & ? & ?)
       | H : transport_contract _ _ _ = true |- _ => unfold transport_contract in H
       end.
  all: norm_bool.
  all: constructor; simpl.
  all: try assumption.
  all: try match goal with
       | Ht : threads ?w ?t = _ |- _ =>
           let B := fresh "B" in
           pose proof (I4 t) as B; rewrite Ht in B; simpl in B;
           try (specialize (B _ eq_refl))
       end.
  all: try match goal with
       | Ht : threads ?w ?t = T_kill_pending_work _ _ (W_zadd _) |- _ =>
           let B := fresh "B" in
           pose proof (I9 _ _ _ _ Ht) as B; destruct B
       end.
  all: try match goal with
       | Ht : on_recv ?w ?c = _ |- _ =>
           let B := fresh "B" in
           pose proof (I1 c) as B; rewrite Ht in B; simpl in B;
           try (specialize (B eq_refl))
       end.
  all: unfold linked, matcher, may_destroy, adding_kill in *; simpl; norm_bool.
  all: intros; unfold upd_nat, upd_matcher in *; simpl in *; case_eqb; simpl in *.
  all: try discriminate.
  all: rewrite ?map_app, ?in_app_iff in *; simpl in *.
  all: try solve [eauto].
  all: try solve [apply I10; lia].
  all: break_hyps; rewrite_fields.
  all: saturate I1 I2 I3 I4 I5 I6 I7.
  all: break_hyps.
  all: repeat match goal with
       | H : threads ?w ?t = T_kill_pending_work ?l ?ms (W_zadd ?c) |- _ =>
           first [ add_fact (proj1 (I9 t l ms c H))
                 | add_fact (proj2 (I9 t l ms c H))
                 | lazymatch goal with
                   | _ : thread_call (threads w t) = Some c |- _ => fail
                   | _ => assert (thread_call (threads w t) = Some c)
                            by (rewrite H; reflexivity)
                   end ]
       | H : thread_call (threads _ ?t) = Some ?c |- _ => add_fact (I4 t c H)
       | H : exists _, _ |- _ => destruct H
       end.
  all: break_hyps.
  all: finish.
  all: try solve [right; right; do 3 eexists; rewrite Nat.eqb_refl; reflexivity].
  all: try solve [match goal with
       | H0 : threads ?w ?x = T_kill_pending_work ?a ?b (W_zadd ?c) |- _ =>
           first [ right; right; exists x, a, b; exact H0
                 | match goal with
                   | |- context [if _ =? ?v then _ else _] =>
                       destruct (Nat.eqb_spec x v) as [E|E];
                       [ subst;
                         first [ congruence
                               | rewrite I10 in H0 by lia; discriminate H0
                               | match goal with
                                 | Ht : threads _ v = _ |- _ =>
                                     rewrite Ht in H0; inversion H0; subst; auto
                                 end ]
                       | right; right; exists x, a, b;
                         destruct (Nat.eqb_spec x v); [contradiction | exact H0] ]
                   end ]
       end].
  all: match goal with
       | Ht : threads ?w ?t = T_kill_pending_work _ _ (W_zadd ?calld),
         H5 : threads ?w ?x = T_kill_pending_work ?a ?b (W_zadd ?c) |- _ =>
           destruct (Nat.eq_dec x t) as [E|E];
           [ rewrite E in H5; rewrite Ht in H5; inversion H5; left; right; left; reflexivity
           | right; right; exists x, a, b;
             destruct (Nat.eqb_spec x t); [contradiction | exact H5] ]
       end.
Qed.

Lemma call_inv_init : call_inv init_world.
Proof.
  constructor; simpl; unfold linked; simpl; intros;
    try discriminate; try tauto; auto.
Qed.

Lemma call_inv_reachable w : reachable w -> call_inv w.
Proof.
  induction 1 as [|w l w' R IH H]; [exact call_inv_init|].
  exact (call_inv_step l IH H).
Qed.

Lemma may_destroy_sched w c :
  may_destroy w c = true ->
  In c (kill_scheduled w) \/ In c (map fst (begun w)).
Proof.
  unfold may_destroy. intros H. apply andb_true_iff in H. destruct H as [H _].
  apply orb_true_iff in H. destruct H as [H|H].
  - left. exact (existsb_eqb_In _ _ H).
  - right. exact (existsb_fst_In _ _ H).
Qed.

(** The assertion of [destroy_call_elem].  Whenever [destroy_call_elem] can
    run for a call, the state of the call is not [PENDING]: the assertion
    at its top never fails in a reachable execution. *)
Theorem destroy_call_elem_never_pending w :
  reachable w ->
  (forall c, may_destroy w c = true -> state (calls w c) <> PENDING) /\
  aborted w <> Some assert_destroy_call_elem.
Proof.
  intros R. pose proof (call_inv_reachable R) as I. split.
  - intros c H E. destruct (ci_sched I c (may_destroy_sched w c H)) as [_ T].
    rewrite E in T. discriminate T.
  - exact (ci_abort I).
Qed.

Lemma destroy_call_elem_never_pending_witness :
  reachable (from_run (trace_lost_ticket ++ [L_destroy_call 0])) /\
  may_destroy (from_run trace_lost_ticket) 0 = true /\
  state (calls (from_run trace_lost_ticket) 0) <> PENDING /\
  aborted (from_run (trace_lost_ticket ++ [L_destroy_call 0])) <>
    Some assert_destroy_call_elem.
Proof.
  split; [exact (reachable_from_run _)|].
  assert (M : may_destroy (from_run trace_lost_ticket) 0 = true)
    by (vm_compute; reflexivity).
  split; [exact M|]. split.
  - exact (proj1 (destroy_call_elem_never_pending
                    (reachable_from_run trace_lost_ticket)) 0 M).
  - exact (proj2 (destroy_call_elem_never_pending
                    (reachable_from_run (trace_lost_ticket ++ [L_destroy_call 0])))).
Defined.

(** C10 fails on the code.  The assertion holds, but a call is destroyed
    while it is linked in a pending queue.  The zombify pass of
    [maybe_finish_shutdown], which runs without [mu_call], reads
    [pending_head] (call 0); the pairing drain detaches calls 0 and 1 under
    [mu_call] and hands them to the application; the pass then writes
    [pending_head] with the successor that call 0 had, call 1.  The
    application, which has the completion of its ticket, destroys call 1:
    [destroy_call_elem] runs, its assertion holds since the call is
    [ACTIVATED], and [pending_head] still points at the call.  The pass then writes [ZOMBIED] into the destroyed call and
    schedules a kill closure for it. *)
Theorem destroy_call_elem_on_linked_call :
  reachable (from_run trace_destroyed_while_linked) /\
  threads (from_run trace_two_pending_in_shutdown) 2 =
    T_kill_pending_work false [None] (W_zdetach 0) /\
  mu_call (server (from_run trace_two_pending_in_shutdown)) = None /\
  may_destroy (from_run (removelast trace_destroyed_while_linked)) 1 = true /\
  state (calls (from_run (removelast trace_destroyed_while_linked)) 1) = ACTIVATED /\
  completions (from_run (removelast trace_destroyed_while_linked)) =
    [{| comp_cq := Some 0; comp_tag := 7%Z; comp_success := true;
        comp_done := done_request_event (Slot 32767) |}] /\
  destroyed (from_run trace_destroyed_while_linked) = [1] /\
  aborted (from_run trace_destroyed_while_linked) = None /\
  pending_head (matcher (from_run trace_destroyed_while_linked) None) = Some 1 /\
  fifo (from_run trace_destroyed_while_linked)
       (pending_head (matcher (from_run trace_destroyed_while_linked) None)) [1] /\
  state (calls (from_run trace_walk_over_destroyed) 1) = ZOMBIED /\
  kill_scheduled (from_run trace_walk_over_destroyed) = [0; 1].
Proof.
  split; [exact (reachable_from_run _)|].
  repeat (split; [vm_compute; reflexivity|]).
  split.
  - replace (pending_head (matcher (from_run trace_destroyed_while_linked) None))
      with (Some 1) by (vm_compute; reflexivity).
    constructor.
    replace (pending_next (calls (from_run trace_destroyed_while_linked) 1))
      with (@None call_id) by (vm_compute; reflexivity).
    constructor.
  - split; vm_compute; reflexivity.
Qed.

(** ** The kill closure of a zombied call *)





(** A call can be [ZOMBIED] with its stream open and no kill closure
    scheduled: the shutdown walk has written the state of call 0 and
    released [mu_state], and has not yet added the closure. *)
Lemma zombied_before_kill_closure_added :
  threads (from_run trace_unlocked_write) 1 =
    T_kill_pending_work false [None] (W_zadd 0) /\
  state (calls (from_run trace_unlocked_write) 0) = ZOMBIED /\
  recv_state (calls (from_run trace_unlocked_write) 0) = GRPC_STREAM_OPEN /\
  kill_scheduled (from_run trace_unlocked_write) = [] /\
  kill_scheduled (from_run (trace_unlocked_write ++ [L_thread_step 1])) = [0].
Proof. repeat split; vm_compute; reflexivity. Qed.



(** ** Tickets *)

Lemma In_remove_first {A} (eqb : A -> A -> bool) x y l :
  In y (remove_first eqb x l) -> In y l.
Proof.
  induction l as [|a l IH]; simpl; auto.
  destruct (eqb x a); simpl; intuition.
Qed.

Lemma existsb_ioreq_In c id l : existsb (ioreq_eqb (c, id)) l = true -> In (c, id) l.
Proof.
  intros H. apply existsb_exists in H. destruct H as ([c' id'] & Hx & E).
  unfold ioreq_eqb in E. simpl in E. apply andb_true_iff in E. destruct E as [E1 E2].
  apply Nat.eqb_eq in E1. apply Z.eqb_eq in E2. subst. exact Hx.
Qed.

Lemma lost_step id l w w' : lost id w -> step l w = Some w' -> lost id w'.
Proof.
  intros I H. unfold_step H.
  all: destruct I as [I1 I2 I3 I4 I5].
  all: try match goal with
       | Ht : threads ?w ?t = _ |- _ =>
           let B := fresh "B" in
           pose proof (I3 t) as B; rewrite Ht in B; simpl in B
       end.
  all: repeat match goal with
       | H : match ?l with [] => _ | _ :: _ => _ end = (_, _) |- _ =>
           destruct l eqn:?; inversion H; subst; clear H
       | H : existsb (ioreq_eqb _) _ = true |- _ => apply existsb_ioreq_In in H
       | H : nth_error _ _ = Some _ |- _ => apply nth_error_In in H
       end.
  all: unfold matcher in *.
  all: try match goal with
       | H : requests (matchers (server ?w) ?rm) = _ |- _ =>
           let B := fresh "B" in pose proof (I2 rm) as B; rewrite H in B; simpl in B
       end.
  all: try match goal with
       | H : request_freelist (server ?w) = _ |- _ =>
           let B := fresh "B" in pose proof I1 as B; rewrite H in B; simpl in B
       end.
  all: constructor; unfold matcher; simpl.
  all: try assumption.
  all: unfold not in *; intros; unfold upd_nat, upd_matcher in *; simpl in *; case_eqb; simpl in *.
  all: rewrite ?in_app_iff in *; simpl in *.
  all: try match goal with
       | H : request_freelist (server ?w) = _ |- _ => rewrite H in *
       end.
  all: break_hyps; simpl in *.
  all: repeat match goal with
       | H : In _ (map shutdown_completion _) |- _ =>
           apply in_map_iff in H; destruct H as (? & ? & ?); subst; simpl in *
       | H : In _ (remove_first _ _ _) |- _ => apply In_remove_first in H
       | H : done_request_event _ = done_request_event _ |- _ => inversion H; subst; clear H
       | H : Some _ = Some _ |- _ => inversion H; subst; clear H
       | H : (_, _) = (_, _) |- _ => inversion H; subst; clear H
       end.
  all: try discriminate.
  all: eauto.
Qed.

Lemma not_In_forallb id l :
  forallb (fun x => negb (Z.eqb x id)) l = true -> ~ In id l.
Proof.
  intros H E. rewrite forallb_forall in H. specialize (H id E).
  rewrite Z.eqb_refl in H. discriminate H.
Qed.

Lemma lost_after_trace : lost 32767 (from_run trace_lost_ticket).
Proof.
  constructor.
  - apply not_In_forallb. vm_compute. reflexivity.
  - intros rm. 
    assert (E : requests (matcher (from_run trace_lost_ticket) rm) = []).
    { vm_compute. destruct rm; reflexivity. }
    rewrite E. simpl. tauto.
  - intros t.
    assert (E : thread_request (threads (from_run trace_lost_ticket) t) = None).
    { vm_compute. destruct t; reflexivity. }
    rewrite E. discriminate.
  - intros c. assert (E : started_ioreqs (from_run trace_lost_ticket) = []) by (vm_compute; reflexivity).
    rewrite E. simpl. tauto.
  - intros cmp. assert (E : completions (from_run trace_lost_ticket) = []) by (vm_compute; reflexivity).
    rewrite E. simpl. tauto.
Qed.

Lemma lost_run id ls : forall w w', lost id w -> run ls w = Some w' -> lost id w'.
Proof.
  induction ls as [|l ls IH]; simpl; intros w w' L H.
  - inversion H; subst; exact L.
  - destruct (step l w) as [w1|] eqn:E; [|discriminate].
    exact (IH w1 w' (lost_step l L E) H).
Qed.

(** C1 fails on the code.  The ticket with tag 7 is submitted through
    [grpc_server_request_call] on a server completion queue and
    [queue_call_request] returns [GRPC_CALL_OK]; the ticket is stored in
    slot 32767.  The pairing drain pops it for a pending call that it then
    finds [ZOMBIED], and drops it: no completion has been posted, and in no
    continuation of the execution is a completion ever posted for that
    slot. *)
Theorem queue_call_request_loses_ticket :
  grpc_cq_is_server_cq (server (from_run trace_closed_while_pending)) 0 = true /\
  threads (from_run trace_lost_ticket) 0 = T_done (Some GRPC_CALL_OK) /\
  tag (requested_calls (server (from_run trace_lost_ticket)) 32767) = 7%Z /\
  completions (from_run trace_lost_ticket) = [] /\
  (forall ls w',
      run ls (from_run trace_lost_ticket) = Some w' ->
      forall cmp, In cmp (completions w') ->
                  comp_done cmp <> done_request_event (Slot 32767)).
Proof.
  split; [vm_compute; reflexivity|].
  split; [vm_compute; reflexivity|].
  split; [vm_compute; reflexivity|].
  split; [vm_compute; reflexivity|].
  intros ls w' H.
  exact (lost_completions (lost_run ls lost_after_trace H)).
Qed.

(** C3 fails on the code.  [finish_start_new_rpc] pops the ticket stack
    before it takes [mu_call]; a ticket pushed in between finds the pending
    queue empty, and the call is then appended: the execution ends, with no
    thread in flight, in a state where the pending queue and the ticket
    stack of the matcher are both non-empty. *)
Theorem finish_start_new_rpc_lost_wakeup :
  pending_head (matcher (from_run trace_lost_wakeup) None) = Some 0 /\
  requests (matcher (from_run trace_lost_wakeup) None) = [32767%Z] /\
  state (calls (from_run trace_lost_wakeup) 0) = PENDING /\
  threads (from_run trace_lost_wakeup) 0 = T_done (Some GRPC_CALL_OK) /\
  on_recv (from_run trace_lost_wakeup) 0 = R_idle /\
  reachable (from_run trace_lost_wakeup).
Proof.
  repeat split; try (vm_compute; reflexivity).
  exact (reachable_from_run _).
Qed.

(** C2 fails on the code.  [maybe_finish_shutdown] runs
    [kill_pending_work_locked] without [mu_call].  Its zombify pass reads
    [pending_head]; the pairing drain then detaches the same call under
    [mu_call], makes it [ACTIVATED] and hands it to the application; the
    pass then writes [ZOMBIED] into the call and schedules its kill
    closure: a terminal state is changed. *)
Theorem maybe_finish_shutdown_zombifies_activated :
  state (calls (from_run trace_activated_during_shutdown) 0) = ACTIVATED /\
  call_out (from_run trace_activated_during_shutdown) 100%Z = Some 0 /\
  threads (from_run trace_activated_during_shutdown) 1 =
    T_kill_pending_work false [None] (W_zdetach 0) /\
  mu_call (server (from_run trace_activated_during_shutdown)) = None /\
  state (calls (from_run trace_unlocked_zombify) 0) = ZOMBIED /\
  kill_scheduled (from_run trace_unlocked_zombify) = [0] /\
  legal_transition ACTIVATED ZOMBIED = false /\
  reachable (from_run trace_unlocked_zombify).
Proof.
  repeat split; try (vm_compute; reflexivity).
  exact (reachable_from_run _).
Qed.

Unset Implicit Arguments.

(** ** Failing a ticket *)

Lemma fail_call_effects rc r w :
  server (fail_call rc r w) = server w /\
  threads (fail_call rc r w) = threads w /\
  call_out (fail_call rc r w) (call rc) = None /\
  md_count (fail_call rc r w) (rc_initial_metadata rc) = 0%Z /\
  completions (fail_call rc r w) = completions w ++ [failed_completion rc r].
Proof.
  unfold fail_call, grpc_cq_end_op, failed_completion; simpl.
  unfold upd_Z. rewrite !Z.eqb_refl. repeat split; reflexivity.
Qed.

(** C6.  When [queue_call_request] finds [shutdown_flag] set, or when its
    pop of [request_freelist] returns -1, it returns [GRPC_CALL_OK] after
    [fail_call]: the server, and with it every matcher, is left as it was,
    [*rc->call] is cleared, the count of the ticket's initial metadata is
    zero, and one completion with success 0 has been posted for the ticket's
    tag on its notification completion queue. *)
Theorem queue_call_request_fails_ticket t rc w :
  (threads w t = T_queue_call_request rc /\ shutdown_flag (server w) = true) \/
  (threads w t = T_queue_freelist rc /\
   fst (gpr_stack_lockfree_pop (request_freelist (server w))) = (-1)%Z) ->
  exists w',
    thread_step t w = Some w' /\
    threads w' t = T_done (Some GRPC_CALL_OK) /\
    server w' = server w /\
    call_out w' (call rc) = None /\
    md_count w' (rc_initial_metadata rc) = 0%Z /\
    completions w' = completions w ++ [failed_completion rc (Heap t)].
Proof.
  intros [[T F]|[T P]]; unfold thread_step; rewrite T; simpl.
  - rewrite F. eexists; split; [reflexivity|].
    destruct (fail_call_effects rc (Heap t) w) as (A & B & C & D & E).
    unfold finish, set_thread; simpl. unfold upd_nat. rewrite Nat.eqb_refl.
    repeat split; assumption.
  - destruct (gpr_stack_lockfree_pop (request_freelist (server w))) as [id fl].
    simpl in P. subst id. simpl.
    eexists; split; [reflexivity|].
    destruct (fail_call_effects rc (Heap t) w) as (A & B & C & D & E).
    unfold finish, set_thread; simpl. unfold upd_nat. rewrite Nat.eqb_refl.
    repeat split; assumption.
Qed.

Lemma queue_call_request_fails_ticket_witness :
  exists w',
    thread_step 3 (from_run trace_request_after_shutdown) = Some w' /\
    threads w' 3 = T_done (Some GRPC_CALL_OK) /\
    server w' = server (from_run trace_request_after_shutdown) /\
    call_out w' 100%Z = None /\
    md_count w' 300%Z = 0%Z /\
    completions w' =
      completions (from_run trace_request_after_shutdown) ++
      [{| comp_cq := Some 0; comp_tag := 7%Z; comp_success := false;
          comp_done := done_request_event (Heap 3) |}].
Proof.
  apply (@queue_call_request_fails_ticket 3
           {| data := batch 200%Z 300%Z; tag := 7%Z; cq_bound_to_call := 0;
              cq_for_notification := 0; call := 100%Z |}
           (from_run trace_request_after_shutdown)).
  left. split; vm_compute; reflexivity.
Defined.

(** ** Registering a method *)

Lemma same_registration_iff method host m :
  same_registration method host m = true <->
  rm_method m = method /\ rm_host m = host.
Proof.
  unfold same_registration, streq. rewrite andb_true_iff, String.eqb_eq.
  destruct (rm_host m) as [a|], host as [b|]; try rewrite String.eqb_eq;
    intuition (try congruence).
Qed.

Lemma existsb_same_registration server method host :
  existsb (same_registration method host) (registered_methods server) = true <->
  already_registered server method host.
Proof.
  rewrite existsb_exists. unfold already_registered.
  split; intros (m & Hin & H); exists m; split; auto; apply same_registration_iff; auto.
Qed.

(** C9, as stated, fails: on a new server the empty method string is
    registered and a handle is returned. *)
Lemma register_method_accepts_empty_method :
  ~ register_method_spec grpc_server_create (Some ""%string) None.
Proof.
  unfold register_method_spec. intros [_ H].
  assert (E : fst (grpc_server_register_method grpc_server_create (Some ""%string) None) = Some 0)
    by reflexivity.
  rewrite E in H. discriminate H. left. right. reflexivity.
Qed.

(** C9, amended.  [grpc_server_register_method] returns NULL exactly when
    the method string is NULL or a method with the same method string and
    the same host (a NULL host equal to a NULL host only) is registered
    already; it then logs one error and registers nothing.  Otherwise it
    returns the handle of a new record, put at the head of the server's list
    of registered methods, and logs nothing. *)
Theorem grpc_server_register_method_result server method host :
  let r := grpc_server_register_method server method host in
  (fst r = None <->
   (method = None \/ exists s, method = Some s /\ already_registered server s host)) /\
  (fst r = None ->
   registered_methods (snd r) = registered_methods server /\
   matchers (snd r) = matchers server /\
   exists msg, error_log (snd r) = error_log server ++ [msg]) /\
  (forall h, fst r = Some h ->
   exists s, method = Some s /\
     registered_methods (snd r) =
       {| rm_handle := h; rm_method := s; rm_host := host |} :: registered_methods server /\
     error_log (snd r) = error_log server).
Proof.
  unfold grpc_server_register_method.
  destruct method as [s|]; simpl.
  - destruct (existsb (same_registration s host) (registered_methods server)) eqn:E; simpl.
    + apply existsb_same_registration in E. split; [|split].
      * split; [intros _; right; exists s; auto | reflexivity].
      * intros _. repeat split. eexists; reflexivity.
      * intros h H; discriminate H.
    + split; [|split].
      * split; [discriminate|]. intros [H|(s' & H & R)]; [discriminate|].
        inversion H; subst s'. apply existsb_same_registration in R. congruence.
      * discriminate.
      * intros h H. inversion H; subst h. exists s. repeat split.
  - split; [|split].
    + split; auto.
    + intros _. repeat split. eexists; reflexivity.
    + intros h H; discriminate H.
Qed.

(** ** The pairing drain *)

Lemma fifo_ext w w' h L :
  (forall c, pending_next (calls w' c) = pending_next (calls w c)) ->
  fifo w h L -> fifo w' h L.
Proof.
  intros E F. induction F as [|c l F IH]; constructor.
  rewrite E. exact IH.
Qed.

Lemma push_step t rc request_id w w' :
  threads w t = T_queue_push rc request_id ->
  thread_step t w = Some w' ->
  requests (matcher w' (rc_matcher rc)) =
    request_id :: requests (matcher w (rc_matcher rc)) /\
  (threads w' t = T_drain (rc_matcher rc) <->
   requests (matcher w (rc_matcher rc)) = []) /\
  (requests (matcher w (rc_matcher rc)) <> [] ->
   threads w' t = T_done (Some GRPC_CALL_OK)).
Proof.
  intros T H. unfold thread_step in H. rewrite T in H. simpl in H.
  unfold matcher, set_matcher, upd_server, finish, set_thread in *. simpl in *.
  destruct (requests (matchers (server w) (rc_matcher rc))) eqn:E;
    inversion H; subst; clear H; simpl; unfold upd_matcher, upd_nat;
    rewrite ?Nat.eqb_refl;
    destruct (matcher_ref_eqb_spec (rc_matcher rc) (rc_matcher rc)); try congruence;
    simpl; repeat split; try congruence; auto; try discriminate.
Qed.

Lemma upd_matcher_same f k v : upd_matcher f k v k = v.
Proof.
  unfold upd_matcher. destruct (matcher_ref_eqb_spec k k); congruence.
Qed.

Lemma drain_stop t rm w :
  threads w t = T_drain rm ->
  mu_call (server w) = None ->
  pending_head (matcher w rm) = None \/ requests (matcher w rm) = [] ->
  thread_step t w = Some (finish t (Some GRPC_CALL_OK) w).
Proof.
  intros T M H. unfold thread_step. rewrite T. simpl. rewrite M. simpl.
  destruct (pending_head (matcher w rm)); [|reflexivity].
  destruct H as [H|H]; [discriminate|]. rewrite H. reflexivity.
Qed.

Lemma drain_call_step t rm c id w :
  threads w t = T_drain_call rm c id ->
  pending_or_zombied w c ->
  exists w2,
    thread_step t w = Some w2 /\
    threads w2 t = T_drain rm /\
    server w2 = server w /\
    (forall x, pending_next (calls w2 x) = pending_next (calls w x)) /\
    (forall x, x <> c -> state (calls w2 x) = state (calls w x)).
Proof.
  intros T St. unfold thread_step. rewrite T. simpl.
  destruct St as [St|St]; rewrite St; eexists; (split; [reflexivity|]);
    simpl; unfold upd_nat; rewrite Nat.eqb_refl; repeat split; auto.
  - intros x. destruct (Nat.eqb_spec x c); subst; [|reflexivity].
    rewrite Nat.eqb_refl. reflexivity.
  - intros x Hx. destruct (Nat.eqb_spec x c); [contradiction|reflexivity].
Qed.

Lemma drain_detach_step t rm c id R' w :
  threads w t = T_drain rm ->
  mu_call (server w) = None ->
  pending_head (matcher w rm) = Some c ->
  requests (matcher w rm) = id :: R' ->
  id <> (-1)%Z ->
  exists w1,
    thread_step t w = Some w1 /\
    threads w1 t = T_drain_call rm c id /\
    mu_call (server w1) = None /\
    pending_head (matcher w1 rm) = pending_next (calls w c) /\
    requests (matcher w1 rm) = R' /\
    calls w1 = calls w.
Proof.
  intros T M H R N.
  assert (N' : (id =? -1)%Z = false) by (apply Z.eqb_neq; exact N).
  eexists. split.
  { unfold thread_step. rewrite T. simpl. rewrite M. simpl. rewrite H, R. simpl.
    rewrite N'. reflexivity. }
  simpl. unfold upd_nat, matcher. simpl. rewrite Nat.eqb_refl.
  rewrite !upd_matcher_same. simpl.
  repeat split; auto.
Qed.

Lemma drain_iteration t rm c id R' w :
  threads w t = T_drain rm ->
  mu_call (server w) = None ->
  pending_head (matcher w rm) = Some c ->
  requests (matcher w rm) = id :: R' ->
  id <> (-1)%Z ->
  pending_or_zombied w c ->
  exists w1 w2,
    thread_step t w = Some w1 /\
    threads w1 t = T_drain_call rm c id /\
    thread_step t w1 = Some w2 /\
    threads w2 t = T_drain rm /\
    mu_call (server w2) = None /\
    pending_head (matcher w2 rm) = pending_next (calls w c) /\
    requests (matcher w2 rm) = R' /\
    (forall x, pending_next (calls w2 x) = pending_next (calls w x)) /\
    (forall x, x <> c -> state (calls w2 x) = state (calls w x)).
Proof.
  intros T M H R N St.
  destruct (drain_detach_step t rm c id R' w T M H R N)
    as (w1 & S1 & T1 & M1 & H1 & R1 & C1).
  assert (St1 : pending_or_zombied w1 c).
  { unfold pending_or_zombied. rewrite C1. exact St. }
  destruct (drain_call_step t rm c id w1 T1 St1) as (w2 & S2 & T2 & E2 & PN & ST).
  exists w1, w2. unfold matcher in *. rewrite E2.
  repeat split; auto.
  - intros x. rewrite PN, C1. reflexivity.
  - intros x Hx. rewrite (ST x Hx), C1. reflexivity.
Qed.

Lemma drain_run t rm L : forall w R,
  threads w t = T_drain rm ->
  mu_call (server w) = None ->
  fifo w (pending_head (matcher w rm)) L ->
  NoDup L ->
  (forall c, In c L -> pending_or_zombied w c) ->
  requests (matcher w rm) = R ->
  ~ In (-1)%Z R ->
  let n := Nat.min (List.length L) (List.length R) in
  drain_log (2 * n + 1) t w = combine L R /\
  threads (run_thread (2 * n + 1) t w) t = T_done (Some GRPC_CALL_OK) /\
  fifo (run_thread (2 * n + 1) t w)
       (pending_head (matcher (run_thread (2 * n + 1) t w) rm)) (skipn n L) /\
  requests (matcher (run_thread (2 * n + 1) t w) rm) = skipn n R.
Proof.
  assert (Stop : forall w L0 R,
    threads w t = T_drain rm -> mu_call (server w) = None ->
    fifo w (pending_head (matcher w rm)) L0 -> requests (matcher w rm) = R ->
    pending_head (matcher w rm) = None \/ requests (matcher w rm) = [] ->
    drain_log 1 t w = [] /\
    threads (run_thread 1 t w) t = T_done (Some GRPC_CALL_OK) /\
    fifo (run_thread 1 t w) (pending_head (matcher (run_thread 1 t w) rm)) L0 /\
    requests (matcher (run_thread 1 t w) rm) = R).
  { intros w L0 R T M F HR H. simpl. rewrite (drain_stop t rm w T M H).
    unfold finish; simpl. unfold upd_nat. rewrite Nat.eqb_refl.
    repeat split; auto.
    apply (fifo_ext w); [reflexivity | exact F]. }
  induction L as [|c L IH]; intros w R T M F ND St HR NR n.
  - subst n. simpl Nat.min. change (2 * 0 + 1) with 1.
    inversion F as [E|]; subst.
    destruct (Stop w [] (requests (matcher w rm)) T M F eq_refl (or_introl (eq_sym E)))
      as (A & B & C & D).
    repeat split; auto.
  - inversion F as [|c' l' F' E]; subst c' l'.
    destruct R as [|id R'].
    + subst n. simpl Nat.min. change (2 * 0 + 1) with 1.
      destruct (Stop w (c :: L) [] T M F HR (or_intror HR)) as (A & B & C & D).
      repeat split; auto.
    + subst n. simpl List.length. simpl Nat.min.
      set (n := Nat.min (List.length L) (List.length R')).
      replace (2 * S n + 1) with (S (S (2 * n + 1))) by lia.
      assert (Nid : id <> (-1)%Z) by (intros ->; apply NR; left; reflexivity).
      destruct (drain_iteration t rm c id R' w T M (eq_sym E) HR Nid
                  (St c (or_introl eq_refl)))
        as (w1 & w2 & S1 & T1 & S2 & T2 & M2 & H2 & R2 & PN & ST).
      apply NoDup_cons_iff in ND. destruct ND as [Nc ND'].
      assert (F2 : fifo w2 (pending_head (matcher w2 rm)) L).
      { rewrite H2. apply (fifo_ext w w2); assumption. }
      assert (St2 : forall x, In x L -> pending_or_zombied w2 x).
      { intros x Hx. unfold pending_or_zombied. rewrite ST.
        - apply St. right. exact Hx.
        - intros ->. contradiction. }
      assert (NR2 : ~ In (-1)%Z R') by (intros X; apply NR; right; exact X).
      destruct (IH w2 R' T2 M2 F2 ND' St2 R2 NR2) as (A & B & C & D).
      fold n in A, B, C, D.
      cbn [drain_log run_thread]. rewrite S1, T1, S2, T2.
      repeat split; auto.
      simpl. f_equal. exact A.
Qed.

(** C4.  The push of a ticket's slot index enters the pairing drain exactly
    when the ticket stack of the matcher was empty before the push; otherwise
    [queue_call_request] returns at once.  A drain that runs on a pending
    queue [L] and a ticket stack [R] detaches the calls of [L] from the head,
    in order, one for each ticket popped from [R]; it returns as soon as the
    queue is empty or the pop finds the stack empty, and leaves the rest of
    the queue and of the stack in place. *)
Theorem pairing_drain_entry_and_order t rm L w R :
  threads w t = T_drain rm ->
  mu_call (server w) = None ->
  fifo w (pending_head (matcher w rm)) L ->
  NoDup L ->
  (forall c, In c L -> pending_or_zombied w c) ->
  requests (matcher w rm) = R ->
  ~ In (-1)%Z R ->
  let n := Nat.min (List.length L) (List.length R) in
  let w_end := run_thread (2 * n + 1) t w in
  (forall t0 rc request_id u u',
      threads u t0 = T_queue_push rc request_id ->
      thread_step t0 u = Some u' ->
      (threads u' t0 = T_drain (rc_matcher rc) <->
       requests (matcher u (rc_matcher rc)) = []) /\
      (requests (matcher u (rc_matcher rc)) <> [] ->
       threads u' t0 = T_done (Some GRPC_CALL_OK))) /\
  drain_log (2 * n + 1) t w = combine L R /\
  threads w_end t = T_done (Some GRPC_CALL_OK) /\
  fifo w_end (pending_head (matcher w_end rm)) (skipn n L) /\
  requests (matcher w_end rm) = skipn n R /\
  (skipn n L = [] \/ skipn n R = []).
Proof.
  intros T M F ND St HR NR n w_end.
  split.
  { intros t0 rc request_id u u' Tu Hu.
    destruct (push_step t0 rc request_id u u' Tu Hu) as (_ & A & B).
    split; assumption. }
  destruct (drain_run t rm L w R T M F ND St HR NR) as (A & B & C & D).
  repeat split; try assumption.
  subst n. destruct (Nat.min_spec (List.length L) (List.length R)) as [[_ E]|[_ E]];
    rewrite E; [left|right]; apply skipn_all.
Qed.

Lemma pairing_drain_entry_and_order_witness :
  drain_log 3 0 (from_run trace_two_pending) = [(0, 32767%Z)] /\
  fifo (run_thread 3 0 (from_run trace_two_pending))
       (pending_head (matcher (run_thread 3 0 (from_run trace_two_pending)) None)) [1] /\
  requests (matcher (run_thread 3 0 (from_run trace_two_pending)) None) = [].
Proof.
  assert (T : threads (from_run trace_two_pending) 0 = T_drain None)
    by (vm_compute; reflexivity).
  assert (M : mu_call (server (from_run trace_two_pending)) = None)
    by (vm_compute; reflexivity).
  assert (F : fifo (from_run trace_two_pending)
                   (pending_head (matcher (from_run trace_two_pending) None)) [0; 1]).
  { replace (pending_head (matcher (from_run trace_two_pending) None)) with (Some 0)
      by (vm_compute; reflexivity).
    constructor.
    replace (pending_next (calls (from_run trace_two_pending) 0)) with (Some 1)
      by (vm_compute; reflexivity).
    constructor.
    replace (pending_next (calls (from_run trace_two_pending) 1)) with (@None call_id)
      by (vm_compute; reflexivity).
    constructor. }
  assert (ND : NoDup [0; 1]).
  { constructor; [simpl; intros [E|[]]; discriminate E|].
    constructor; [simpl; tauto | constructor]. }
  assert (St : forall c, In c [0; 1] -> pending_or_zombied (from_run trace_two_pending) c).
  { intros c [<-|[<-|[]]]; left; vm_compute; reflexivity. }
  assert (HR : requests (matcher (from_run trace_two_pending) None) = [32767%Z])
    by (vm_compute; reflexivity).
  assert (NR : ~ In (-1)%Z [32767%Z]).
  { simpl. intros [E|[]]. discriminate E. }
  destruct (pairing_drain_entry_and_order 0 None [0; 1] (from_run trace_two_pending)
              [32767%Z] T M F ND St HR NR) as (_ & A & _ & C & D & _).
  split; [exact A|]. split; [exact C | exact D].
Defined.

(** ** Probing *)

Lemma probe_spec hit tbl slots hash n : forall i,
  match probe hit tbl slots hash n i with
  | (Some m, k) =>
      exists j, (i <= j < i + Z.of_nat n)%Z /\ k = (j + 1)%Z /\
                hit (slot_at tbl slots hash j) = Some m /\
                forall j', (i <= j' < j)%Z -> hit (slot_at tbl slots hash j') = None
  | (None, k) =>
      k = (i + Z.of_nat n)%Z /\
      forall j, (i <= j < i + Z.of_nat n)%Z -> hit (slot_at tbl slots hash j) = None
  end.
Proof.
  induction n as [|n IH]; intros i.
  - simpl. split; [lia|]. intros j Hj. lia.
  - cbn [probe]. fold (slot_at tbl slots hash i).
    destruct (hit (slot_at tbl slots hash i)) as [m|] eqn:E.
    + exists i. repeat split; try lia. exact E.
    + specialize (IH (i + 1)%Z).
      destruct (probe hit tbl slots hash n (i + 1)) as [[m|] k].
      * destruct IH as (j & Hj & Hk & Hh & Hb). exists j.
        repeat split; try lia; auto.
        intros j' Hj'. destruct (Z.eq_dec j' i); [subst; exact E|]. apply Hb. lia.
      * destruct IH as (Hk & Hb). split; [lia|].
        intros j Hj. destruct (Z.eq_dec j i); [subst; exact E|]. apply Hb. lia.
Qed.

Lemma probe_attempts hit tbl slots hash n i :
  (i < snd (probe hit tbl slots hash n i) <= i + Z.of_nat n)%Z \/
  (n = 0 /\ snd (probe hit tbl slots hash n i) = i).
Proof.
  pose proof (probe_spec hit tbl slots hash n i) as H.
  destruct (probe hit tbl slots hash n i) as [[m|] k]; simpl.
  - destruct H as (j & Hj & Hk & _). left. lia.
  - destruct H as (Hk & _). destruct n; [right; split; [reflexivity|lia] | left; lia].
Qed.

Lemma probe_covers hash slots f :
  (0 < slots <= 4294967296)%Z -> (0 <= f < slots)%Z ->
  exists p, (0 <= p < 2 * slots)%Z /\ (wrap32 (hash + p) mod slots = f)%Z.
Proof.
  intros HS Hf. unfold wrap32.
  set (H := (hash mod 4294967296)%Z).
  assert (HH : (0 <= H < 4294967296)%Z) by (apply Z.mod_pos_bound; lia).
  assert (E : forall p, ((hash + p) mod 4294967296 = (H + p) mod 4294967296)%Z).
  { intros p. unfold H. rewrite Zplus_mod_idemp_l. reflexivity. }
  destruct (Z_le_gt_dec (H + slots) 4294967296) as [C|C].
  - exists ((f - H) mod slots)%Z.
    assert (B : (0 <= (f - H) mod slots < slots)%Z) by (apply Z.mod_pos_bound; lia).
    split; [lia|]. rewrite E. rewrite (Z.mod_small (H + _)) by lia.
    rewrite Zplus_mod_idemp_r. replace (H + (f - H))%Z with f by lia.
    apply Z.mod_small. lia.
  - exists (4294967296 - H + f)%Z. split; [lia|]. rewrite E.
    replace (H + (4294967296 - H + f))%Z with (f + 1 * 4294967296)%Z by lia.
    rewrite Z_mod_plus_full. rewrite (Z.mod_small f 4294967296) by lia.
    apply Z.mod_small. lia.
Qed.

Lemma find_free_slot_spec tbl slots hash fuel : forall i p,
  find_free_slot fuel tbl slots hash i = Some p ->
  (i <= p < i + Z.of_nat fuel)%Z /\
  slot_at tbl slots hash p = None /\
  forall j, (i <= j < p)%Z -> slot_at tbl slots hash j <> None.
Proof.
  induction fuel as [|fuel IH]; intros i p H; [discriminate|].
  cbn [find_free_slot] in H. fold (slot_at tbl slots hash i) in H.
  destruct (slot_at tbl slots hash i) eqn:E.
  - apply IH in H. destruct H as (A & B & C). repeat split; try lia; auto.
    intros j Hj. destruct (Z.eq_dec j i); [subst; congruence|]. apply C. lia.
  - inversion H; subst. repeat split; try lia; auto; intros; lia.
Qed.

Lemma find_free_slot_total tbl slots hash fuel : forall i,
  (exists p, (i <= p < i + Z.of_nat fuel)%Z /\ slot_at tbl slots hash p = None) ->
  find_free_slot fuel tbl slots hash i <> None.
Proof.
  induction fuel as [|fuel IH]; intros i (p & Hp & E); [lia|].
  cbn [find_free_slot]. fold (slot_at tbl slots hash i).
  destruct (slot_at tbl slots hash i) eqn:E'; [|discriminate].
  apply IH. exists p. split; [|exact E].
  destruct (Z.eq_dec p i); [subst; congruence|]. lia.
Qed.

Lemma occupied_full (tbl : probe_table) :
  (forall idx, idx < List.length tbl -> nth idx tbl None <> None) ->
  occupied tbl = List.length tbl.
Proof.
  unfold occupied. induction tbl as [|s tbl IH]; intros H; [reflexivity|].
  simpl. destruct s as [e|].
  - simpl. f_equal. apply IH. intros idx Hi. apply (H (S idx)). simpl. lia.
  - exfalso. apply (H 0); simpl; [lia|reflexivity].
Qed.

Lemma occupied_le (tbl : probe_table) : occupied tbl <= List.length tbl.
Proof. unfold occupied. apply filter_length_le. Qed.

Lemma free_slot_exists (tbl : probe_table) :
  occupied tbl < List.length tbl ->
  exists idx, idx < List.length tbl /\ nth idx tbl None = None.
Proof.
  unfold occupied. induction tbl as [|s tbl IH]; simpl; intros H; [lia|].
  destruct s as [e|].
  - simpl in H. destruct IH as (idx & Hi & E); [lia|]. exists (S idx). split; [lia|exact E].
  - exists 0. split; [lia|reflexivity].
Qed.

Lemma length_list_set {A} (l : list A) n v : List.length (list_set l n v) = List.length l.
Proof. revert n; induction l as [|a l IH]; intros [|n]; simpl; auto. Qed.

Lemma nth_list_set_eq {A} (l : list A) n v d :
  n < List.length l -> nth n (list_set l n v) d = v.
Proof.
  revert n; induction l as [|a l IH]; intros [|n]; simpl; intros H; try lia; auto.
  apply IH. lia.
Qed.

Lemma nth_list_set_ne {A} (l : list A) n m v d :
  n <> m -> nth m (list_set l n v) d = nth m l d.
Proof.
  revert n m; induction l as [|a l IH]; intros [|n] [|m]; simpl; intros H; auto; try lia.
Qed.

Lemma occupied_list_set (tbl : probe_table) idx e :
  idx < List.length tbl -> nth idx tbl None = None ->
  occupied (list_set tbl idx (Some e)) = S (occupied tbl).
Proof.
  unfold occupied. revert idx; induction tbl as [|s tbl IH]; intros [|idx]; simpl;
    intros H E; try lia.
  - subst s. reflexivity.
  - destruct s; simpl; [f_equal|]; apply IH; auto; lia.
Qed.

Lemma probe_index_lt hash i slots :
  (0 < slots)%Z -> probe_index hash i slots < Z.to_nat slots.
Proof.
  intros H. unfold probe_index.
  pose proof (Z.mod_pos_bound (wrap32 (hash + i)) slots H). lia.
Qed.

Lemma table_insert_ok md slots done rm st :
  (0 < slots <= 4294967296)%Z ->
  table_ok md slots done st ->
  List.length done < Z.to_nat slots ->
  exists st', table_insert md slots rm st = Some st' /\
              table_ok md slots (rm :: done) st'.
Proof.
  intros HS [L C M P S] Hlt. unfold table_insert.
  destruct (find_free_slot (2 * Z.to_nat slots) (fst st) slots (rm_hash md rm) 0)
    as [probes|] eqn:F.
  2:{ exfalso. revert F. apply find_free_slot_total.
      destruct (free_slot_exists (fst st)) as (idx & Hi & E); [lia|].
      destruct (probe_covers (rm_hash md rm) slots (Z.of_nat idx)) as (p & Hp & Ep);
        [lia | lia |].
      exists p. split; [lia|]. unfold slot_at, probe_index. rewrite Ep.
      rewrite Nat2Z.id. exact E. }
  apply find_free_slot_spec in F. destruct F as (F1 & F2 & F3).
  eexists. split; [reflexivity|].
  set (idx := probe_index (rm_hash md rm) probes slots) in *.
  assert (Hidx : idx < List.length (fst st)).
  { rewrite L. apply probe_index_lt. lia. }
  constructor; simpl.
  - rewrite length_list_set. exact L.
  - rewrite occupied_list_set; auto.
  - destruct (snd st <? probes)%Z eqn:E; [apply Z.ltb_lt in E|]; lia.
  - intros rm' [->|Hin].
    + exists probes. split.
      * destruct (snd st <? probes)%Z eqn:E; [apply Z.ltb_lt in E|apply Z.ltb_ge in E]; lia.
      * unfold slot_at. fold idx. apply nth_list_set_eq. exact Hidx.
    + destruct (P rm' Hin) as (p & Hp & Ep). exists p. split.
      * destruct (snd st <? probes)%Z eqn:E; [apply Z.ltb_lt in E|apply Z.ltb_ge in E]; lia.
      * unfold slot_at in *. rewrite nth_list_set_ne; [exact Ep|].
        intros X. rewrite <- X in Ep. fold idx in F2. unfold slot_at in F2. congruence.
  - intros j e Hj. destruct (Nat.eq_dec idx j) as [<-|N].
    + rewrite nth_list_set_eq in Hj by exact Hidx. inversion Hj; subst.
      exists rm. split; [left; reflexivity|reflexivity].
    + rewrite nth_list_set_ne in Hj by exact N.
      destruct (S j e Hj) as (rm' & Hin & E). exists rm'. split; [right; exact Hin|exact E].
Qed.

Lemma table_build_ok md slots rms : forall done st,
  (0 < slots <= 4294967296)%Z ->
  table_ok md slots done st ->
  List.length done + List.length rms <= Z.to_nat slots ->
  rms = [] \/ List.length done + List.length rms < Z.to_nat slots ->
  exists st', table_build md slots rms st = Some st' /\
              table_ok md slots (rev rms ++ done) st'.
Proof.
  induction rms as [|rm rms IH]; intros done st HS OK Hle Hlt.
  - exists st. split; [reflexivity|exact OK].
  - destruct Hlt as [Hlt|Hlt]; [discriminate|]. simpl in Hlt, Hle.
    destruct (table_insert_ok md slots done rm st HS OK) as (st1 & E1 & OK1); [lia|].
    destruct (IH (rm :: done) st1 HS OK1) as (st2 & E2 & OK2);
      [simpl; lia | right; simpl; lia |].
    exists st2. split.
    + cbn [table_build]. rewrite E1. exact E2.
    + simpl. rewrite <- app_assoc. exact OK2.
Qed.

Lemma table_ok_init md slots :
  (0 <= slots)%Z -> table_ok md slots [] (repeat None (Z.to_nat slots), 0%Z).
Proof.
  intros H. constructor; simpl.
  - apply repeat_length.
  - unfold occupied. induction (Z.to_nat slots); simpl; auto.
  - lia.
  - intros rm [].
  - intros idx e E. exfalso.
    assert (X : forall n idx, nth idx (repeat (@None channel_registered_method) n) None = None).
    { induction n as [|n IHn]; intros [|i]; simpl; auto. }
    rewrite X in E. discriminate.
Qed.

Theorem setup_channel_data_total md rms :
  (2 * Z.of_nat (List.length rms) <= uint32_max)%Z ->
  exists chand,
    setup_channel_data md rms = Some chand /\
    chan_mdctx chand = md /\
    match rms with
    | [] => registered_methods_tbl chand = None
    | _ :: _ =>
        exists tbl,
          registered_methods_tbl chand = Some tbl /\
          registered_method_slots chand = (2 * Z.of_nat (List.length rms))%Z /\
          table_ok md (registered_method_slots chand) (rev rms)
                   (tbl, registered_method_max_probes chand)
    end.
Proof.
  intros Hb. unfold setup_channel_data. destruct rms as [|rm rms].
  - eexists. repeat split.
  - set (l := rm :: rms) in *.
    assert (Hl : 0 < List.length l) by (simpl; lia).
    set (slots := (2 * Z.of_nat (List.length l))%Z) in *.
    unfold uint32_max in Hb.
    destruct (table_build_ok md slots l [] (repeat None (Z.to_nat slots), 0%Z))
      as ([tbl maxp] & E & OK).
    + unfold slots. lia.
    + apply table_ok_init. unfold slots. lia.
    + simpl. unfold slots. lia.
    + right. simpl. unfold slots. lia.
    + rewrite E. destruct (uint32_max <? slots)%Z eqn:X.
      * apply Z.ltb_lt in X. unfold uint32_max in X. lia.
      * eexists. split; [reflexivity|]. split; [reflexivity|]. simpl.
        exists tbl. split; [reflexivity|]. split; [reflexivity|].
        rewrite app_nil_r in OK. exact OK.
Qed.

Lemma exact_hit_Some s h p m :
  exact_hit s h p = Some m <->
  exists e, s = Some e /\ crm_host e = Some h /\ crm_method e = p /\
            m = server_registered_method e.
Proof.
  unfold exact_hit. split.
  - destruct s as [e|]; [|discriminate]. destruct (crm_host e) as [h'|] eqn:Eh; [|discriminate].
    destruct (String.eqb_spec h' h); simpl; [|discriminate].
    destruct (String.eqb_spec (crm_method e) p); simpl; [|discriminate].
    intros H. inversion H; subst. exists e. auto.
  - intros (e & -> & Eh & Em & ->). rewrite Eh, Em, !String.eqb_refl. reflexivity.
Qed.

Lemma wildcard_hit_Some s p m :
  wildcard_hit s p = Some m <->
  exists e, s = Some e /\ crm_host e = None /\ crm_method e = p /\
            m = server_registered_method e.
Proof.
  unfold wildcard_hit. split.
  - destruct s as [e|]; [|discriminate]. destruct (crm_host e) as [h'|] eqn:Eh; [discriminate|].
    destruct (String.eqb_spec (crm_method e) p); simpl; [|discriminate].
    intros H. inversion H; subst. exists e. auto.
  - intros (e & -> & Eh & Em & ->). rewrite Eh, Em, !String.eqb_refl. reflexivity.
Qed.

Lemma rm_key_inj rms rm rm' :
  NoDup (map rm_key rms) -> In rm rms -> In rm' rms ->
  rm_method rm = rm_method rm' -> rm_host rm = rm_host rm' -> rm = rm'.
Proof.
  induction rms as [|a rms IH]; simpl; intros ND H H' Em Eh; [contradiction|].
  inversion ND as [|? ? Na ND']; subst.
  assert (K : forall x y, rm_method x = rm_method y -> rm_host x = rm_host y ->
                          rm_key x = rm_key y).
  { intros x y A B. unfold rm_key. congruence. }
  destruct H as [->|H], H' as [->|H']; auto.
  - exfalso. apply Na. rewrite (K rm rm' Em Eh). apply in_map. exact H'.
  - exfalso. apply Na. rewrite <- (K rm rm' Em Eh). apply in_map. exact H.
Qed.

Lemma lookup_exact md slots done tbl maxp rm h :
  table_ok md slots done (tbl, maxp) ->
  NoDup (map rm_key done) ->
  In rm done -> rm_host rm = Some h ->
  fst (probe (fun s => exact_hit s h (rm_method rm)) tbl slots (rm_hash md rm)
             (Z.to_nat (maxp + 1)) 0) = Some (rm_handle rm).
Proof.
  intros [L C M P S] ND Hin Hh. simpl in *.
  destruct (P rm Hin) as (q & Hq & Eq).
  pose proof (probe_spec (fun s => exact_hit s h (rm_method rm)) tbl slots
                         (rm_hash md rm) (Z.to_nat (maxp + 1)) 0) as PS.
  destruct (probe _ tbl slots (rm_hash md rm) (Z.to_nat (maxp + 1)) 0) as [[m|] k]; simpl.
  - destruct PS as (j & _ & _ & Hj & _). apply exact_hit_Some in Hj.
    destruct Hj as (e & Ee & Eh & Em & ->). unfold slot_at in Ee.
    destruct (S _ _ Ee) as (rm' & Hin' & ->). simpl in *.
    unfold crm_of in *; simpl in *.
    f_equal. f_equal. symmetry. apply (rm_key_inj done); auto; unfold grpc_mdstr in *; congruence.
  - destruct PS as (_ & Hall). exfalso.
    assert (X : exact_hit (slot_at tbl slots (rm_hash md rm) q) h (rm_method rm) = None).
    { apply Hall. lia. }
    rewrite Eq in X. unfold exact_hit in X. simpl in X. rewrite Hh in X.
    rewrite !String.eqb_refl in X. discriminate X.
Qed.

Lemma lookup_wildcard md slots done tbl maxp rm :
  table_ok md slots done (tbl, maxp) ->
  NoDup (map rm_key done) ->
  In rm done -> rm_host rm = None ->
  fst (probe (fun s => wildcard_hit s (rm_method rm)) tbl slots (rm_hash md rm)
             (Z.to_nat (maxp + 1)) 0) = Some (rm_handle rm).
Proof.
  intros [L C M P S] ND Hin Hh. simpl in *.
  destruct (P rm Hin) as (q & Hq & Eq).
  pose proof (probe_spec (fun s => wildcard_hit s (rm_method rm)) tbl slots
                         (rm_hash md rm) (Z.to_nat (maxp + 1)) 0) as PS.
  destruct (probe _ tbl slots (rm_hash md rm) (Z.to_nat (maxp + 1)) 0) as [[m|] k]; simpl.
  - destruct PS as (j & _ & _ & Hj & _). apply wildcard_hit_Some in Hj.
    destruct Hj as (e & Ee & Eh & Em & ->). unfold slot_at in Ee.
    destruct (S _ _ Ee) as (rm' & Hin' & ->). simpl in *.
    unfold crm_of in *; simpl in *.
    f_equal. f_equal. symmetry. apply (rm_key_inj done); auto; unfold grpc_mdstr in *; congruence.
  - destruct PS as (_ & Hall). exfalso.
    assert (X : wildcard_hit (slot_at tbl slots (rm_hash md rm) q) (rm_method rm) = None).
    { apply Hall. lia. }
    rewrite Eq in X. unfold wildcard_hit in X. simpl in X. rewrite Hh in X.
    rewrite !String.eqb_refl in X. discriminate X.
Qed.

Lemma lookup_exact_miss md slots done tbl maxp h p hash n :
  table_ok md slots done (tbl, maxp) ->
  ~ method_registered done p (Some h) ->
  fst (probe (fun s => exact_hit s h p) tbl slots hash n 0) = None.
Proof.
  intros [L C M P S] NR. simpl in *.
  pose proof (probe_spec (fun s => exact_hit s h p) tbl slots hash n 0) as PS.
  destruct (probe _ tbl slots hash n 0) as [[m|] k]; simpl; [|reflexivity].
  destruct PS as (j & _ & _ & Hj & _). apply exact_hit_Some in Hj.
  destruct Hj as (e & Ee & Eh & Em & ->). unfold slot_at in Ee.
  destruct (S _ _ Ee) as (rm' & Hin' & ->). simpl in *.
  exfalso. apply NR. exists rm'. auto.
Qed.

Lemma lookup_wildcard_miss md slots done tbl maxp p hash n :
  table_ok md slots done (tbl, maxp) ->
  ~ method_registered done p None ->
  fst (probe (fun s => wildcard_hit s p) tbl slots hash n 0) = None.
Proof.
  intros [L C M P S] NR. simpl in *.
  pose proof (probe_spec (fun s => wildcard_hit s p) tbl slots hash n 0) as PS.
  destruct (probe _ tbl slots hash n 0) as [[m|] k]; simpl; [|reflexivity].
  destruct PS as (j & _ & _ & Hj & _). apply wildcard_hit_Some in Hj.
  destruct Hj as (e & Ee & Eh & Em & ->). unfold slot_at in Ee.
  destruct (S _ _ Ee) as (rm' & Hin' & ->). simpl in *.
  exfalso. apply NR. exists rm'. auto.
Qed.

Lemma setup_channel_data_inv md rms chand :
  setup_channel_data md rms = Some chand ->
  chan_mdctx chand = md /\
  match rms with
  | [] => registered_methods_tbl chand = None
  | _ :: _ =>
      exists tbl,
        registered_methods_tbl chand = Some tbl /\
        table_ok md (registered_method_slots chand) (rev rms)
                 (tbl, registered_method_max_probes chand)
  end.
Proof.
  intros H. unfold setup_channel_data in H. destruct rms as [|rm rms].
  - inversion H; subst. split; reflexivity.
  - remember (rm :: rms) as l eqn:El.
    assert (Hl : 0 < List.length l) by (subst l; simpl; lia).
    remember (2 * Z.of_nat (List.length l))%Z as slots eqn:Es.
    destruct (table_build md slots l (repeat None (Z.to_nat slots), 0%Z))
      as [[tbl maxp]|] eqn:E; [|discriminate].
    destruct (uint32_max <? slots)%Z eqn:X; [discriminate|].
    apply Z.ltb_ge in X. unfold uint32_max in X.
    inversion H; subst chand; clear H. simpl. split; [reflexivity|].
    exists tbl. split; [reflexivity|].
    destruct (table_build_ok md slots l [] (repeat None (Z.to_nat slots), 0%Z))
      as (st' & E' & OK).
    + lia.
    + apply table_ok_init. lia.
    + simpl. lia.
    + right. simpl. lia.
    + rewrite E in E'. inversion E'; subst st'. rewrite app_nil_r in OK. exact OK.
Qed.

Lemma method_registered_rev rms p h :
  method_registered (rev rms) p h <-> method_registered rms p h.
Proof.
  unfold method_registered. split; intros (rm & Hin & H); exists rm; split; auto.
  - apply in_rev. exact Hin.
  - apply in_rev in Hin. exact Hin.
Qed.

Lemma NoDup_map_rev {A B} (f : A -> B) l : NoDup (map f l) -> NoDup (map f (rev l)).
Proof.
  intros H. rewrite map_rev. apply NoDup_rev. exact H.
Qed.

Lemma start_new_rpc_routing md rms chand p h :
  setup_channel_data md rms = Some chand ->
  NoDup (map rm_key rms) ->
  (forall rm, In rm rms -> rm_method rm = p -> rm_host rm = Some h ->
              start_new_rpc_matcher chand (Some p) (Some h) = Some (rm_handle rm)) /\
  (forall rm, In rm rms -> rm_method rm = p -> rm_host rm = None ->
              ~ method_registered rms p (Some h) ->
              start_new_rpc_matcher chand (Some p) (Some h) = Some (rm_handle rm)) /\
  (~ method_registered rms p (Some h) -> ~ method_registered rms p None ->
   start_new_rpc_matcher chand (Some p) (Some h) = None).
Proof.
  intros H ND. apply setup_channel_data_inv in H. destruct H as (Emd & H).
  unfold start_new_rpc_matcher, probe_count.
  destruct rms as [|rm0 rms0].
  - rewrite H. repeat split; auto; intros rm [].
  - set (l := rm0 :: rms0) in *.
    destruct H as (tbl & Et & OK). rewrite Et, Emd.
    apply NoDup_map_rev in ND.
    split; [|split].
    + intros rm Hin <- Hh. apply in_rev in Hin.
      change (kv_hash md (mdstr_hash md h) (mdstr_hash md (rm_method rm)))
        with (kv_hash md (match Some h with Some h' => mdstr_hash md h' | None => 0%Z end)
                      (mdstr_hash md (rm_method rm))).
      rewrite <- Hh. fold (rm_hash md rm).
      rewrite (lookup_exact md _ (rev l) tbl _ rm h OK ND Hin Hh). reflexivity.
    + intros rm Hin <- Hh NR. apply in_rev in Hin.
      rewrite (lookup_exact_miss md _ (rev l) tbl _ h (rm_method rm) _ _ OK)
        by (rewrite method_registered_rev; exact NR).
      change (kv_hash md 0 (mdstr_hash md (rm_method rm)))
        with (kv_hash md (match @None string with Some h' => mdstr_hash md h' | None => 0%Z end)
                      (mdstr_hash md (rm_method rm))).
      rewrite <- Hh. fold (rm_hash md rm).
      rewrite (lookup_wildcard md _ (rev l) tbl _ rm OK ND Hin Hh). reflexivity.
    + intros NR1 NR2.
      rewrite (lookup_exact_miss md _ (rev l) tbl _ h p _ _ OK)
        by (rewrite method_registered_rev; exact NR1).
      rewrite (lookup_wildcard_miss md _ (rev l) tbl _ p _ _ OK)
        by (rewrite method_registered_rev; exact NR2).
      reflexivity.
Qed.

Lemma recv_pop_consumes w c rm id rest w' :
  on_recv w c = R_pop rm ->
  requests (matcher w rm) = id :: rest -> id <> (-1)%Z ->
  recv_step c w = Some w' ->
  requests (matcher w' rm) = rest /\
  (forall rm', rm' <> rm -> matcher w' rm' = matcher w rm') /\
  state (calls w' c) = ACTIVATED /\
  In (c, id) (begun w').
Proof.
  intros P R N H. unfold recv_step in H. rewrite P in H. rewrite R in H. simpl in H.
  apply Z.eqb_neq in N. rewrite N in H. inversion H; subst; clear H.
  unfold matcher. simpl. unfold upd_matcher, upd_nat.
  destruct (matcher_ref_eqb_spec rm rm); [|congruence]. rewrite !Nat.eqb_refl. simpl.
  repeat split; auto.
  - intros rm' Hn. destruct (matcher_ref_eqb_spec rm' rm); [contradiction|reflexivity].
  - apply in_or_app. right. left. reflexivity.
Qed.

Lemma start_new_rpc_probes chand tbl p h :
  registered_methods_tbl chand = Some tbl ->
  (0 <= registered_method_max_probes chand)%Z ->
  let md := chan_mdctx chand in
  let slots := registered_method_slots chand in
  let ex := probe (fun rm => exact_hit rm h p) tbl slots
                  (kv_hash md (mdstr_hash md h) (mdstr_hash md p)) (probe_count chand) 0 in
  let wc := probe (fun rm => wildcard_hit rm p) tbl slots
                  (kv_hash md 0%Z (mdstr_hash md p)) (probe_count chand) 0 in
  start_new_rpc_matcher chand (Some p) (Some h) =
    match fst ex with Some m => Some m | None => fst wc end /\
  (0 < snd ex <= registered_method_max_probes chand + 1)%Z /\
  (0 < snd wc <= registered_method_max_probes chand + 1)%Z.
Proof.
  intros Et Hm md slots ex wc. split; [|split].
  - unfold start_new_rpc_matcher. rewrite Et. fold md slots ex wc.
    destruct (fst ex); [reflexivity|]. destruct (fst wc); reflexivity.
  - destruct (probe_attempts (fun rm => exact_hit rm h p) tbl slots
                (kv_hash md (mdstr_hash md h) (mdstr_hash md p)) (probe_count chand) 0)
      as [H|[H _]]; fold ex in H; unfold probe_count in *; lia.
  - destruct (probe_attempts (fun rm => wildcard_hit rm p) tbl slots
                (kv_hash md 0%Z (mdstr_hash md p)) (probe_count chand) 0)
      as [H|[H _]]; fold wc in H; unfold probe_count in *; lia.
Qed.

(** C5.  On a channel set up from the server's registered methods,
    [start_new_rpc], for a call whose [path] is [p] and whose [host] is [h],
    runs the exact-host probe first and the wildcard probe only when the
    first one misses; each probe examines at least one and at most
    [registered_method_max_probes + 1] slots, and a hit is a slot whose
    interned host and method are those of the call.  The call goes to the
    matcher of the method registered for [(p, h)] when there is one, else to
    that of the method registered for [p] with no host, else to the
    unregistered matcher, as it does when the channel has no table.  The
    ticket that [finish_start_new_rpc] then pops is taken from the stack of
    that matcher and of no other. *)
Theorem start_new_rpc_exact_then_wildcard md rms chand p h :
  setup_channel_data md rms = Some chand ->
  NoDup (map rm_key rms) ->
  let slots := registered_method_slots chand in
  let routed := start_new_rpc_matcher chand (Some p) (Some h) in
  (forall tbl, registered_methods_tbl chand = Some tbl ->
     let ex := probe (fun rm => exact_hit rm h p) tbl slots
                     (kv_hash md (mdstr_hash md h) (mdstr_hash md p))
                     (probe_count chand) 0 in
     let wc := probe (fun rm => wildcard_hit rm p) tbl slots
                     (kv_hash md 0%Z (mdstr_hash md p)) (probe_count chand) 0 in
     routed = match fst ex with Some m => Some m | None => fst wc end /\
     (0 < snd ex <= registered_method_max_probes chand + 1)%Z /\
     (0 < snd wc <= registered_method_max_probes chand + 1)%Z /\
     (forall m, fst ex = Some m ->
        exists e, slot_at tbl slots (kv_hash md (mdstr_hash md h) (mdstr_hash md p))
                          (snd ex - 1) = Some e /\
                  crm_host e = Some h /\ crm_method e = p /\
                  m = server_registered_method e) /\
     (forall m, fst wc = Some m ->
        exists e, slot_at tbl slots (kv_hash md 0%Z (mdstr_hash md p))
                          (snd wc - 1) = Some e /\
                  crm_host e = None /\ crm_method e = p /\
                  m = server_registered_method e)) /\
  (registered_methods_tbl chand = None -> routed = None) /\
  (forall rm, In rm rms -> rm_method rm = p -> rm_host rm = Some h ->
              routed = Some (rm_handle rm)) /\
  (forall rm, In rm rms -> rm_method rm = p -> rm_host rm = None ->
              ~ method_registered rms p (Some h) ->
              routed = Some (rm_handle rm)) /\
  (~ method_registered rms p (Some h) -> ~ method_registered rms p None ->
   routed = None) /\
  (forall w c request_id rest w',
      on_recv w c = R_pop routed ->
      requests (matcher w routed) = request_id :: rest ->
      request_id <> (-1)%Z ->
      recv_step c w = Some w' ->
      requests (matcher w' routed) = rest /\
      (forall rm', rm' <> routed -> matcher w' rm' = matcher w rm') /\
      state (calls w' c) = ACTIVATED /\
      In (c, request_id) (begun w')).
Proof.
  intros H ND slots routed.
  pose proof (start_new_rpc_routing md rms chand p h H ND) as (R1 & R2 & R3).
  pose proof (setup_channel_data_inv md rms chand H) as (Emd & Inv).
  split; [|split; [|split; [|split; [|split]]]]; try assumption.
  - intros tbl Et ex wc.
    assert (Hm : (0 <= registered_method_max_probes chand)%Z).
    { destruct rms as [|rm0 rms0].
      - rewrite Inv in Et. discriminate Et.
      - destruct Inv as (tbl' & _ & OK). destruct OK as [_ _ M _ _]. exact M. }
    pose proof (start_new_rpc_probes chand tbl p h Et Hm) as (A & B & C).
    rewrite Emd in A, B, C. fold slots in A, B, C. fold ex in A, B. fold wc in A, C.
    split; [exact A|]. split; [exact B|]. split; [exact C|]. split.
    + intros m Em.
      pose proof (probe_spec (fun rm => exact_hit rm h p) tbl slots
                    (kv_hash md (mdstr_hash md h) (mdstr_hash md p))
                    (probe_count chand) 0) as S.
      fold ex in S. destruct ex as [o k]. simpl in Em. subst o. simpl.
      destruct S as (j & _ & Hk & Hh & _).
      replace (k - 1)%Z with j by lia.
      apply exact_hit_Some in Hh. exact Hh.
    + intros m Em.
      pose proof (probe_spec (fun rm => wildcard_hit rm p) tbl slots
                    (kv_hash md 0%Z (mdstr_hash md p)) (probe_count chand) 0) as S.
      fold wc in S. destruct wc as [o k]. simpl in Em. subst o. simpl.
      destruct S as (j & _ & Hk & Hh & _).
      replace (k - 1)%Z with j by lia.
      apply wildcard_hit_Some in Hh. exact Hh.
  - intros Et. unfold routed, start_new_rpc_matcher. rewrite Et. reflexivity.
  - intros w c request_id rest w' P R N S.
    exact (recv_pop_consumes w c routed request_id rest w' P R N S).
Qed.

Lemma start_new_rpc_exact_then_wildcard_witness :
  start_new_rpc_matcher (channels (from_run trace_exact_and_wildcard) 0)
                        (Some "/svc/M"%string) (Some "h1"%string) = Some 0 /\
  exists w',
    recv_step 0 (from_run trace_exact_and_wildcard) = Some w' /\
    requests (matcher w' (Some 0)) = [] /\
    requests (matcher w' (Some 1)) = [32766%Z].
Proof.
  assert (S : setup_channel_data sample_mdctx
                (registered_methods (server (from_run trace_exact_and_wildcard))) =
              Some (channels (from_run trace_exact_and_wildcard) 0))
    by (vm_compute; reflexivity).
  assert (E : registered_methods (server (from_run trace_exact_and_wildcard)) =
              [ {| rm_handle := 1; rm_method := "/svc/M"%string; rm_host := None |};
                {| rm_handle := 0; rm_method := "/svc/M"%string;
                   rm_host := Some "h1"%string |} ])
    by (vm_compute; reflexivity).
  assert (ND : NoDup (map rm_key
                        (registered_methods (server (from_run trace_exact_and_wildcard))))).
  { rewrite E. simpl. constructor; [simpl; intros [X|[]]; discriminate X|].
    constructor; [simpl; tauto | constructor]. }
  destruct (start_new_rpc_exact_then_wildcard sample_mdctx _ _
              "/svc/M"%string "h1"%string S ND) as (_ & _ & Exact & _ & _ & Pop).
  assert (I : In {| rm_handle := 0; rm_method := "/svc/M"%string;
                    rm_host := Some "h1"%string |}
                 (registered_methods (server (from_run trace_exact_and_wildcard)))).
  { rewrite E. right. left. reflexivity. }
  pose proof (Exact _ I eq_refl eq_refl) as R. simpl rm_handle in R.
  split; [exact R|].
  assert (X : match recv_step 0 (from_run trace_exact_and_wildcard) with
              | Some _ => true
              | None => false
              end = true) by (vm_compute; reflexivity).
  revert X.
  destruct (recv_step 0 (from_run trace_exact_and_wildcard)) as [w'|] eqn:St;
    intros X; [|discriminate X].
  exists w'. split; [reflexivity|].
  specialize (Pop (from_run trace_exact_and_wildcard) 0 32767%Z [] w').
  rewrite R in Pop.
  assert (P : on_recv (from_run trace_exact_and_wildcard) 0 = R_pop (Some 0))
    by (vm_compute; reflexivity).
  assert (Q : requests (matcher (from_run trace_exact_and_wildcard) (Some 0)) = [32767%Z])
    by (vm_compute; reflexivity).
  assert (N : 32767%Z <> (-1)%Z) by discriminate.
  destruct (Pop P Q N St) as (A & B & _).
  split; [exact A|].
  rewrite (B (Some 1)) by discriminate.
  vm_compute. reflexivity.
Defined.

(** * Further properties *)

(** ** Metadata of a call *)

Lemma path_authority_distinct : String.eqb authority_key path_key = false.
Proof. reflexivity. Qed.

Lemma fold_server_filter_values l : forall cd,
  path (fold_left server_filter l cd) =
    match last_value path_key l with Some v => Some v | None => path cd end /\
  host (fold_left server_filter l cd) =
    match last_value authority_key l with Some v => Some v | None => host cd end /\
  deadline (fold_left server_filter l cd) = deadline cd.
Proof.
  induction l as [|md l IH]; intros cd; simpl; auto.
  destruct (IH (server_filter cd md)) as (A & B & C). rewrite A, B, C.
  unfold server_filter.
  destruct (String.eqb_spec (fst md) path_key) as [E|E].
  - rewrite E. rewrite (proj2 (String.eqb_neq _ _)) by discriminate.
    destruct (last_value path_key l), (last_value authority_key l); simpl; auto.
  - destruct (String.eqb (fst md) authority_key);
      destruct (last_value path_key l), (last_value authority_key l); simpl; auto.
Qed.

(** X1.  When [server_on_recv] scans the first metadata op of a successful
    callback for a call whose initial metadata has not been seen, the call's
    [path] and [host] become the values of the last [:path] and [:authority]
    elements of the batch (they keep their old value when the batch has no
    such element), a finite deadline of the batch is copied, and
    [start_new_rpc] is called, with [got_initial_metadata] set, exactly when
    both [path] and [host] are then set; the state of the call is left as
    it is. *)
Theorem recv_metadata_reads_path_and_authority cd ops b :
  got_initial_metadata cd = false ->
  first_metadata ops = Some b ->
  let r := recv_metadata cd true ops in
  path (fst r) =
    match last_value path_key (md_list b) with Some v => Some v | None => path cd end /\
  host (fst r) =
    match last_value authority_key (md_list b) with Some v => Some v | None => host cd end /\
  deadline (fst r) =
    match md_deadline b with Some d => Some d | None => deadline cd end /\
  (snd r = true <-> path (fst r) <> None /\ host (fst r) <> None) /\
  got_initial_metadata (fst r) = snd r /\
  state (fst r) = state cd.
Proof.
  intros G F r. subst r. unfold recv_metadata. rewrite G, F. simpl.
  destruct (fold_server_filter_values (md_list b) cd) as (A & B & C).
  destruct (fold_server_filter_frame (md_list b) cd) as (S1 & S2 & _).
  set (cd1 := fold_left server_filter (md_list b) cd) in *.
  set (cd2 := match md_deadline b with Some d => set_deadline (Some d) cd1 | None => cd1 end).
  assert (X : path cd2 = path cd1 /\ host cd2 = host cd1 /\
              deadline cd2 = match md_deadline b with Some d => Some d | None => deadline cd end /\
              got_initial_metadata cd2 = false /\ state cd2 = state cd).
  { subst cd2. destruct (md_deadline b); simpl; repeat split; congruence. }
  destruct X as (X1 & X2 & X3 & X4 & X5).
  destruct (host cd2) as [h|] eqn:Eh; [destruct (path cd2) as [p|] eqn:Ep|]; simpl;
    rewrite ?Eh, ?Ep, <- ?A, <- ?B.
  - repeat split; try congruence.
  - repeat split; try congruence; try (intros [? ?]; congruence).
  - repeat split; try congruence; try (intros [? ?]; congruence).
Qed.

Lemma recv_metadata_reads_path_and_authority_witness :
  let r := recv_metadata (init_call_elem 0) true (headers "h1"%string "/svc/M"%string) in
  path (fst r) = Some "/svc/M"%string /\ host (fst r) = Some "h1"%string /\
  snd r = true.
Proof.
  destruct (recv_metadata_reads_path_and_authority (init_call_elem 0)
              (headers "h1"%string "/svc/M"%string)
              {| md_list := [(path_key, "/svc/M"%string); (authority_key, "h1"%string)];
                 md_deadline := None |} eq_refl eq_refl) as (A & B & _ & D & _).
  split; [exact A|]. split; [exact B|]. reflexivity.
Defined.

(** ** Call details *)

(** X2.  [cpstr] never copies past the buffer: after the call the capacity
    is at least the length of the string plus one for the terminator, also
    when doubling the old capacity wraps around; a buffer that is large
    enough keeps its capacity, and one that is not grows to the larger of
    the length needed and twice the old capacity. *)
Theorem cpstr_within_capacity b value :
  (slice_length value + 1 < 18446744073709551616)%Z ->
  (0 <= buf_capacity b < 18446744073709551616)%Z ->
  let b' := cpstr b value in
  buf_str b' = Some value /\
  (slice_length value + 1 <= buf_capacity b' < 18446744073709551616)%Z /\
  ((slice_length value + 1 <= buf_capacity b)%Z ->
   buf_capacity b' = buf_capacity b) /\
  ((buf_capacity b < slice_length value + 1)%Z ->
   (buf_capacity b * 2 < 18446744073709551616)%Z ->
   buf_capacity b' = Z.max (slice_length value + 1) (buf_capacity b * 2)).
Proof.
  intros L C b'. subst b'. unfold cpstr, wrap64, slice_length in *. simpl.
  assert (P : (0 <= Z.of_nat (String.length value))%Z) by lia.
  rewrite (Z.mod_small (Z.of_nat (String.length value) + 1)) by lia.
  pose proof (Z.mod_pos_bound (buf_capacity b * 2) 18446744073709551616 ltac:(lia)) as M.
  destruct (Z.ltb_spec (buf_capacity b) (Z.of_nat (String.length value) + 1)).
  - repeat split; try lia.
    intros _ D. rewrite Z.mod_small by lia. reflexivity.
  - repeat split; try lia.
Qed.

Lemma cpstr_within_capacity_witness :
  buf_str (cpstr {| buf_str := None; buf_capacity := 0 |} "/svc/M"%string) = Some "/svc/M"%string /\
  (7 <= buf_capacity (cpstr {| buf_str := None; buf_capacity := 0 |} "/svc/M"%string))%Z.
Proof.
  destruct (cpstr_within_capacity {| buf_str := None; buf_capacity := 0 |} "/svc/M"%string)
    as (A & B & _).
  - vm_compute. reflexivity.
  - simpl. lia.
  - split; [exact A|]. exact (proj1 B).
Defined.

Lemma later_refl w : later w w.
Proof.
  constructor; auto; try (exists []; rewrite ?app_nil_r; reflexivity); try lia.
Qed.

Lemma later_trans w1 w2 w3 : later w1 w2 -> later w2 w3 -> later w1 w3.
Proof.
  intros [A1 A2 A3 A4 A5 A6 A7 A8 A9 A10 A11] [B1 B2 B3 B4 B5 B6 B7 B8 B9 B10 B11].
  constructor; auto; try lia.
  all: repeat match goal with H : exists _, _ |- _ => destruct H end.
  all: try (eexists; etransitivity; [eassumption|];
            match goal with H : _ = _ |- _ => rewrite H end;
            first [rewrite <- app_assoc | rewrite app_assoc]; reflexivity).
Qed.

Ltac ex_nil := exists []; rewrite ?app_nil_r; reflexivity.

Lemma later_step l w w' : step l w = Some w' -> later w w'.
Proof.
  intros H. unfold_step H.
  all: constructor; simpl; auto; try lia.
  all: try ex_nil.
  all: try (eexists; reflexivity).
  all: try (eexists; rewrite <- app_assoc; reflexivity).
  all: try (exists []; reflexivity).
  all: try (eexists [_]; reflexivity).
Qed.

Lemma not_existsb_eqb c l : existsb (Nat.eqb c) l = false -> ~ In c l.
Proof.
  intros H I. assert (E : existsb (Nat.eqb c) l = true).
  { apply existsb_exists. exists c. split; [exact I | apply Nat.eqb_refl]. }
  congruence.
Qed.

Lemma registry_register_cq cq s :
  registry_inv s -> registry_inv (grpc_server_register_completion_queue cq s).
Proof.
  intros [A B C]. unfold grpc_server_register_completion_queue.
  destruct (existsb (Nat.eqb cq) (cqs s)) eqn:E; [constructor; assumption|].
  constructor; simpl; try assumption.
  apply not_existsb_eqb in E.
  apply NoDup_app; [exact A | constructor; [simpl; tauto | constructor] |].
  intros x Hx [<-|[]]. contradiction.
Qed.

Lemma registry_register_method s method host :
  registry_inv s -> registry_inv (snd (grpc_server_register_method s method host)).
Proof.
  intros [A B C]. unfold grpc_server_register_method.
  destruct method as [m|]; [|constructor; assumption].
  destruct (existsb (same_registration m host) (registered_methods s)) eqn:E;
    [constructor; assumption|].
  assert (R : forall n, rev (seq 0 (S n)) = n :: rev (seq 0 n)).
  { intros n. rewrite seq_S, rev_app_distr. reflexivity. }
  constructor; cbn [snd registered_methods cqs set_registered_methods set_matchers
                    map rm_handle List.length]; try assumption.
  - constructor; [|exact B].
    intros I. apply in_map_iff in I. destruct I as (x & Ex & Hx).
    assert (T : existsb (same_registration m host) (registered_methods s) = true).
    { apply existsb_exists. exists x. split; [exact Hx|].
      apply same_registration_iff. unfold rm_key in Ex. inversion Ex; auto. }
    congruence.
  - rewrite R, C. reflexivity.
Qed.

Lemma registry_step l w w' :
  registry_inv (server w) -> step l w = Some w' -> registry_inv (server w').
Proof.
  intros I H.
  pose proof (fun cq => registry_register_cq cq (server w) I) as Pc.
  pose proof (fun m h => registry_register_method (server w) m h I) as Pm.
  unfold grpc_server_register_completion_queue in Pc.
  unfold grpc_server_register_method in Pm.
  unfold_step H.
  all: try (destruct I as [A B C]; constructor; simpl; assumption).
  all: simpl.
  all: try match goal with
       | E : existsb (Nat.eqb ?cq) _ = _ |- _ =>
           specialize (Pc cq); rewrite E in Pc; exact Pc
       | E : existsb (same_registration ?m ?h) _ = _ |- _ =>
           specialize (Pm (Some m) h); cbv beta iota in Pm; rewrite E in Pm; exact Pm
       | |- _ => exact (Pm None None)
       end.
Qed.

Lemma registry_init : registry_inv (server init_world).
Proof. constructor; simpl; constructor. Qed.

Lemma registry_reachable w : reachable w -> registry_inv (server w).
Proof.
  induction 1 as [|w l w' R IH H]; [exact registry_init|].
  exact (registry_step l w w' IH H).
Qed.

Lemma holds_call_global th : holds_call th = true -> holds_global th = true.
Proof. destruct th as [| | | | | | | |[] ? ?| | | | |]; simpl; auto. Qed.

Lemma lock_inv_step l w w' : lock_inv w -> step l w = Some w' -> lock_inv w'.
Proof.
  intros I H. unfold_step H.
  all: destruct I as [I1 I2 I3].
  all: try match goal with
       | Ht : threads ?w ?t = _ |- _ =>
           pose proof (I3 t) as B3; rewrite Ht in B3; simpl in B3
       end.
  all: norm_hyps; norm_bool.
  all: repeat match goal with
       | H : mu_global (server _) = Some ?x |- _ => add_fact (I1 x H)
       | H : mu_call (server _) = Some ?x |- _ => add_fact (I2 x H)
       end.
  all: constructor; simpl; intros t' Ht'; unfold upd_nat in *.
  all: try match type of Ht' with
       | Some _ = Some _ => inversion Ht'; subst; clear Ht'
       | None = Some _ => discriminate Ht'
       end.
  all: repeat match goal with
       | H : mu_global (server _) = Some ?x |- _ => add_fact (I1 x H)
       | H : mu_call (server _) = Some ?x |- _ => add_fact (I2 x H)
       end.
  all: break_hyps.
  all: case_eqb; simpl in *.
  all: repeat match goal with
       | H : threads ?w ?t = _, G : context [threads ?w ?t] |- _ =>
           progress (rewrite H in G; simpl in G)
       end.
  all: try match goal with
       | H : threads ?w ?t = _ |- context [threads ?w ?t] => rewrite H; simpl
       end.
  all: try solve [auto | split; auto; lia | discriminate | congruence | lia].
  all: try solve [destruct locked; simpl in *; try discriminate; auto; congruence].
  all: try solve [apply I3 in Ht'; congruence].
  all: try solve [specialize (B3 eq_refl); congruence].
  all: try solve [apply I3 in Ht'; specialize (B3 eq_refl); congruence].
Qed.

Lemma lock_inv_init : lock_inv init_world.
Proof. constructor; simpl; intros; discriminate. Qed.

Lemma lock_inv_reachable w : reachable w -> lock_inv w.
Proof.
  induction 1 as [|w l w' R IH H]; [exact lock_inv_init|].
  exact (lock_inv_step l w w' IH H).
Qed.

(** X7.  Between two steps, a thread that has returned holds neither mutex;
    [mu_call] is held only by the thread inside the call of
    [kill_pending_work_locked] made by [grpc_server_shutdown_and_notify],
    which holds [mu_global] too (the order [mu_global] before [mu_call] of
    the comment in [struct grpc_server]); and a thread inside
    [maybe_finish_shutdown] holds [mu_global] and does not hold [mu_call],
    as the comment at its declaration requires.  The sections of
    [queue_call_request] and [finish_start_new_rpc] under [mu_call] are
    single steps. *)
Theorem mutexes_nested_and_released w :
  reachable w ->
  (forall t r, threads w t = T_done r ->
               mu_global (server w) <> Some t /\ mu_call (server w) <> Some t) /\
  (forall t, mu_call (server w) = Some t ->
             mu_global (server w) = Some t /\
             exists ms ph, threads w t = T_kill_pending_work true ms ph) /\
  (forall t, in_maybe_finish (threads w t) = true \/
             threads w t = T_maybe_finish_shutdown ->
             mu_global (server w) = Some t /\ mu_call (server w) <> Some t).
Proof.
  intros R. pose proof (lock_inv_reachable w R) as [I1 I2 I3].
  pose proof (shutdown_inv_reachable R) as [S1 _ _ _].
  split; [|split].
  - intros t r T. split; intros E.
    + destruct (I1 t E) as [_ X]. rewrite T in X. discriminate X.
    + destruct (I2 t E) as [_ X]. rewrite T in X. discriminate X.
  - intros t E. destruct (I2 t E) as [_ X]. split.
    + apply S1. apply holds_call_global. exact X.
    + destruct (threads w t) as [| | | | | | | |[] ms ph| | | | |]; try discriminate X.
      exists ms, ph. reflexivity.
  - intros t X. split.
    + apply S1. destruct X as [X|X]; [apply in_mfs_holds; exact X | rewrite X; reflexivity].
    + intros E. destruct (I2 t E) as [_ Y].
      destruct X as [X|X]; [|rewrite X in Y; discriminate Y].
      destruct (threads w t) as [| | | | | | | |[] ms ph| | | | |]; discriminate.
Qed.


Lemma NoDup_snoc {A} (l : list A) x : NoDup l -> ~ In x l -> NoDup (l ++ [x]).
Proof.
  intros N I. apply NoDup_app; [exact N | constructor; [simpl; tauto | constructor] |].
  intros y Hy [<-|[]]. contradiction.
Qed.




Lemma later_run ls : forall w w', run ls w = Some w' -> later w w'.
Proof.
  induction ls as [|l ls IH]; simpl; intros w w' H.
  - inversion H; subst. apply later_refl.
  - destruct (step l w) as [w1|] eqn:E; [|discriminate].
    exact (later_trans _ _ _ (later_step l w w1 E) (IH w1 w' H)).
Qed.

(** X6.  Nothing resets [shutdown_flag] or [shutdown_published], and a
    registered shutdown tag stays registered.  So once the flag is set, every
    [queue_call_request] that starts later fails its ticket and returns
    [GRPC_CALL_OK], and every call whose initial metadata arrives later is
    made [ZOMBIED] by [finish_start_new_rpc], with its kill closure
    scheduled and no ticket consumed. *)
Theorem shutdown_is_irreversible ls w w' :
  run ls w = Some w' ->
  shutdown_flag (server w) = true ->
  shutdown_flag (server w') = true /\
  (shutdown_published (server w) = true -> shutdown_published (server w') = true) /\
  (forall sdt, In sdt (shutdown_tags (server w)) -> In sdt (shutdown_tags (server w'))) /\
  (forall t rc, threads w' t = T_queue_call_request rc ->
     thread_step t w' =
       Some (finish t (Some GRPC_CALL_OK) (fail_call rc (Heap t) w'))) /\
  (forall c success ops st cd,
     recv_metadata (set_recv_state st (calls w' c)) success ops = (cd, true) ->
     let w2 := server_on_recv c success ops st w' in
     state (calls w2 c) = ZOMBIED /\
     kill_scheduled w2 = kill_scheduled w' ++ [c] /\
     on_recv w2 c = R_switch /\
     server w2 = server w' /\ begun w2 = begun w').
Proof.
  intros H F. destruct (later_run ls w w' H) as [L1 L2 [l3 L3] _ _ _ _ _ _ _ _].
  pose proof (L1 F) as F'.
  split; [exact F'|]. split; [exact L2|]. split; [|split].
  - intros sdt I. rewrite L3. apply in_or_app. left. exact I.
  - intros t rc T. unfold thread_step. rewrite T. simpl. rewrite F'. reflexivity.
  - intros c success ops st cd E w2. subst w2. unfold server_on_recv.
    rewrite E, F'. simpl. unfold upd_nat. rewrite Nat.eqb_refl. simpl.
    repeat split; reflexivity.
Qed.

Lemma shutdown_is_irreversible_witness :
  exists w',
    run [L_add_listener 6%Z] (from_run trace_request_after_shutdown) = Some w' /\
    shutdown_flag (server w') = true /\
    thread_step 3 w' =
      Some (finish 3 (Some GRPC_CALL_OK)
              (fail_call {| data := batch 200%Z 300%Z; tag := 7%Z; cq_bound_to_call := 0;
                            cq_for_notification := 0; call := 100%Z |} (Heap 3) w')).
Proof.
  assert (T : option_map (fun w => threads w 3)
                (run [L_add_listener 6%Z] (from_run trace_request_after_shutdown)) =
              Some (T_queue_call_request
                      {| data := batch 200%Z 300%Z; tag := 7%Z; cq_bound_to_call := 0;
                         cq_for_notification := 0; call := 100%Z |}))
    by (vm_compute; reflexivity).
  assert (F : shutdown_flag (server (from_run trace_request_after_shutdown)) = true)
    by (vm_compute; reflexivity).
  destruct (run [L_add_listener 6%Z] (from_run trace_request_after_shutdown))
    as [w'|] eqn:R; [|discriminate T].
  simpl in T. inversion T as [T'].
  exists w'. split; [reflexivity|].
  destruct (shutdown_is_irreversible _ _ _ R F) as (A & _ & _ & B & _).
  split; [exact A|]. apply B. exact T'.
Defined.

Lemma NoDup_rev_seq n : NoDup (rev (seq 0 n)).
Proof.
  apply NoDup_rev. apply seq_NoDup.
Qed.

(** X4.  In every reachable state no completion queue is registered twice,
    no two registered methods have the same method string and host, and each
    registered method has a handle of its own; registering a completion
    queue a second time changes nothing. *)
Theorem registrations_are_distinct w :
  reachable w ->
  NoDup (cqs (server w)) /\
  NoDup (map rm_key (registered_methods (server w))) /\
  NoDup (map rm_handle (registered_methods (server w))) /\
  (forall cq, cqs (grpc_server_register_completion_queue cq
                     (grpc_server_register_completion_queue cq (server w))) =
              cqs (grpc_server_register_completion_queue cq (server w))).
Proof.
  intros R. destruct (registry_reachable w R) as [A B C].
  split; [exact A|]. split; [exact B|]. split.
  - rewrite C. apply NoDup_rev_seq.
  - intros cq. unfold grpc_server_register_completion_queue.
    destruct (existsb (Nat.eqb cq) (cqs (server w))) eqn:E.
    + rewrite E. reflexivity.
    + simpl. rewrite existsb_app. simpl. rewrite Nat.eqb_refl.
      rewrite orb_true_r. reflexivity.
Qed.

Lemma registrations_are_distinct_witness :
  NoDup (map rm_handle
           (registered_methods (server (from_run trace_exact_and_wildcard)))) /\
  NoDup (cqs (server (from_run trace_exact_and_wildcard))).
Proof.
  destruct (registrations_are_distinct _ (reachable_from_run trace_exact_and_wildcard))
    as (A & _ & C & _).
  split; assumption.
Defined.

Lemma mutexes_nested_and_released_witness :
  mu_call (server (from_run trace_shutdown_locked)) = Some 0 /\
  mu_global (server (from_run trace_shutdown_locked)) = Some 0 /\
  mu_global (server (from_run trace_shutdown)) <> Some 0.
Proof.
  assert (E : mu_call (server (from_run trace_shutdown_locked)) = Some 0)
    by (vm_compute; reflexivity).
  destruct (mutexes_nested_and_released _ (reachable_from_run trace_shutdown_locked))
    as (_ & B & _).
  destruct (mutexes_nested_and_released _ (reachable_from_run trace_shutdown))
    as (A & _ & _).
  split; [exact E|]. split; [exact (proj1 (B 0 E))|].
  assert (T : threads (from_run trace_shutdown) 0 = T_done None) by (vm_compute; reflexivity).
  exact (proj1 (A 0 None T)).
Defined.

(** X5.  A method registered with [grpc_server_register_method] stays routed:
    on every channel set up afterwards, whatever is registered in between,
    [start_new_rpc] sends a call with that [:path] and [:authority] to the
    matcher of the handle that the registration returned; a registration
    with no host receives the calls for every host that has no registration
    of its own for the method. *)
Theorem registered_method_stays_routed method host h ls w w1 w' md chand :
  reachable w ->
  fst (grpc_server_register_method (server w) (Some method) host) = Some h ->
  step (L_register_method (Some method) host) w = Some w1 ->
  run ls w1 = Some w' ->
  setup_channel_data md (registered_methods (server w')) = Some chand ->
  forall hst,
    (host = Some hst \/
     (host = None /\
      ~ method_registered (registered_methods (server w')) method (Some hst))) ->
    start_new_rpc_matcher chand (Some method) (Some hst) = Some h.
Proof.
  intros R Hh S1 Run Setup hst Hc.
  assert (R' : reachable w').
  { apply (run_reachable ls (w := w1)); [|exact Run].
    exact (reachable_step _ R S1). }
  destruct (registry_reachable w' R') as [_ K _].
  set (m := {| rm_handle := h; rm_method := method; rm_host := host |}).
  assert (I1 : In m (registered_methods (server w1))).
  { unfold step in S1. destruct (aborted w); [discriminate|].
    inversion S1; subst w1; clear S1. simpl.
    unfold grpc_server_register_method in *.
    destruct (existsb (same_registration method host) (registered_methods (server w)));
      simpl in *; [discriminate|].
    inversion Hh; subst h. left. reflexivity. }
  assert (I : In m (registered_methods (server w'))).
  { destruct (later_run ls w1 w' Run) as [_ _ _ _ [l L] _ _ _ _ _ _].
    rewrite L. apply in_or_app. right. exact I1. }
  destruct (start_new_rpc_routing md _ chand method hst Setup K) as (A & B & _).
  destruct Hc as [->|[-> N]].
  - exact (A m I eq_refl eq_refl).
  - exact (B m I eq_refl eq_refl N).
Qed.

Lemma registered_method_stays_routed_witness :
  exists w1 w' chand,
    step (L_register_method (Some "/svc/M"%string) (Some "h1"%string)) init_world = Some w1 /\
    run trace_register_then_setup w1 = Some w' /\
    setup_channel_data sample_mdctx (registered_methods (server w')) = Some chand /\
    start_new_rpc_matcher chand (Some "/svc/M"%string) (Some "h1"%string) = Some 0.
Proof.
  destruct (step (L_register_method (Some "/svc/M"%string) (Some "h1"%string)) init_world)
    as [w1|] eqn:S1; [|discriminate S1].
  assert (X : match run trace_register_then_setup w1 with
              | Some w' =>
                  match setup_channel_data sample_mdctx (registered_methods (server w')) with
                  | Some _ => true
                  | None => false
                  end
              | None => false
              end = true).
  { unfold step in S1. simpl in S1. inversion S1; subst w1. vm_compute. reflexivity. }
  destruct (run trace_register_then_setup w1) as [w'|] eqn:Run; [|discriminate X].
  destruct (setup_channel_data sample_mdctx (registered_methods (server w')))
    as [chand|] eqn:Setup; [|discriminate X].
  exists w1, w', chand. split; [reflexivity|]. split; [exact Run|]. split; [exact Setup|].
  apply (registered_method_stays_routed "/svc/M"%string (Some "h1"%string) 0
           trace_register_then_setup init_world w1 w' sample_mdctx chand
           reachable_init eq_refl S1 Run Setup "h1"%string).
  left. reflexivity.
Defined.



(** X3.  The insertion loop of [grpc_server_setup_transport] terminates for
    every non-empty list of registered methods: the table it builds has two
    slots for each method, exactly one filled slot for each method, every
    method within [registered_method_max_probes] probes of its hash, and no
    filled slot that is not a registered method. *)
Theorem setup_transport_builds_table md rms :
  rms <> [] ->
  (2 * Z.of_nat (List.length rms) <= uint32_max)%Z ->
  exists chand tbl,
    setup_channel_data md rms = Some chand /\
    registered_methods_tbl chand = Some tbl /\
    registered_method_slots chand = (2 * Z.of_nat (List.length rms))%Z /\
    List.length tbl = 2 * List.length rms /\
    occupied tbl = List.length rms /\
    (0 <= registered_method_max_probes chand)%Z /\
    (forall rm, In rm rms ->
       exists p, (0 <= p <= registered_method_max_probes chand)%Z /\
                 slot_at tbl (registered_method_slots chand) (rm_hash md rm) p =
                   Some (crm_of rm)) /\
    (forall idx e, nth idx tbl None = Some e -> exists rm, In rm rms /\ e = crm_of rm).
Proof.
  intros N B. destruct (setup_channel_data_total md rms B) as (chand & E & _ & T).
  destruct rms as [|rm0 rms0]; [congruence|].
  destruct T as (tbl & Et & Es & OK). exists chand, tbl.
  destruct OK as [L C M P S]. cbn [fst snd] in L, C, M, P, S.
  split; [exact E|]. split; [exact Et|]. split; [exact Es|].
  split; [rewrite L, Es; lia|].
  split; [rewrite C, length_rev; reflexivity|].
  split; [exact M|]. split.
  - intros rm I. apply P. apply in_rev in I. exact I.
  - intros idx e Hn. destruct (S idx e Hn) as (rm & I & Ee).
    exists rm. split; [apply in_rev; exact I | exact Ee].
Qed.

Lemma setup_transport_builds_table_witness :
  exists chand tbl,
    setup_channel_data sample_mdctx
      [{| rm_handle := 0; rm_method := "/svc/M"%string; rm_host := None |}] = Some chand /\
    registered_methods_tbl chand = Some tbl /\
    List.length tbl = 2 /\ occupied tbl = 1.
Proof.
  destruct (setup_transport_builds_table sample_mdctx
              [{| rm_handle := 0; rm_method := "/svc/M"%string; rm_host := None |}])
    as (chand & tbl & A & B & _ & D & E & _).
  - discriminate.
  - vm_compute. discriminate.
  - exists chand, tbl. repeat split; assumption.
Defined.

Lemma transfers_inv w w' moved :
  (forall p x, holds w p x -> (0 <= x < 32768)%Z) ->
  (forall p q x, holds w p x -> holds w q x -> p = q) ->
  transfers w w' moved ->
  (forall p x, holds w' p x -> (0 <= x < 32768)%Z) /\
  (forall p q x, holds w' p x -> holds w' q x -> p = q).
Proof.
  intros Rg Un T. destruct moved as [[[src dst] id0]|]; simpl in T.
  - destruct T as [S T]. split.
    + intros p x H. destruct (T p x H) as [[_ E]|[H' _]]; [subst x|]; eauto.
    + intros p q x Hp Hq.
      destruct (T p x Hp) as [[Ep Ex]|[Hp' Np]];
        destruct (T q x Hq) as [[Eq Ex']|[Hq' Nq]].
      * congruence.
      * subst x. pose proof (Un _ _ _ Hq' S) as E. exfalso. apply (Nq E). reflexivity.
      * subst x. pose proof (Un _ _ _ Hp' S) as E. exfalso. apply (Np E). reflexivity.
      * eauto.
  - split.
    + intros p x H. eauto.
    + intros p q x Hp Hq. eauto.
Qed.

Lemma live_app w cs i id :
  live (set_completions (completions w ++ cs) w) i id ->
  live w i id \/
  (List.length (completions w) <= i /\
   exists cmp, nth_error cs (i - List.length (completions w)) = Some cmp /\
               comp_done cmp = done_request_event (Slot id)).
Proof.
  intros (cmp & N & D & C). simpl in *.
  destruct (Nat.lt_ge_cases i (List.length (completions w))) as [L|L].
  - left. rewrite nth_error_app1 in N by exact L. exists cmp. auto.
  - right. split; [exact L|]. rewrite nth_error_app2 in N by exact L. exists cmp. auto.
Qed.

Lemma NoDup_remove_first {A} (eqb : A -> A -> bool) x l :
  (forall a b, eqb a b = true <-> a = b) ->
  NoDup l ->
  NoDup (remove_first eqb x l) /\
  (forall y, In y (remove_first eqb x l) -> In y l /\ y <> x).
Proof.
  intros E. induction l as [|a l IH]; simpl; intros N.
  - split; [constructor | tauto].
  - apply NoDup_cons_iff in N. destruct N as [Na N].
    destruct (IH N) as (I1 & I2).
    destruct (eqb x a) eqn:X.
    + apply E in X. subst a. split; [exact N|].
      intros y Hy. split; [right; exact Hy|]. intros ->. contradiction.
    + assert (Nx : x <> a).
      { intros ->. rewrite (proj2 (E a a) eq_refl) in X. discriminate X. }
      split.
      * constructor; [|exact I1]. intros I. apply Na. apply (I2 a I).
      * intros y [<-|Hy].
        -- split; [left; reflexivity | congruence].
        -- destruct (I2 y Hy) as [J1 J2]. split; [right; exact J1 | exact J2].
Qed.

Lemma ioreq_eqb_eq a b : ioreq_eqb a b = true <-> a = b.
Proof.
  destruct a as [c x], b as [c' x']. unfold ioreq_eqb. simpl.
  rewrite andb_true_iff, Nat.eqb_eq, Z.eqb_eq. split.
  - intros [-> ->]. reflexivity.
  - intros E. inversion E. auto.
Qed.

Lemma slots_inv_intro w w' moved :
  slots_inv w ->
  transfers w w' moved ->
  max_requested_calls (server w') = 32768%Z ->
  NoDup (request_freelist (server w')) ->
  (forall rm, NoDup (requests (matcher w' rm))) ->
  NoDup (started_ioreqs w') ->
  (forall i, In i (consumed w') -> i < List.length (completions w')) ->
  slots_inv w'.
Proof.
  intros [A B C D E F G] T M N1 N2 N3 N4.
  destruct (transfers_inv w w' moved B C T) as [B' C'].
  constructor; assumption.
Qed.

Lemma In_nth_error_lt {A} (l : list A) i x : nth_error l i = Some x -> i < List.length l.
Proof. intros H. apply nth_error_Some. congruence. Qed.

Lemma nth_error_app_cases {A} (l cs : list A) i c :
  nth_error (l ++ cs) i = Some c ->
  nth_error l i = Some c \/
  (i = List.length l + (i - List.length l) /\
   nth_error cs (i - List.length l) = Some c /\ In c cs).
Proof.
  intros H. destruct (Nat.lt_ge_cases i (List.length l)) as [L|L].
  - left. rewrite nth_error_app1 in H by exact L. exact H.
  - right. rewrite nth_error_app2 in H by exact L.
    split; [lia|]. split; [exact H|]. exact (nth_error_In _ _ H).
Qed.

Lemma nth_error_single {A} (a c : A) k :
  nth_error [a] k = Some c -> k = 0 /\ c = a.
Proof.
  destruct k as [|[|k]]; simpl; intros H; inversion H; auto.
Qed.

Lemma shutdown_completion_not_slot tags cmp x :
  In cmp (map shutdown_completion tags) ->
  comp_done cmp <> done_request_event (Slot x).
Proof.
  intros I. apply in_map_iff in I. destruct I as (sdt & <- & _). simpl. discriminate.
Qed.

(** Completions that are appended and carry no slot change nothing. *)
Ltac old_live Hp :=
  let cmp := fresh "cmp" in let Hn := fresh "Hn" in
  let Hd := fresh "Hd" in let Hc := fresh "Hc" in
  destruct Hp as (cmp & Hn & Hd & Hc);
  try (apply nth_error_app_cases in Hn;
       destruct Hn as [Hn|(_ & _ & Hn)];
       [|exfalso;
         first [ exact (shutdown_completion_not_slot _ _ _ Hn Hd)
               | simpl in Hn; destruct Hn as [Hn|[]]; subst cmp; discriminate Hd ]]);
  exists cmp; split; [exact Hn|]; split; [exact Hd|]; simpl in Hc; tauto.

Ltac subset_transfer :=
  let p := fresh "p" in let x := fresh "x" in let Hp := fresh "Hp" in
  intros p x Hp; destruct p; simpl in Hp |- *; unfold matcher in *; simpl in Hp |- *;
  unfold upd_nat, upd_matcher in *; case_eqb; simpl in Hp |- *;
  try discriminate; try assumption; try contradiction;
  try (unfold live in *; simpl in Hp |- *; old_live Hp).

Ltac f_simple I := destruct I; simpl; assumption.

Ltac f_stack I :=
  let rm := fresh "rm" in
  intros rm; destruct I as [? ? ? ? Ist ? ?]; unfold matcher in *; simpl;
  unfold upd_matcher; case_eqb; simpl; try apply Ist; constructor.

Ltac f_consumed I :=
  let i := fresh "i" in let Hi := fresh "Hi" in
  destruct I as [? ? ? ? ? ? Ic]; simpl; intros i Hi;
  rewrite ?length_app; simpl;
  try (destruct Hi as [<-|Hi];
       [match goal with Hn : nth_error _ _ = Some _ |- _ =>
          apply In_nth_error_lt in Hn; exact Hn end|]);
  apply Ic in Hi; lia.

Ltac destruct_pops :=
  repeat match goal with
  | Hp : match ?L with [] => _ | _ :: _ => _ end = (_, _) |- _ =>
      let E := fresh "E" in
      destruct L eqn:E; inversion Hp; subst; clear Hp
  end;
  try match goal with
  | H : ((-1) =? -1)%Z = false |- _ => discriminate H
  end.

Ltac choose_move w I :=
  match goal with
  | Hr : on_recv _ ?c = R_pop ?rm, E : requests _ = ?z :: _ |- _ =>
      apply (slots_inv_intro w _ (Some (P_matcher rm, P_ioreq c, z)))
  | Ht : threads _ ?t = T_queue_freelist _, E : request_freelist _ = ?z :: _ |- _ =>
      apply (slots_inv_intro w _ (Some (P_free, P_thread t, z)))
  | Ht : threads _ ?t = T_queue_push ?rc ?z |- _ =>
      apply (slots_inv_intro w _ (Some (P_thread t, P_matcher (rc_matcher rc), z)))
  | Ht : threads _ ?t = T_drain ?rm, E : requests _ = ?z :: _ |- _ =>
      apply (slots_inv_intro w _ (Some (P_matcher rm, P_thread t, z)))
  | Ht : threads _ ?t = T_drain_call _ ?c ?z |- _ =>
      apply (slots_inv_intro w _ (Some (P_thread t, P_ioreq c, z)))
  | Ht : threads _ ?t = T_kill_pending_work _ (?m :: _) W_kill, E : requests _ = ?z :: _ |- _ =>
      apply (slots_inv_intro w _
               (Some (P_matcher m, P_done (List.length (completions w)), z)))
  | Hx : In (?c, ?z) (started_ioreqs _) |- _ =>
      apply (slots_inv_intro w _
               (Some (P_ioreq c, P_done (List.length (completions w)), z)))
  | Hn : nth_error _ ?i = Some ?cmp, Hd : comp_done ?cmp = done_request_event (Slot ?z) |- _ =>
      apply (slots_inv_intro w _ (Some (P_done i, P_free, z)))
  end; [exact I | | | | | |].

Lemma not_existsb_eqb_In c l : existsb (Nat.eqb c) l = false -> ~ In c l.
Proof.
  intros H I. assert (E : existsb (Nat.eqb c) l = true).
  { apply existsb_exists. exists c. split; [exact I | apply Nat.eqb_refl]. }
  congruence.
Qed.

Ltac nodup_facts I :=
  let F := fresh "F" in
  pose proof (sl_free I) as F;
  repeat match goal with
  | E : requests (matchers (server ?w) ?rm) = _ :: _ |- _ =>
      lazymatch goal with
      | _ : NoDup (requests (matchers (server w) rm)) |- _ => fail
      | _ => let N := fresh "N" in
             pose proof (sl_stack I rm) as N; unfold matcher in N
      end
  end;
  repeat match goal with
  | E : ?L = _ :: _, N : NoDup ?L |- _ =>
      rewrite E in N; apply NoDup_cons_iff in N; destruct N
  end;
  repeat match goal with
  | H : existsb (ioreq_eqb _) _ = true |- _ => apply existsb_ioreq_In in H
  | H : existsb (Nat.eqb _) _ = false |- _ => apply not_existsb_eqb_In in H
  end.

Ltac holds_src :=
  simpl; unfold matcher;
  first [ assumption
        | match goal with E : ?L = _ :: _ |- In _ ?L => rewrite E; left; reflexivity end
        | match goal with Ht : threads _ _ = _ |- _ => rewrite Ht; reflexivity end
        | match goal with
          | Hn : nth_error _ _ = Some ?cmp |- live _ _ _ =>
              exists cmp; split; [exact Hn|]; split; assumption
          end ].

Ltac new_or_old Hp :=
  first
    [ (* the id has arrived here *)
      left; split; [reflexivity | congruence]
    | right; split;
      [ first [ assumption
              | match goal with E : ?L = _ :: _ |- In _ ?L => rewrite E; right; assumption end
              | match goal with E : ?L = _ :: _ |- In _ ?L => rewrite E; exact Hp end ]
      | let Eq := fresh "Eq" in
        intros Eq; try discriminate Eq; try (inversion Eq; subst);
        try congruence;
        try (intros ->; contradiction) ] ].

Ltac moved_live I Hp :=
  let cmp := fresh "cmp" in let Hn := fresh "Hn" in
  let Hd := fresh "Hd" in let Hc := fresh "Hc" in
  unfold live in Hp; simpl in Hp; destruct Hp as (cmp & Hn & Hd & Hc);
  try (apply nth_error_app_cases in Hn;
       destruct Hn as [Hn|(Hi & Hn & _)];
       [|apply nth_error_single in Hn; destruct Hn as [Hk ->]; simpl in Hd;
         inversion Hd; subst; left; split; [f_equal; lia | reflexivity]]);
  right; split;
  [ exists cmp; split; [exact Hn|]; split; [exact Hd | tauto]
  | let Eq := fresh "Eq" in
    intros Eq; try discriminate Eq; inversion Eq; subst; exfalso; tauto ].

Ltac moved_transfer I :=
  split; [holds_src|];
  let p := fresh "p" in let x := fresh "x" in let Hp := fresh "Hp" in
  intros p x Hp; destruct p; simpl in Hp |- *; unfold matcher in *; simpl in Hp |- *;
  unfold upd_nat, upd_matcher in *; case_eqb; simpl in Hp |- *;
  try discriminate;
  try (apply in_app_iff in Hp; simpl in Hp; destruct Hp as [Hp|[Hp|[]]];
       [|inversion Hp; subst]);
  try (destruct Hp as [Hp|Hp]; [subst|]);
  try (apply (NoDup_remove_first ioreq_eqb _ _ ioreq_eqb_eq (sl_ioreqs I)) in Hp;
       destruct Hp as [Hp ?]);
  first [ new_or_old Hp | moved_live I Hp | idtac ].

Lemma holds_thread w t th x :
  threads w t = th -> thread_request th = Some x -> holds w (P_thread t) x.
Proof. intros H E. simpl. rewrite H. exact E. Qed.

Ltac gather_holds :=
  repeat match goal with
  | E : ?L = ?z :: _ |- _ =>
      lazymatch goal with
      | _ : In z L |- _ => fail
      | _ => assert (In z L) by (rewrite E; left; reflexivity)
      end
  end;
  repeat match goal with
  | H : In ?x (request_freelist (server ?w)) |- _ =>
      add_fact (H : holds w P_free x)
  | H : In ?x (requests (matchers (server ?w) ?rm)) |- _ =>
      add_fact (H : holds w (P_matcher rm) x)
  | H : In (?c, ?x) (started_ioreqs ?w) |- _ =>
      add_fact (H : holds w (P_ioreq c) x)
  | H : threads ?w ?t = T_queue_push ?rc ?x |- _ =>
      add_fact (holds_thread w t _ x H eq_refl)
  | H : threads ?w ?t = T_drain_call ?rm ?c ?x |- _ =>
      add_fact (holds_thread w t _ x H eq_refl)
  | Hn : nth_error (completions ?w) ?i = Some ?cmp,
    Hd : comp_done ?cmp = done_request_event (Slot ?x),
    Hc : ~ In ?i (consumed ?w) |- _ =>
      add_fact (ex_intro _ cmp (conj Hn (conj Hd Hc)) : holds w (P_done i) x)
  end.

Ltac clash I :=
  gather_holds;
  match goal with
  | Hp : holds ?w ?p ?x, Hq : holds ?w ?q ?x |- _ =>
      let Eq := fresh "Eq" in
      pose proof (sl_unique I p q x Hp Hq) as Eq; discriminate Eq
  end.

Ltac f_stack_moved I :=
  let rm := fresh "rm" in
  intros rm; unfold matcher in *; simpl;
  unfold upd_matcher; case_eqb; simpl;
  first [ assumption
        | apply (sl_stack I)
        | constructor; [let Hin := fresh "Hin" in intros Hin; clash I | apply (sl_stack I)] ].

Ltac f_list_moved I :=
  simpl;
  first [ assumption
        | apply (sl_ioreqs I)
        | apply (proj1 (NoDup_remove_first ioreq_eqb _ _ ioreq_eqb_eq (sl_ioreqs I)))
        | apply NoDup_snoc; [apply (sl_ioreqs I) | let Hin := fresh "Hin" in intros Hin; clash I]
        | constructor; [let Hin := fresh "Hin" in intros Hin; clash I | apply (sl_free I)] ].

Lemma slots_inv_step l w w' : slots_inv w -> step l w = Some w' -> slots_inv w'.
Proof.
  intros I H. unfold_step H.
  all: try (apply (slots_inv_intro w _ None); [exact I | | | | | |];
            [ subset_transfer | f_simple I | f_simple I | f_stack I | f_simple I
            | f_consumed I ]; fail).
  all: destruct_pops.
  all: nodup_facts I.
  all: choose_move w I.
  all: try (f_simple I).
  all: try (f_consumed I).
  all: try (f_stack_moved I; fail).
  all: try (f_list_moved I; fail).
  all: moved_transfer I.
Qed.

Lemma freelist_iter p :
  let r := Pos.iter (fun q : list Z * Z => (snd q :: fst q, (snd q + 1)%Z)) ([], 0%Z) p in
  snd r = Zpos p /\ NoDup (fst r) /\ forall x, In x (fst r) -> (0 <= x < Zpos p)%Z.
Proof.
  apply (Pos.iter_ind _
           (fun q : list Z * Z => (snd q :: fst q, (snd q + 1)%Z)) ([], 0%Z)
           (fun p r => snd r = Zpos p /\ NoDup (fst r) /\
                       forall x, In x (fst r) -> (0 <= x < Zpos p)%Z)).
  - simpl. split; [reflexivity|]. split.
    + constructor; [simpl; tauto | constructor].
    + intros x [<-|[]]. lia.
  - intros q [l k] (A & B & C). simpl in *. subst k. split; [lia|]. split.
    + constructor; [|exact B]. intros I. apply C in I. lia.
    + intros x [<-|I]; [lia|]. apply C in I. lia.
Qed.

Lemma freelist_init_ok p :
  NoDup (freelist_init (Zpos p)) /\
  forall x, In x (freelist_init (Zpos p)) -> (0 <= x < Zpos p)%Z.
Proof.
  destruct (freelist_iter p) as (_ & B & C). split; assumption.
Qed.

Lemma init_freelist : request_freelist (server init_world) = freelist_init 32768.
Proof. reflexivity. Qed.

Lemma holds_def w p x :
  holds w p x ->
  match p with
  | P_free => In x (request_freelist (server w))
  | P_matcher rm => In x (requests (matchers (server w) rm))
  | P_thread t => thread_request (threads w t) = Some x
  | P_ioreq c => In (c, x) (started_ioreqs w)
  | P_done i => exists cmp, nth_error (completions w) i = Some cmp
  end.
Proof.
  destruct p; intros H; try exact H.
  destruct H as (cmp & Hn & _). exists cmp. exact Hn.
Qed.

Lemma slots_inv_init : slots_inv init_world.
Proof.
  destruct (freelist_init_ok 32768%positive) as [N R].
  assert (X : forall p x, holds init_world p x ->
                p = P_free /\ In x (freelist_init 32768)).
  { intros p x H. apply holds_def in H. destruct p as [|rm|t|c|i].
    - rewrite init_freelist in H. split; [reflexivity | exact H].
    - destruct H.
    - discriminate H.
    - destruct H.
    - destruct H as (cmp & Hn). destruct i; discriminate Hn. }
  constructor.
  - reflexivity.
  - intros p x H. destruct (X p x H) as [_ I]. exact (R x I).
  - intros p q x Hp Hq. destruct (X p x Hp) as [-> _]. destruct (X q x Hq) as [-> _].
    reflexivity.
  - rewrite init_freelist. exact N.
  - intros rm. constructor.
  - constructor.
  - intros i [].
Qed.

Lemma slots_inv_reachable w : reachable w -> slots_inv w.
Proof.
  induction 1 as [|w l w' R IH H]; [exact slots_inv_init|].
  exact (slots_inv_step l w w' IH H).
Qed.

Lemma bounded_NoDup_length (l : list Z) n :
  NoDup l -> (forall x, In x l -> (0 <= x < Z.of_nat n)%Z) -> List.length l <= n.
Proof.
  intros N R.
  assert (N' : NoDup (map Z.to_nat l)).
  { induction N as [|a l Na N IH]; simpl; constructor.
    - intros I. apply in_map_iff in I. destruct I as (y & E & Hy).
      assert (a = y).
      { pose proof (R a (or_introl eq_refl)). pose proof (R y (or_intror Hy)). lia. }
      subst y. contradiction.
    - apply IH. intros x Hx. apply R. right. exact Hx. }
  assert (I : incl (map Z.to_nat l) (seq 0 n)).
  { intros k Hk. apply in_map_iff in Hk. destruct Hk as (x & <- & Hx).
    apply R in Hx. apply in_seq. lia. }
  pose proof (NoDup_incl_length N' I) as L.
  rewrite length_map, length_seq in L. exact L.
Qed.

(** X9.  In every reachable state each request id that is held somewhere (on
    the freelist, on the stack of a matcher, in the local variable of a
    thread, by a started ioreq, by a completion whose done callback has not
    run) is an index of [requested_calls], and it is held in one place only
    and once: a slot in use is never handed out again, no stack holds more
    than [max_requested_calls] entries, and a pop yields -1 only on an empty
    stack. *)
Theorem request_ids_are_conserved w :
  reachable w ->
  (forall p x, holds w p x -> (0 <= x < max_requested_calls (server w))%Z) /\
  (forall p q x, holds w p x -> holds w q x -> p = q) /\
  NoDup (request_freelist (server w)) /\
  (forall rm, NoDup (requests (matcher w rm))) /\
  (Z.of_nat (List.length (request_freelist (server w))) <= 32768)%Z /\
  (forall rm, (Z.of_nat (List.length (requests (matcher w rm))) <= 32768)%Z) /\
  (forall rm, fst (gpr_stack_lockfree_pop (requests (matcher w rm))) = (-1)%Z <->
              requests (matcher w rm) = []).
Proof.
  intros R. destruct (slots_inv_reachable w R) as [M Rg Un Fr St Io Co].
  split; [intros p x H; rewrite M; exact (Rg p x H)|].
  split; [exact Un|]. split; [exact Fr|]. split; [exact St|].
  split; [|split].
  - pose proof (bounded_NoDup_length _ (Z.to_nat 32768) Fr) as L.
    rewrite Z2Nat.id in L by lia.
    specialize (L (fun x I => Rg P_free x I)). lia.
  - intros rm. pose proof (bounded_NoDup_length _ (Z.to_nat 32768) (St rm)) as L.
    rewrite Z2Nat.id in L by lia.
    specialize (L (fun x I => Rg (P_matcher rm) x I)). lia.
  - intros rm. unfold gpr_stack_lockfree_pop.
    destruct (requests (matcher w rm)) as [|x rest] eqn:E; simpl.
    + split; reflexivity.
    + split; [|discriminate]. intros ->.
      assert (I : holds w (P_matcher rm) (-1)%Z) by (simpl; rewrite E; left; reflexivity).
      apply Rg in I. lia.
Qed.

Lemma request_ids_are_conserved_witness :
  (0 <= 32767 < max_requested_calls (server (from_run trace_drain_finds_zombie)))%Z /\
  forall rm, ~ holds (from_run trace_drain_finds_zombie) (P_matcher rm) 32767%Z.
Proof.
  destruct (request_ids_are_conserved _ (reachable_from_run trace_drain_finds_zombie))
    as (A & B & _).
  assert (T : threads (from_run trace_drain_finds_zombie) 0 = T_drain_call None 0 32767%Z)
    by (vm_compute; reflexivity).
  pose proof (holds_thread _ 0 _ 32767%Z T eq_refl) as Ht.
  split; [exact (A _ _ Ht)|].
  intros rm I. pose proof (B _ _ _ I Ht) as E. discriminate E.
Defined.

Lemma run_thread_add a t : forall b w,
  run_thread (a + b) t w = run_thread b t (run_thread a t w).
Proof.
  induction a as [|a IH]; intros b w; simpl; [reflexivity|].
  destruct (thread_step t w) as [w1|] eqn:E; [apply IH|].
  destruct b; simpl; [reflexivity|]. rewrite E. reflexivity.
Qed.

Lemma server_frame_refl s : server_frame s s.
Proof. constructor; reflexivity. Qed.

Lemma server_frame_trans s1 s2 s3 :
  server_frame s1 s2 -> server_frame s2 s3 -> server_frame s1 s3.
Proof. intros [] []. constructor; congruence. Qed.

Lemma kill_step t locked m rest x R w :
  threads w t = T_kill_pending_work locked (m :: rest) W_kill ->
  requests (matcher w m) = x :: R ->
  (x =? -1)%Z = false ->
  thread_step t w =
    Some (fail_call (requested_calls (server w) x) (Slot x)
            (set_matcher m (set_requests R (matcher w m)) w)).
Proof.
  intros T E N. unfold thread_step. rewrite T. cbn [shutdown_step walk_step].
  rewrite E. cbn [gpr_stack_lockfree_pop]. rewrite N. reflexivity.
Qed.

Lemma kill_requests_pass t locked m rest R : forall w,
  threads w t = T_kill_pending_work locked (m :: rest) W_kill ->
  requests (matcher w m) = R ->
  ~ In (-1)%Z R ->
  let w' := run_thread (List.length R + 1) t w in
  threads w' t = T_kill_pending_work locked (m :: rest) W_zread /\
  requests (matcher w' m) = [] /\
  pending_head (matcher w' m) = pending_head (matcher w m) /\
  pending_tail (matcher w' m) = pending_tail (matcher w m) /\
  (forall rm, rm <> m -> matcher w' rm = matcher w rm) /\
  completions w' = completions w ++ killed_requests (server w) R /\
  (forall a, call_out w' a =
             if existsb (fun x => Z.eqb a (call (requested_calls (server w) x))) R
             then None else call_out w a) /\
  (forall a, md_count w' a =
             if existsb (fun x => Z.eqb a (rc_initial_metadata
                                             (requested_calls (server w) x))) R
             then 0%Z else md_count w a) /\
  calls w' = calls w /\
  kill_scheduled w' = kill_scheduled w /\
  server_frame (server w) (server w') /\
  (forall t', t' <> t -> threads w' t' = threads w t').
Proof.
  induction R as [|x R IH]; intros w T E N w'; subst w'.
  - cbn [List.length Nat.add run_thread]. unfold thread_step. rewrite T.
    cbn [shutdown_step walk_step]. unfold matcher in *. rewrite E.
    cbn [gpr_stack_lockfree_pop]. simpl. unfold upd_nat. rewrite Nat.eqb_refl.
    rewrite app_nil_r.
    repeat split; auto.
    intros t' Ht. destruct (Nat.eqb_spec t' t); [contradiction|reflexivity].
  - assert (Nx : (x =? -1)%Z = false).
    { apply Z.eqb_neq. intros ->. apply N. left. reflexivity. }
    cbn [List.length Nat.add run_thread].
    rewrite (kill_step t locked m rest x R w T E Nx).
    set (w1 := fail_call (requested_calls (server w) x) (Slot x)
                 (set_matcher m (set_requests R (matcher w m)) w)).
    assert (T1 : threads w1 t = T_kill_pending_work locked (m :: rest) W_kill) by exact T.
    assert (E1 : requests (matcher w1 m) = R).
    { subst w1. unfold matcher. simpl. rewrite upd_matcher_same. reflexivity. }
    assert (N1 : ~ In (-1)%Z R) by (intros I; apply N; right; exact I).
    destruct (IH w1 T1 E1 N1)
      as (A1 & A2 & A3 & A4 & A5 & A6 & A7 & A8 & A9 & A10 & A11 & A12).
    assert (S1 : requested_calls (server w1) = requested_calls (server w)) by reflexivity.
    split; [exact A1|]. split; [exact A2|].
    split; [rewrite A3; subst w1; unfold matcher; simpl; rewrite upd_matcher_same;
            reflexivity|].
    split; [rewrite A4; subst w1; unfold matcher; simpl; rewrite upd_matcher_same;
            reflexivity|].
    split.
    { intros rm Hrm. rewrite (A5 rm Hrm). subst w1. unfold matcher. simpl.
      unfold upd_matcher. destruct (matcher_ref_eqb_spec rm m); [contradiction|reflexivity]. }
    split.
    { rewrite A6. subst w1. simpl. unfold killed_requests. simpl.
      rewrite <- app_assoc. reflexivity. }
    split.
    { intros a. rewrite A7. rewrite S1. subst w1. simpl. unfold upd_Z.
      destruct (Z.eqb a (call (requested_calls (server w) x))); simpl.
      - destruct (existsb _ R); reflexivity.
      - reflexivity. }
    split.
    { intros a. rewrite A8. rewrite S1. subst w1. simpl. unfold upd_Z.
      destruct (Z.eqb a (rc_initial_metadata (requested_calls (server w) x))); simpl.
      - destruct (existsb _ R); reflexivity.
      - reflexivity. }
    split; [rewrite A9; reflexivity|].
    split; [rewrite A10; reflexivity|].
    split.
    { apply (server_frame_trans _ (server w1)); [|exact A11].
      subst w1. constructor; reflexivity. }
    intros t' Ht. rewrite (A12 t' Ht). reflexivity.
Qed.

Lemma set_state_twice s cd : set_state s (set_state s cd) = set_state s cd.
Proof. destruct cd; reflexivity. Qed.

Lemma zread_step t locked m rest c w :
  threads w t = T_kill_pending_work locked (m :: rest) W_zread ->
  pending_head (matcher w m) = Some c ->
  thread_step t w =
    Some (set_thread t (T_kill_pending_work locked (m :: rest) (W_zdetach c)) w).
Proof.
  intros T H. unfold thread_step. rewrite T. cbn [shutdown_step walk_step].
  rewrite H. reflexivity.
Qed.

Lemma zdetach_step t locked m rest c w :
  threads w t = T_kill_pending_work locked (m :: rest) (W_zdetach c) ->
  thread_step t w =
    Some (set_thread t (T_kill_pending_work locked (m :: rest) (W_zkill c))
            (set_matcher m
               (set_pending_head (pending_next (calls w c)) (matcher w m)) w)).
Proof.
  intros T. unfold thread_step. rewrite T. reflexivity.
Qed.

Lemma zkill_step t locked m rest c w :
  threads w t = T_kill_pending_work locked (m :: rest) (W_zkill c) ->
  thread_step t w =
    Some (set_thread t (T_kill_pending_work locked (m :: rest) (W_zadd c))
            (set_call c (set_state ZOMBIED (calls w c)) w)).
Proof.
  intros T. unfold thread_step. rewrite T. reflexivity.
Qed.

Lemma zadd_step t locked m rest c w :
  threads w t = T_kill_pending_work locked (m :: rest) (W_zadd c) ->
  thread_step t w =
    Some (set_thread t (T_kill_pending_work locked (m :: rest) W_zread)
            (schedule_kill_zombie c w)).
Proof.
  intros T. unfold thread_step. rewrite T. reflexivity.
Qed.

Lemma set_thread_same t th w : threads (set_thread t th w) t = th.
Proof. simpl. unfold upd_nat. rewrite Nat.eqb_refl. reflexivity. Qed.

Lemma set_thread_other t t' th w : t' <> t -> threads (set_thread t th w) t' = threads w t'.
Proof.
  intros H. simpl. unfold upd_nat. destruct (Nat.eqb_spec t' t); [contradiction|reflexivity].
Qed.

Lemma zombify_iteration t locked m rest c w :
  threads w t = T_kill_pending_work locked (m :: rest) W_zread ->
  pending_head (matcher w m) = Some c ->
  exists w3,
    run_thread 4 t w = w3 /\
    threads w3 t = T_kill_pending_work locked (m :: rest) W_zread /\
    matcher w3 m = set_pending_head (pending_next (calls w c)) (matcher w m) /\
    (forall rm, rm <> m -> matcher w3 rm = matcher w rm) /\
    (forall c0, calls w3 c0 =
                if Nat.eqb c0 c then set_state ZOMBIED (calls w c) else calls w c0) /\
    kill_scheduled w3 = kill_scheduled w ++ [c] /\
    completions w3 = completions w /\
    call_out w3 = call_out w /\
    md_count w3 = md_count w /\
    server_frame (server w) (server w3) /\
    (forall t', t' <> t -> threads w3 t' = threads w t').
Proof.
  intros T H. eexists. split.
  { cbn [run_thread]. rewrite (zread_step t locked m rest c w T H).
    rewrite (zdetach_step t locked m rest c _ (set_thread_same _ _ _)).
    rewrite (zkill_step t locked m rest c _ (set_thread_same _ _ _)).
    rewrite (zadd_step t locked m rest c _ (set_thread_same _ _ _)).
    reflexivity. }
  split; [apply set_thread_same|].
  split; [unfold matcher; simpl; rewrite upd_matcher_same; reflexivity|].
  split.
  { intros rm Hrm. unfold matcher. simpl. unfold upd_matcher.
    destruct (matcher_ref_eqb_spec rm m); [contradiction|reflexivity]. }
  split; [intros c0; simpl; unfold upd_nat; reflexivity|].
  split; [reflexivity|]. split; [reflexivity|]. split; [reflexivity|].
  split; [reflexivity|]. split; [constructor; reflexivity|].
  intros t' Ht. simpl. unfold upd_nat.
  destruct (Nat.eqb_spec t' t); [contradiction|reflexivity].
Qed.

Lemma zombify_pass t locked m rest L : forall w,
  threads w t = T_kill_pending_work locked (m :: rest) W_zread ->
  fifo w (pending_head (matcher w m)) L ->
  let w' := run_thread (4 * List.length L + 1) t w in
  threads w' t = T_kill_pending_work locked rest W_kill /\
  pending_head (matcher w' m) = None /\
  requests (matcher w' m) = requests (matcher w m) /\
  pending_tail (matcher w' m) = pending_tail (matcher w m) /\
  (forall rm, rm <> m -> matcher w' rm = matcher w rm) /\
  (forall c, calls w' c =
             if existsb (Nat.eqb c) L then set_state ZOMBIED (calls w c)
             else calls w c) /\
  kill_scheduled w' = kill_scheduled w ++ L /\
  completions w' = completions w /\
  call_out w' = call_out w /\
  md_count w' = md_count w /\
  server_frame (server w) (server w') /\
  (forall t', t' <> t -> threads w' t' = threads w t').
Proof.
  induction L as [|c L IH]; intros w T F w'; subst w'.
  - inversion F as [E|]; subst.
    cbn [List.length Nat.mul Nat.add run_thread]. unfold thread_step. rewrite T.
    cbn [shutdown_step walk_step]. rewrite <- E.
    unfold matcher; simpl. unfold upd_nat. rewrite Nat.eqb_refl. rewrite app_nil_r.
    repeat split; auto.
    intros t' Ht. destruct (Nat.eqb_spec t' t); [contradiction|reflexivity].
  - inversion F as [|c' l' F' E]; subst c' l'.
    replace (4 * List.length (c :: L) + 1) with (4 + (4 * List.length L + 1))
      by (simpl; lia).
    rewrite run_thread_add.
    destruct (zombify_iteration t locked m rest c w T (eq_sym E))
      as (w3 & -> & T3 & M3 & O3 & C3 & K3 & P3 & Q3 & D3 & S3 & X3).
    assert (F3 : fifo w3 (pending_head (matcher w3 m)) L).
    { rewrite M3. simpl. apply (fifo_ext w); [|exact F'].
      intros c0. rewrite C3.
      destruct (Nat.eqb_spec c0 c); [subst; reflexivity | reflexivity]. }
    destruct (IH w3 T3 F3)
      as (A1 & A2 & A3 & A4 & A5 & A6 & A7 & A8 & A9 & A10 & A11 & A12).
    split; [exact A1|]. split; [exact A2|].
    split; [rewrite A3, M3; reflexivity|].
    split; [rewrite A4, M3; reflexivity|].
    split; [intros rm Hrm; rewrite (A5 rm Hrm); exact (O3 rm Hrm)|].
    split.
    { intros c0. rewrite A6, C3. simpl existsb.
      destruct (Nat.eqb_spec c0 c) as [->|Hc]; simpl.
      - rewrite set_state_twice. destruct (existsb (Nat.eqb c) L); reflexivity.
      - reflexivity. }
    split; [rewrite A7, K3, <- app_assoc; reflexivity|].
    split; [rewrite A8; exact P3|].
    split; [rewrite A9; exact Q3|].
    split; [rewrite A10; exact D3|].
    split; [exact (server_frame_trans _ _ _ S3 A11)|].
    intros t' Ht. rewrite (A12 t' Ht). exact (X3 t' Ht).
Qed.

Lemma fifo_det w h L : fifo w h L -> forall L', fifo w h L' -> L = L'.
Proof.
  induction 1 as [|c l F IH]; intros L' F'; inversion F'; subst; auto.
  f_equal. apply IH. assumption.
Qed.

Lemma walk_all t locked ms : forall w,
  threads w t = T_kill_pending_work locked ms W_kill ->
  (forall m, In m ms ->
     ~ In (-1)%Z (requests (matcher w m)) /\
     exists L, fifo w (pending_head (matcher w m)) L) ->
  exists n w',
    run_thread n t w = w' /\
    threads w' t = T_kill_pending_work locked [] W_kill /\
    (forall m, In m ms ->
       requests (matcher w' m) = [] /\ pending_head (matcher w' m) = None) /\
    (forall m, ~ In m ms -> matcher w' m = matcher w m) /\
    (forall c, calls w' c = calls w c \/ calls w' c = set_state ZOMBIED (calls w c)) /\
    (forall m L c, In m ms -> fifo w (pending_head (matcher w m)) L -> In c L ->
       state (calls w' c) = ZOMBIED /\ In c (kill_scheduled w')) /\
    (forall m x, In m ms -> In x (requests (matcher w m)) ->
       In (failed_completion (requested_calls (server w) x) (Slot x)) (completions w')) /\
    (exists ks, kill_scheduled w' = kill_scheduled w ++ ks /\
       forall c, In c ks ->
         exists m L, In m ms /\ fifo w (pending_head (matcher w m)) L /\ In c L) /\
    (exists cs, completions w' = completions w ++ cs /\
       forall cmp, In cmp cs ->
         exists m x, In m ms /\ In x (requests (matcher w m)) /\
                     cmp = failed_completion (requested_calls (server w) x) (Slot x)) /\
    server_frame (server w) (server w') /\
    (forall t', t' <> t -> threads w' t' = threads w t').
Proof.
  induction ms as [|m ms IH]; intros w T H.
  - exists 0, w. simpl. split; [reflexivity|]. split; [exact T|].
    split; [intros m []|]. split; [reflexivity|]. split; [left; reflexivity|].
    split; [intros m L c []|]. split; [intros m x []|].
    split; [exists []; rewrite app_nil_r; split; [reflexivity | intros c []]|].
    split; [exists []; rewrite app_nil_r; split; [reflexivity | intros c []]|].
    split; [apply server_frame_refl | reflexivity].
  - destruct (H m (or_introl eq_refl)) as [N [L F]].
    set (R := requests (matcher w m)) in *.
    destruct (kill_requests_pass t locked m ms R w T eq_refl N)
      as (A1 & A2 & A3 & A4 & A5 & A6 & A7 & A8 & A9 & A10 & A11 & A12).
    set (w1 := run_thread (List.length R + 1) t w) in *.
    assert (E1 : forall c, pending_next (calls w1 c) = pending_next (calls w c))
      by (intros c; rewrite A9; reflexivity).
    assert (F1 : fifo w1 (pending_head (matcher w1 m)) L).
    { rewrite A3. apply (fifo_ext w); assumption. }
    destruct (zombify_pass t locked m ms L w1 A1 F1)
      as (B1 & B2 & B3 & B4 & B5 & B6 & B7 & B8 & B9 & B10 & B11 & B12).
    set (w2 := run_thread (4 * List.length L + 1) t w1) in *.
    assert (E2 : forall c, pending_next (calls w2 c) = pending_next (calls w c)).
    { intros c. rewrite B6, A9. destruct (existsb (Nat.eqb c) L); reflexivity. }
    assert (M2 : forall rm, rm <> m -> matcher w2 rm = matcher w rm).
    { intros rm Hrm. rewrite (B5 rm Hrm). exact (A5 rm Hrm). }
    assert (H2 : forall m', In m' ms ->
                 ~ In (-1)%Z (requests (matcher w2 m')) /\
                 exists L', fifo w2 (pending_head (matcher w2 m')) L').
    { intros m' I. destruct (matcher_ref_eqb_spec m' m) as [->|Hm].
      - rewrite B3, A2, B2. split; [simpl; tauto|]. exists []. constructor.
      - rewrite (M2 m' Hm). destruct (H m' (or_intror I)) as [N' [L' F']].
        split; [exact N'|]. exists L'. apply (fifo_ext w); assumption. }
    destruct (IH w2 B1 H2)
      as (n & w' & Rn & C1 & C2 & C3 & C4 & C5 & C6 & (ks & C7 & C7') &
          (cs & C8 & C8') & C9 & C10).
    assert (S2 : requested_calls (server w2) = requested_calls (server w)).
    { rewrite (sf_calls B11). exact (sf_calls A11). }
    exists ((List.length R + 1) + ((4 * List.length L + 1) + n)), w'.
    split; [rewrite (run_thread_add (List.length R + 1)),
              (run_thread_add (4 * List.length L + 1)); exact Rn|].
    split; [exact C1|].
    assert (Z2 : forall c, In c L -> state (calls w2 c) = ZOMBIED).
    { intros c I. rewrite B6.
      assert (X : existsb (Nat.eqb c) L = true).
      { apply existsb_exists. exists c. split; [exact I | apply Nat.eqb_refl]. }
      rewrite X. reflexivity. }
    split.
    { intros m' [<-|I]; [|exact (C2 m' I)].
      destruct (in_dec (fun a b => match matcher_ref_eqb_spec a b with
                                   | ReflectT _ e => left e
                                   | ReflectF _ e => right e
                                   end) m ms) as [I|I].
      - exact (C2 m I).
      - rewrite (C3 m I). rewrite B3, A2, B2. split; reflexivity. }
    split.
    { intros m' I. rewrite C3 by (intros X; apply I; right; exact X).
      apply M2. intros ->. apply I. left. reflexivity. }
    split.
    { intros c. destruct (C4 c) as [X|X]; rewrite X, B6, A9;
        destruct (existsb (Nat.eqb c) L); rewrite ?set_state_twice; auto. }
    split.
    { intros m' L' c [<-|I] F' Ic.
      - rewrite (fifo_det _ _ _ F' _ F) in Ic.
        split.
        + destruct (C4 c) as [X|X]; rewrite X; [exact (Z2 c Ic) | reflexivity].
        + rewrite C7, B7. apply in_or_app. left. apply in_or_app. right. exact Ic.
      - destruct (matcher_ref_eqb_spec m' m) as [->|Hm].
        + rewrite (fifo_det _ _ _ F' _ F) in Ic.
          split.
          * destruct (C4 c) as [X|X]; rewrite X; [exact (Z2 c Ic) | reflexivity].
          * rewrite C7, B7. apply in_or_app. left. apply in_or_app. right. exact Ic.
        + apply (C5 m' L' c I); [|exact Ic].
          rewrite (M2 m' Hm). apply (fifo_ext w); assumption. }
    split.
    { intros m' x I Ix.
      assert (K : In x R -> In (failed_completion (requested_calls (server w) x) (Slot x))
                              (completions w')).
      { intros IR. rewrite C8, B8, A6. apply in_or_app. left. apply in_or_app. right.
        unfold killed_requests. apply in_map_iff. exists x. split; [reflexivity|exact IR]. }
      destruct I as [<-|I]; [exact (K Ix)|].
      destruct (matcher_ref_eqb_spec m' m) as [->|Hm]; [exact (K Ix)|].
      rewrite <- S2. apply (C6 m' x I). rewrite (M2 m' Hm). exact Ix. }
    split.
    { exists (L ++ ks). split; [rewrite C7, B7, A10, app_assoc; reflexivity|].
      intros c Ic. apply in_app_or in Ic. destruct Ic as [Ic|Ic].
      - exists m, L. split; [left; reflexivity|]. split; assumption.
      - destruct (C7' c Ic) as (m' & L' & I' & F' & Ic').
        destruct (matcher_ref_eqb_spec m' m) as [->|Hm].
        + rewrite B2 in F'. inversion F'; subst. destruct Ic'.
        + exists m', L'. split; [right; exact I'|]. split; [|exact Ic'].
          rewrite (M2 m' Hm) in F'. apply (fifo_ext w2); [|exact F'].
          intros c0. symmetry. apply E2. }
    split.
    { exists (killed_requests (server w) R ++ cs).
      split; [rewrite C8, B8, A6, app_assoc; reflexivity|].
      intros cmp Ic. apply in_app_or in Ic. destruct Ic as [Ic|Ic].
      - unfold killed_requests in Ic. apply in_map_iff in Ic.
        destruct Ic as (x & <- & Ix). exists m, x.
        split; [left; reflexivity|]. split; [exact Ix | reflexivity].
      - destruct (C8' cmp Ic) as (m' & x & I' & Ix & ->).
        destruct (matcher_ref_eqb_spec m' m) as [->|Hm].
        + rewrite B3, A2 in Ix. destruct Ix.
        + exists m', x. split; [right; exact I'|].
          rewrite (M2 m' Hm) in Ix. split; [exact Ix|]. rewrite S2. reflexivity. }
    split; [exact (server_frame_trans _ _ _ (server_frame_trans _ _ _ A11 B11) C9)|].
    intros t' Ht. rewrite (C10 t' Ht), (B12 t' Ht). exact (A12 t' Ht).
Qed.

Lemma run_thread_step t w w1 n :
  thread_step t w = Some w1 -> run_thread (S n) t w = run_thread n t w1.
Proof. intros E. simpl. rewrite E. reflexivity. Qed.

Lemma all_matchers_frame s s' :
  server_frame s s' -> all_matchers s' = all_matchers s.
Proof. intros F. unfold all_matchers. rewrite (sf_methods F). reflexivity. Qed.

Lemma shutdown_and_notify_runs t cq tg w :
  threads w t = T_shutdown_and_notify cq tg ->
  mu_global (server w) = None ->
  mu_call (server w) = None ->
  shutdown_published (server w) = false ->
  shutdown_flag (server w) = false ->
  (forall m, In m (all_matchers (server w)) ->
     ~ In (-1)%Z (requests (matcher w m)) /\
     exists L, fifo w (pending_head (matcher w m)) L) ->
  exists n w',
    run_thread n t w = w' /\
    threads w' t = T_done None /\
    shutdown_flag (server w') = true /\
    mu_global (server w') = None /\
    mu_call (server w') = None /\
    shutdown_tags (server w') =
      shutdown_tags (server w) ++ [{| sd_tag := tg; sd_cq := cq |}] /\
    (forall m, In m (all_matchers (server w)) ->
       requests (matcher w' m) = [] /\ pending_head (matcher w' m) = None) /\
    (forall m L c, In m (all_matchers (server w)) ->
       fifo w (pending_head (matcher w m)) L -> In c L ->
       state (calls w' c) = ZOMBIED /\ In c (kill_scheduled w')) /\
    (forall m x, In m (all_matchers (server w)) -> In x (requests (matcher w m)) ->
       In (failed_completion (requested_calls (server w) x) (Slot x)) (completions w')) /\
    (shutdown_published (server w') = true <->
     channel_ring (server w) = [] /\
     (num_listeners (server w) <= listeners_destroyed (server w))%Z) /\
    (shutdown_published (server w') = true ->
     forall sdt, In sdt (shutdown_tags (server w')) ->
                 In (shutdown_completion sdt) (completions w')) /\
    (forall t', t' <> t -> threads w' t' = threads w t').
Proof.
  intros T G C P F H.
  (* lock mu_global, register the tag *)
  set (tags := shutdown_tags (server w) ++ [{| sd_tag := tg; sd_cq := cq |}]).
  set (w1 := set_thread t T_shutdown_lock_call
               (upd_server (set_mu_global (Some t))
                  (upd_server (fun s => set_shutdown_tags tags s) w))).
  assert (S1 : thread_step t w = Some w1).
  { unfold thread_step. rewrite T. cbn [shutdown_step]. rewrite G, P. simpl.
    rewrite F. reflexivity. }
  (* lock mu_call *)
  set (w2 := set_thread t (T_kill_pending_work true (all_matchers (server w1)) W_kill)
               (upd_server (set_mu_call (Some t)) w1)).
  assert (T1 : threads w1 t = T_shutdown_lock_call)
    by (subst w1; apply set_thread_same).
  assert (C1 : mu_call (server w1) = None) by exact C.
  assert (S2 : thread_step t w1 = Some w2).
  { unfold thread_step. rewrite T1. cbn [shutdown_step]. rewrite C1. reflexivity. }
  assert (AM : all_matchers (server w2) = all_matchers (server w)) by reflexivity.
  assert (T2 : threads w2 t = T_kill_pending_work true (all_matchers (server w)) W_kill)
    by (subst w2; apply set_thread_same).
  assert (H2 : forall m, In m (all_matchers (server w)) ->
                 ~ In (-1)%Z (requests (matcher w2 m)) /\
                 exists L, fifo w2 (pending_head (matcher w2 m)) L).
  { intros m I. destruct (H m I) as [N [L FL]]. split; [exact N|].
    exists L. apply (fifo_ext w); [reflexivity | exact FL]. }
  destruct (walk_all t true (all_matchers (server w)) w2 T2 H2)
    as (n1 & w3 & R3 & T3 & E3 & O3 & C3 & Z3 & K3 & (ks3 & Ks3 & _) &
        (cs3 & Cs3 & _) & SF3 & X3).
  (* unlock mu_call *)
  set (w4 := set_thread t T_shutdown_store_flag (upd_server (set_mu_call None) w3)).
  assert (S4 : thread_step t w3 = Some w4).
  { unfold thread_step. rewrite T3. reflexivity. }
  (* store the flag *)
  set (w5 := set_thread t T_maybe_finish_shutdown (upd_server (set_shutdown_flag true) w4)).
  assert (T4 : threads w4 t = T_shutdown_store_flag)
    by (subst w4; apply set_thread_same).
  assert (S5 : thread_step t w4 = Some w5).
  { unfold thread_step. rewrite T4. reflexivity. }
  (* maybe_finish_shutdown *)
  assert (P5 : shutdown_published (server w5) = false).
  { subst w5 w4. simpl. rewrite (sf_published SF3). exact P. }
  set (w6 := set_thread t (T_kill_pending_work false (all_matchers (server w5)) W_kill) w5).
  assert (T5 : threads w5 t = T_maybe_finish_shutdown)
    by (subst w5; apply set_thread_same).
  assert (F5 : shutdown_flag (server w5) = true) by reflexivity.
  assert (S6 : thread_step t w5 = Some w6).
  { unfold thread_step. rewrite T5. cbn [shutdown_step]. rewrite F5, P5. reflexivity. }
  assert (AM6 : all_matchers (server w5) = all_matchers (server w)).
  { subst w5 w4. unfold all_matchers. simpl. rewrite (sf_methods SF3). reflexivity. }
  assert (T6 : threads w6 t = T_kill_pending_work false (all_matchers (server w)) W_kill).
  { subst w6. rewrite set_thread_same. rewrite AM6. reflexivity. }
  assert (M6 : forall m, matcher w6 m = matcher w3 m) by reflexivity.
  assert (H6 : forall m, In m (all_matchers (server w)) ->
                 ~ In (-1)%Z (requests (matcher w6 m)) /\
                 exists L, fifo w6 (pending_head (matcher w6 m)) L).
  { intros m I. rewrite M6. destruct (E3 m I) as [-> ->].
    split; [simpl; tauto|]. exists []. constructor. }
  destruct (walk_all t false (all_matchers (server w)) w6 T6 H6)
    as (n2 & w7 & R7 & T7 & E7 & O7 & C7 & _ & _ & (ks7 & Ks7 & _) &
        (cs7 & Cs7 & _) & SF7 & X7).
  set (w8 := set_thread t T_maybe_finish_check w7).
  assert (S8 : thread_step t w7 = Some w8).
  { unfold thread_step. rewrite T7. reflexivity. }
  (* the facts about the server that the check reads *)
  assert (Ring : channel_ring (server w8) = channel_ring (server w)).
  { subst w8. simpl. rewrite (sf_ring SF7). subst w6 w5 w4. simpl.
    rewrite (sf_ring SF3). reflexivity. }
  assert (Lis : listeners (server w8) = listeners (server w)).
  { subst w8. simpl. rewrite (sf_listeners SF7). subst w6 w5 w4. simpl.
    rewrite (sf_listeners SF3). reflexivity. }
  assert (Des : listeners_destroyed (server w8) = listeners_destroyed (server w)).
  { subst w8. simpl. rewrite (sf_destroyed SF7). subst w6 w5 w4. simpl.
    rewrite (sf_destroyed SF3). reflexivity. }
  assert (Tags : shutdown_tags (server w8) = tags).
  { subst w8. simpl. rewrite (sf_tags SF7). subst w6 w5 w4. simpl.
    rewrite (sf_tags SF3). reflexivity. }
  assert (Flag : shutdown_flag (server w8) = true).
  { subst w8. simpl. rewrite (sf_flag SF7). reflexivity. }
  assert (Pub : shutdown_published (server w8) = false).
  { subst w8. simpl. rewrite (sf_published SF7). exact P5. }
  assert (Call : mu_call (server w8) = None).
  { subst w8. simpl. rewrite (sf_call SF7). reflexivity. }
  assert (M8 : forall m, In m (all_matchers (server w)) ->
                 requests (matcher w8 m) = [] /\ pending_head (matcher w8 m) = None).
  { intros m I. exact (E7 m I). }
  assert (Z8 : forall m L c, In m (all_matchers (server w)) ->
                 fifo w (pending_head (matcher w m)) L -> In c L ->
                 state (calls w8 c) = ZOMBIED /\ In c (kill_scheduled w8)).
  { intros m L c I FL Ic.
    assert (FL2 : fifo w2 (pending_head (matcher w2 m)) L)
      by (apply (fifo_ext w); [reflexivity | exact FL]).
    destruct (Z3 m L c I FL2 Ic) as [Zs Zk]. split.
    - change (state (calls w7 c) = ZOMBIED).
      destruct (C7 c) as [X|X]; rewrite X; [exact Zs | reflexivity].
    - change (In c (kill_scheduled w7)). rewrite Ks7. apply in_or_app. left. exact Zk. }
  assert (K8 : forall m x, In m (all_matchers (server w)) ->
                 In x (requests (matcher w m)) ->
                 In (failed_completion (requested_calls (server w) x) (Slot x))
                    (completions w8)).
  { intros m x I Ix. change (completions w8) with (completions w7).
    rewrite Cs7. apply in_or_app. left. exact (K3 m x I Ix). }
  assert (X8 : forall t', t' <> t -> threads w8 t' = threads w t').
  { intros t' Ht. subst w8. simpl. unfold upd_nat.
    destruct (Nat.eqb_spec t' t); [contradiction|].
    rewrite (X7 t' Ht). subst w6 w5 w4. simpl. unfold upd_nat.
    destruct (Nat.eqb_spec t' t); [contradiction|].
    rewrite (X3 t' Ht). subst w2 w1. simpl. unfold upd_nat.
    destruct (Nat.eqb_spec t' t); [contradiction|reflexivity]. }
  assert (T8 : threads w8 t = T_maybe_finish_check) by (subst w8; apply set_thread_same).
  assert (Run8 : forall k, run_thread (2 + (n1 + (3 + (n2 + (1 + k))))) t w =
                           run_thread k t w8).
  { intros k. cbn [Nat.add]. rewrite (run_thread_step _ _ _ _ S1).
    rewrite (run_thread_step _ _ _ _ S2).
    rewrite run_thread_add, R3. cbn [Nat.add].
    rewrite (run_thread_step _ _ _ _ S4), (run_thread_step _ _ _ _ S5),
            (run_thread_step _ _ _ _ S6).
    rewrite run_thread_add, R7. cbn [Nat.add].
    rewrite (run_thread_step _ _ _ _ S8). reflexivity. }
  (* the check *)
  assert (Cond : negb (match channel_ring (server w8) with [] => true | _ => false end)
                 || (listeners_destroyed (server w8) <? num_listeners (server w8))%Z =
                 negb (match channel_ring (server w) with [] => true | _ => false end)
                 || (listeners_destroyed (server w) <? num_listeners (server w))%Z).
  { unfold num_listeners. rewrite Ring, Lis, Des. reflexivity. }
  destruct (negb (match channel_ring (server w) with [] => true | _ => false end)
            || (listeners_destroyed (server w) <? num_listeners (server w))%Z) eqn:Chk.
  - (* not yet *)
    set (w9 := finish t None (unlock_global w8)).
    assert (S9 : thread_step t w8 = Some w9).
    { unfold thread_step. rewrite T8. cbn [shutdown_step]. rewrite Cond. reflexivity. }
    exists (2 + (n1 + (3 + (n2 + (1 + 1))))), w9.
    split; [rewrite Run8; simpl; rewrite S9; reflexivity|].
    split; [subst w9; apply set_thread_same|].
    split; [exact Flag|]. split; [reflexivity|]. split; [exact Call|].
    split; [exact Tags|]. split; [exact M8|]. split; [exact Z8|]. split; [exact K8|].
    split.
    { change (shutdown_published (server w9)) with (shutdown_published (server w8)).
      rewrite Pub. split; [discriminate|]. intros [Re Le]. exfalso.
      rewrite Re in Chk. simpl in Chk. apply Z.ltb_lt in Chk. lia. }
    split.
    { change (shutdown_published (server w9)) with (shutdown_published (server w8)).
      rewrite Pub. discriminate. }
    intros t' Ht. subst w9. unfold finish. rewrite set_thread_other by exact Ht.
    exact (X8 t' Ht).
  - (* publish *)
    set (w9 := finish t None (unlock_global (publish_shutdown w8))).
    assert (S9 : thread_step t w8 = Some w9).
    { unfold thread_step. rewrite T8. cbn [shutdown_step]. rewrite Cond. reflexivity. }
    assert (E9 : publish_shutdown w8 =
                 set_completions (completions w8 ++ map shutdown_completion tags)
                   (upd_server (set_shutdown_published true) w8)).
    { rewrite publish_shutdown_eq. rewrite Tags. reflexivity. }
    apply orb_false_iff in Chk. destruct Chk as [Re Le].
    apply negb_false_iff in Re. apply Z.ltb_ge in Le.
    exists (2 + (n1 + (3 + (n2 + (1 + 1))))), w9.
    split; [rewrite Run8; simpl; rewrite S9; reflexivity|].
    split; [subst w9; apply set_thread_same|].
    subst w9. rewrite E9.
    split; [exact Flag|]. split; [reflexivity|]. split; [exact Call|].
    split; [exact Tags|]. split; [exact M8|]. split; [exact Z8|].
    split.
    { intros m x I Ix. simpl. apply in_or_app. left. exact (K8 m x I Ix). }
    split.
    { simpl. split; [|reflexivity]. intros _. split.
      - destruct (channel_ring (server w)); [reflexivity|discriminate].
      - exact Le. }
    split.
    { intros _ sdt I.
      change (In sdt (shutdown_tags (server w8))) in I. rewrite Tags in I.
      change (In (shutdown_completion sdt)
                 (completions w8 ++ map shutdown_completion tags)).
      apply in_or_app. right. apply in_map. exact I. }
    intros t' Ht. unfold finish. rewrite set_thread_other by exact Ht.
    exact (X8 t' Ht).
Qed.

(** X10.  [request_matcher_kill_requests], run by a thread on its own on a
    stack [R] that holds no -1, ends after one pop per entry and a last pop
    that yields -1: the stack is empty, [fail_call] has posted one failed
    completion per entry, in the order of the pops, each with the tag and
    the queue of its slot and with [done_request_event] for that slot;
    [*rc->call] is NULL and the metadata count 0 for each of them.  The
    pending list, the other matchers, the calls, the scheduled closures and
    the freelist are untouched: the ids come back only through
    [done_request_event]. *)
Theorem request_matcher_kill_requests_fails_all t locked m rest R w :
  threads w t = T_kill_pending_work locked (m :: rest) W_kill ->
  requests (matcher w m) = R ->
  ~ In (-1)%Z R ->
  let w' := run_thread (List.length R + 1) t w in
  threads w' t = T_kill_pending_work locked (m :: rest) W_zread /\
  requests (matcher w' m) = [] /\
  completions w' = completions w ++ killed_requests (server w) R /\
  (forall x, In x R ->
     call_out w' (call (requested_calls (server w) x)) = None /\
     md_count w' (rc_initial_metadata (requested_calls (server w) x)) = 0%Z) /\
  pending_head (matcher w' m) = pending_head (matcher w m) /\
  (forall rm, rm <> m -> matcher w' rm = matcher w rm) /\
  calls w' = calls w /\
  kill_scheduled w' = kill_scheduled w /\
  request_freelist (server w') = request_freelist (server w).
Proof.
  intros T E N w'.
  destruct (kill_requests_pass t locked m rest R w T E N)
    as (A1 & A2 & A3 & A4 & A5 & A6 & A7 & A8 & A9 & A10 & A11 & A12).
  fold w' in A1, A2, A3, A4, A5, A6, A7, A8, A9, A10, A11, A12.
  split; [exact A1|]. split; [exact A2|]. split; [exact A6|].
  split.
  { intros x I.
    assert (X : forall f, existsb (fun y => Z.eqb (f (requested_calls (server w) x))
                                                  (f (requested_calls (server w) y))) R = true).
    { intros f. apply existsb_exists. exists x. split; [exact I | apply Z.eqb_refl]. }
    rewrite A7, A8. rewrite (X call), (X rc_initial_metadata). split; reflexivity. }
  split; [exact A3|]. split; [exact A5|]. split; [exact A9|]. split; [exact A10|].
  exact (sf_freelist A11).
Qed.

Lemma request_matcher_kill_requests_fails_all_witness :
  requests (matcher (run_thread 2 1 (from_run trace_shutdown_with_ticket)) None) = [] /\
  completions (run_thread 2 1 (from_run trace_shutdown_with_ticket)) =
    completions (from_run trace_shutdown_with_ticket) ++
    killed_requests (server (from_run trace_shutdown_with_ticket)) [32767%Z].
Proof.
  assert (T : threads (from_run trace_shutdown_with_ticket) 1 =
              T_kill_pending_work true [None] W_kill) by (vm_compute; reflexivity).
  assert (E : requests (matcher (from_run trace_shutdown_with_ticket) None) = [32767%Z])
    by (vm_compute; reflexivity).
  assert (N : ~ In (-1)%Z [32767%Z]) by (simpl; intros [X|[]]; discriminate X).
  destruct (request_matcher_kill_requests_fails_all 1 true None [] [32767%Z]
              (from_run trace_shutdown_with_ticket) T E N) as (_ & A & B & _).
  split; [exact A | exact B].
Defined.

(** X11.  [request_matcher_zombify_all_pending_calls], run by a thread on its
    own on a pending list [L], ends after four steps per call (the read of
    the head, the write of the head, the write of the state, the add of the
    closure) and a last read of the empty head: [pending_head] is NULL,
    every call of [L] is ZOMBIED and its [kill_zombie] closure has been
    scheduled, in the order of the list; no other call changes.  The stack
    of requests is left alone, no completion is posted, and [pending_tail]
    keeps its old value, which [finish_start_new_rpc] overwrites when it
    finds the head NULL. *)
Theorem zombify_all_pending_calls_in_order t locked m rest L w :
  threads w t = T_kill_pending_work locked (m :: rest) W_zread ->
  fifo w (pending_head (matcher w m)) L ->
  let w' := run_thread (4 * List.length L + 1) t w in
  threads w' t = T_kill_pending_work locked rest W_kill /\
  pending_head (matcher w' m) = None /\
  kill_scheduled w' = kill_scheduled w ++ L /\
  (forall c, In c L -> calls w' c = set_state ZOMBIED (calls w c)) /\
  (forall c, ~ In c L -> calls w' c = calls w c) /\
  requests (matcher w' m) = requests (matcher w m) /\
  pending_tail (matcher w' m) = pending_tail (matcher w m) /\
  (forall rm, rm <> m -> matcher w' rm = matcher w rm) /\
  completions w' = completions w.
Proof.
  intros T F w'.
  destruct (zombify_pass t locked m rest L w T F)
    as (A1 & A2 & A3 & A4 & A5 & A6 & A7 & A8 & A9 & A10 & A11 & A12).
  fold w' in A1, A2, A3, A4, A5, A6, A7, A8, A9, A10, A11, A12.
  split; [exact A1|]. split; [exact A2|]. split; [exact A7|].
  split.
  { intros c I. rewrite A6.
    assert (X : existsb (Nat.eqb c) L = true).
    { apply existsb_exists. exists c. split; [exact I | apply Nat.eqb_refl]. }
    rewrite X. reflexivity. }
  split.
  { intros c I. rewrite A6.
    destruct (existsb (Nat.eqb c) L) eqn:X; [|reflexivity].
    exfalso. apply I. exact (existsb_eqb_In _ _ X). }
  split; [exact A3|]. split; [exact A4|]. split; [exact A5 | exact A8].
Qed.

Lemma zombify_all_pending_calls_in_order_witness :
  pending_head (matcher (run_thread 5 0 (from_run trace_shutdown_with_pending)) None) = None /\
  kill_scheduled (run_thread 5 0 (from_run trace_shutdown_with_pending)) =
    kill_scheduled (from_run trace_shutdown_with_pending) ++ [0].
Proof.
  assert (T : threads (from_run trace_shutdown_with_pending) 0 =
              T_kill_pending_work true [None] W_zread) by (vm_compute; reflexivity).
  assert (F : fifo (from_run trace_shutdown_with_pending)
                (pending_head (matcher (from_run trace_shutdown_with_pending) None)) [0]).
  { replace (pending_head (matcher (from_run trace_shutdown_with_pending) None))
      with (Some 0) by (vm_compute; reflexivity).
    constructor.
    replace (pending_next (calls (from_run trace_shutdown_with_pending) 0))
      with (@None call_id) by (vm_compute; reflexivity).
    constructor. }
  destruct (zombify_all_pending_calls_in_order 0 true None [] [0]
              (from_run trace_shutdown_with_pending) T F) as (_ & A & B & _).
  split; [exact A | exact B].
Defined.

Lemma fifo_cut w w' :
  (forall c, pending_next (calls w' c) = pending_next (calls w c) \/
             pending_next (calls w' c) = None) ->
  forall o L, fifo w o L -> exists L', fifo w' o L'.
Proof.
  intros E o L F. induction F as [|c l F [L' IH]].
  - exists []. constructor.
  - destruct (E c) as [X|X].
    + exists (c :: L'). constructor. rewrite X. exact IH.
    + exists [c]. constructor. rewrite X. constructor.
Qed.

Lemma fifo_link w w' tl c' :
  tl <> c' ->
  pending_next (calls w c') = None ->
  pending_next (calls w' tl) = Some c' ->
  (forall c, c <> tl -> pending_next (calls w' c) = pending_next (calls w c)) ->
  forall o L, fifo w o L -> exists L', fifo w' o L'.
Proof.
  intros N E1 E2 E o L F. induction F as [|c l F [L' IH]].
  - exists []. constructor.
  - destruct (Nat.eq_dec c tl) as [->|X].
    + exists [tl; c']. constructor. rewrite E2. constructor.
      rewrite (E c') by (intros Y; apply N; symmetry; exact Y).
      rewrite E1. constructor.
    + exists (c :: L'). constructor. rewrite (E c X). exact IH.
Qed.

Lemma chain_preserved w w' :
  (forall c, exists L, fifo w (Some c) L) ->
  (forall c, pending_next (calls w' c) = pending_next (calls w c) \/
             pending_next (calls w' c) = None) \/
  (exists tl c', tl <> c' /\ pending_next (calls w c') = None /\
                 pending_next (calls w' tl) = Some c' /\
                 forall c, c <> tl ->
                           pending_next (calls w' c) = pending_next (calls w c)) ->
  forall c, exists L, fifo w' (Some c) L.
Proof.
  intros H [E|(tl & c' & N & E1 & E2 & E)] c; destruct (H c) as [L F].
  - exact (fifo_cut w w' E _ _ F).
  - exact (fifo_link w w' tl c' N E1 E2 E _ _ F).
Qed.

Lemma chain_inv_step l w w' :
  call_inv w -> chain_inv w -> step l w = Some w' -> chain_inv w'.
Proof.
  intros CI I H. unfold_step H.
  all: destruct I as [J1 J2 J3].
  all: norm_bool.
  all: repeat match goal with
       | H : recv_metadata _ _ _ = (_, _) |- _ => apply recv_metadata_spec in H; simpl in H;
            destruct H as (? & ? & ? & ? & ?)
       end.
  all: try match goal with
       | Ht : on_recv ?w ?c = _ |- _ =>
           let B := fresh "B" in
           pose proof (ci_recv CI c) as B; rewrite Ht in B; simpl in B;
           try (specialize (B eq_refl))
       end.
  all: constructor;
       [ apply (chain_preserved w); [exact J1|]
       | simpl; unfold matcher in *; simpl
       | simpl; unfold matcher in *; simpl ].
  all: try solve [left; intros c0; simpl; unfold upd_nat; case_eqb; simpl; auto].
  all: try solve [intros; unfold upd_nat, upd_matcher in *; simpl in *;
                  case_eqb; simpl in *; try discriminate; break_hyps;
                  repeat match goal with
                  | H : pending_tail (matchers (server _) ?rm) = Some ?c |- _ =>
                      add_fact (J3 rm c H)
                  | H : state (calls _ ?c) = NOT_STARTED |- _ => add_fact (J2 c H)
                  end;
                  break_hyps; rewrite_fields;
                  try solve [intuition (try congruence; try lia)]; eauto].
  all: try solve [left; intros c1; simpl; unfold upd_nat; case_eqb; simpl; auto].
  right. exists c1, c. destruct B as [B1 B2].
  destruct (J3 rm c1 Heqo1) as [T1 T2].
  assert (N : c1 <> c) by (intros ->; apply T2; exact B1).
  split; [exact N|]. split; [exact (J2 c B1)|].
  split.
  - simpl. unfold upd_nat. case_eqb; simpl; try reflexivity; congruence.
  - intros c2 N2. simpl. unfold upd_nat. case_eqb; simpl; try reflexivity; try congruence.
    symmetry. exact (J2 c B1).
Qed.

Lemma chain_inv_init : chain_inv init_world.
Proof.
  constructor.
  - intros c. exists [c]. constructor. simpl. constructor.
  - intros c _. reflexivity.
  - intros rm c H. unfold matcher in H. simpl in H. discriminate H.
Qed.

Lemma chain_inv_reachable w : reachable w -> chain_inv w.
Proof.
  induction 1 as [|w l w' R IH H].
  - exact chain_inv_init.
  - exact (chain_inv_step l w w' (call_inv_reachable R) IH H).
Qed.

Lemma fifo_suffix w c : forall o l,
  fifo w o l -> In c l -> exists l', fifo w (Some c) l' /\ List.length l' <= List.length l.
Proof.
  intros o l F. induction F as [|c0 l F IH]; intros I; [destruct I|].
  destruct I as [->|I].
  - exists (c :: l). split; [constructor; exact F | lia].
  - destruct (IH I) as (l' & F' & Le). exists l'. split; [exact F' | simpl; lia].
Qed.

Lemma fifo_unique w : forall o l, fifo w o l -> forall l', fifo w o l' -> l = l'.
Proof.
  intros o l F. induction F as [|c l F IH]; intros l' F'; inversion F'; subst.
  - reflexivity.
  - f_equal. apply IH. assumption.
Qed.

Lemma fifo_NoDup w : forall o l, fifo w o l -> NoDup l.
Proof.
  intros o l F. induction F as [|c l F IH]; constructor; [|exact IH].
  intros I. destruct (fifo_suffix w c _ _ F I) as (l' & F' & Le).
  pose proof (fifo_unique w _ _ F' _ (@fifo_cons w c l F)) as E.
  subst l'. simpl in Le. lia.
Qed.

Lemma matchers_well_formed w :
  reachable w ->
  forall o, exists L, fifo w o L.
Proof.
  intros R [c|]; [exact (ch_fifo (chain_inv_reachable w R) c)|].
  exists []. constructor.
Qed.

(** X12.  In every reachable state, whatever the interleaving of the appends
    of [finish_start_new_rpc], the pairing drains of [queue_call_request]
    and the walks of [kill_pending_work_locked] (the one made by
    [maybe_finish_shutdown] without [mu_call] included), the pending list
    of every request matcher is a finite chain along [pending_next] without
    repetition, so every loop over it ends.  Each call on it has been
    accepted (its index is below [ncalls]), has its initial metadata and
    has left NOT_STARTED.  Nothing is said about the call being alive: a
    call can be destroyed while it is on the list, see C10. *)
Theorem pending_lists_are_finite_chains w :
  reachable w ->
  forall rm, exists L,
    fifo w (pending_head (matcher w rm)) L /\
    NoDup L /\
    (forall c, In c L ->
       c < ncalls w /\
       state (calls w c) <> NOT_STARTED /\
       got_initial_metadata (calls w c) = true).
Proof.
  intros R rm. destruct (matchers_well_formed w R (pending_head (matcher w rm))) as [L F].
  exists L. split; [exact F|]. split; [exact (fifo_NoDup w _ _ F)|].
  pose proof (call_inv_reachable R) as CI.
  assert (G : forall o l, fifo w o l ->
              (forall c, o = Some c -> linked w c) ->
              forall c, In c l -> linked w c).
  { intros o l F0. induction F0 as [|c0 l F0 IH]; intros Hd c I; [destruct I|].
    destruct I as [->|I]; [exact (Hd c eq_refl)|].
    apply IH; [|exact I]. intros c1 E. exact (@ci_next w CI c0 c1 E). }
  intros c I.
  destruct (G _ _ F (fun c0 E => @ci_head w CI rm c0 E) c I) as (A & B & C).
  split; [exact A|]. split; [exact C | exact B].
Qed.


Lemma pending_lists_are_finite_chains_witness :
  fifo (from_run trace_two_pending)
       (pending_head (matcher (from_run trace_two_pending) None)) [0; 1] /\
  NoDup [0; 1] /\
  (forall c, In c [0; 1] ->
     c < ncalls (from_run trace_two_pending) /\
     state (calls (from_run trace_two_pending) c) <> NOT_STARTED /\
     got_initial_metadata (calls (from_run trace_two_pending) c) = true).
Proof.
  assert (F01 : fifo (from_run trace_two_pending)
                  (pending_head (matcher (from_run trace_two_pending) None)) [0; 1]).
  { replace (pending_head (matcher (from_run trace_two_pending) None))
      with (Some 0) by (vm_compute; reflexivity).
    constructor.
    replace (pending_next (calls (from_run trace_two_pending) 0))
      with (Some 1) by (vm_compute; reflexivity).
    constructor.
    replace (pending_next (calls (from_run trace_two_pending) 1))
      with (@None call_id) by (vm_compute; reflexivity).
    constructor. }
  destruct (pending_lists_are_finite_chains _ (reachable_from_run trace_two_pending) None)
    as (L & F & N & P).
  pose proof (fifo_unique _ _ _ F _ F01) as E. subst L.
  split; [exact F|]. split; [exact N | exact P].
Defined.

Lemma reachable_matchers w :
  reachable w ->
  forall m, ~ In (-1)%Z (requests (matcher w m)) /\
            exists L, fifo w (pending_head (matcher w m)) L.
Proof.
  intros R m. split.
  - intros I. pose proof (sl_range (slots_inv_reachable w R) (P_matcher m) (-1)%Z I). lia.
  - exact (matchers_well_formed w R _).
Qed.

Lemma maybe_finish_shutdown_runs t w :
  threads w t = T_maybe_finish_shutdown ->
  shutdown_flag (server w) = true ->
  shutdown_published (server w) = false ->
  (forall m, In m (all_matchers (server w)) ->
     ~ In (-1)%Z (requests (matcher w m)) /\
     exists L, fifo w (pending_head (matcher w m)) L) ->
  exists n w',
    run_thread n t w = w' /\
    threads w' t = T_done None /\
    mu_global (server w') = None /\
    (forall m, In m (all_matchers (server w)) ->
       requests (matcher w' m) = [] /\ pending_head (matcher w' m) = None) /\
    (forall m L c, In m (all_matchers (server w)) ->
       fifo w (pending_head (matcher w m)) L -> In c L ->
       state (calls w' c) = ZOMBIED /\ In c (kill_scheduled w')) /\
    (forall m x, In m (all_matchers (server w)) -> In x (requests (matcher w m)) ->
       In (failed_completion (requested_calls (server w) x) (Slot x)) (completions w')) /\
    (shutdown_published (server w') = true <->
     channel_ring (server w) = [] /\
     (num_listeners (server w) <= listeners_destroyed (server w))%Z) /\
    (shutdown_published (server w') = true ->
     forall sdt, In sdt (shutdown_tags (server w)) ->
                 In (shutdown_completion sdt) (completions w')) /\
    (shutdown_published (server w') = false ->
     exists cs, completions w' = completions w ++ cs /\
       forall cmp, In cmp cs ->
         exists m x, In m (all_matchers (server w)) /\ In x (requests (matcher w m)) /\
                     cmp = failed_completion (requested_calls (server w) x) (Slot x)) /\
    channel_ring (server w') = channel_ring (server w) /\
    listeners_destroyed (server w') = listeners_destroyed (server w) /\
    shutdown_tags (server w') = shutdown_tags (server w) /\
    (forall t', t' <> t -> threads w' t' = threads w t').
Proof.
  intros T F P H.
  set (w6 := set_thread t (T_kill_pending_work false (all_matchers (server w)) W_kill) w).
  assert (S6 : thread_step t w = Some w6).
  { unfold thread_step. rewrite T. cbn [shutdown_step]. rewrite F, P. reflexivity. }
  assert (T6 : threads w6 t = T_kill_pending_work false (all_matchers (server w)) W_kill)
    by (subst w6; apply set_thread_same).
  assert (H6 : forall m, In m (all_matchers (server w)) ->
                 ~ In (-1)%Z (requests (matcher w6 m)) /\
                 exists L, fifo w6 (pending_head (matcher w6 m)) L).
  { intros m I. destruct (H m I) as [N [L FL]]. split; [exact N|].
    exists L. apply (fifo_ext w); [reflexivity | exact FL]. }
  destruct (walk_all t false (all_matchers (server w)) w6 T6 H6)
    as (n2 & w7 & R7 & T7 & E7 & O7 & C7 & Z7 & K7 & (ks7 & Ks7 & _) &
        (cs7 & Cs7 & Cs7') & SF7 & X7).
  set (w8 := set_thread t T_maybe_finish_check w7).
  assert (S8 : thread_step t w7 = Some w8).
  { unfold thread_step. rewrite T7. reflexivity. }
  assert (Ring : channel_ring (server w8) = channel_ring (server w))
    by exact (sf_ring SF7).
  assert (Lis : listeners (server w8) = listeners (server w))
    by exact (sf_listeners SF7).
  assert (Des : listeners_destroyed (server w8) = listeners_destroyed (server w))
    by exact (sf_destroyed SF7).
  assert (Tags : shutdown_tags (server w8) = shutdown_tags (server w))
    by exact (sf_tags SF7).
  assert (Pub : shutdown_published (server w8) = false).
  { change (shutdown_published (server w7) = false). rewrite (sf_published SF7). exact P. }
  assert (Z8 : forall m L c, In m (all_matchers (server w)) ->
                 fifo w (pending_head (matcher w m)) L -> In c L ->
                 state (calls w8 c) = ZOMBIED /\ In c (kill_scheduled w8)).
  { intros m L c I FL Ic.
    assert (FL2 : fifo w6 (pending_head (matcher w6 m)) L)
      by (apply (fifo_ext w); [reflexivity | exact FL]).
    exact (Z7 m L c I FL2 Ic). }
  assert (X8 : forall t', t' <> t -> threads w8 t' = threads w t').
  { intros t' Ht. subst w8. rewrite set_thread_other by exact Ht.
    rewrite (X7 t' Ht). subst w6. apply set_thread_other. exact Ht. }
  assert (T8 : threads w8 t = T_maybe_finish_check) by (subst w8; apply set_thread_same).
  assert (Run8 : forall k, run_thread (1 + (n2 + (1 + k))) t w = run_thread k t w8).
  { intros k. cbn [Nat.add]. rewrite (run_thread_step _ _ _ _ S6).
    rewrite run_thread_add, R7. cbn [Nat.add].
    rewrite (run_thread_step _ _ _ _ S8). reflexivity. }
  assert (Cond : negb (match channel_ring (server w8) with [] => true | _ => false end)
                 || (listeners_destroyed (server w8) <? num_listeners (server w8))%Z =
                 negb (match channel_ring (server w) with [] => true | _ => false end)
                 || (listeners_destroyed (server w) <? num_listeners (server w))%Z).
  { unfold num_listeners. rewrite Ring, Lis, Des. reflexivity. }
  destruct (negb (match channel_ring (server w) with [] => true | _ => false end)
            || (listeners_destroyed (server w) <? num_listeners (server w))%Z) eqn:Chk.
  - (* not yet *)
    set (w9 := finish t None (unlock_global w8)).
    assert (S9 : thread_step t w8 = Some w9).
    { unfold thread_step. rewrite T8. cbn [shutdown_step]. rewrite Cond. reflexivity. }
    exists (1 + (n2 + (1 + 1))), w9.
    split; [rewrite Run8; simpl; rewrite S9; reflexivity|].
    split; [subst w9; apply set_thread_same|].
    split; [reflexivity|]. split; [exact E7|]. split; [exact Z8|].
    split; [exact K7|].
    split.
    { change (shutdown_published (server w9)) with (shutdown_published (server w8)).
      rewrite Pub. split; [discriminate|]. intros [Re Le]. exfalso.
      rewrite Re in Chk. simpl in Chk. apply Z.ltb_lt in Chk. lia. }
    split.
    { change (shutdown_published (server w9)) with (shutdown_published (server w8)).
      rewrite Pub. discriminate. }
    split.
    { intros _. exists cs7. split; [exact Cs7 | exact Cs7']. }
    split; [exact Ring|]. split; [exact Des|]. split; [exact Tags|].
    intros t' Ht. subst w9. unfold finish. rewrite set_thread_other by exact Ht.
    exact (X8 t' Ht).
  - (* publish *)
    set (w9 := finish t None (unlock_global (publish_shutdown w8))).
    assert (S9 : thread_step t w8 = Some w9).
    { unfold thread_step. rewrite T8. cbn [shutdown_step]. rewrite Cond. reflexivity. }
    assert (E9 : publish_shutdown w8 =
                 set_completions
                   (completions w8 ++ map shutdown_completion (shutdown_tags (server w)))
                   (upd_server (set_shutdown_published true) w8)).
    { rewrite publish_shutdown_eq. rewrite Tags. reflexivity. }
    apply orb_false_iff in Chk. destruct Chk as [Re Le].
    apply negb_false_iff in Re. apply Z.ltb_ge in Le.
    exists (1 + (n2 + (1 + 1))), w9.
    split; [rewrite Run8; simpl; rewrite S9; reflexivity|].
    split; [subst w9; apply set_thread_same|].
    subst w9. rewrite E9.
    split; [reflexivity|]. split; [exact E7|]. split; [exact Z8|].
    split.
    { intros m x I Ix. simpl. apply in_or_app. left. exact (K7 m x I Ix). }
    split.
    { simpl. split; [|reflexivity]. intros _. split.
      - destruct (channel_ring (server w)); [reflexivity|discriminate].
      - exact Le. }
    split.
    { intros _ sdt I.
      change (In (shutdown_completion sdt)
                 (completions w8 ++ map shutdown_completion (shutdown_tags (server w)))).
      apply in_or_app. right. apply in_map. exact I. }
    split; [simpl; discriminate|].
    split; [exact Ring|]. split; [exact Des|]. split; [exact Tags|].
    intros t' Ht. unfold finish. rewrite set_thread_other by exact Ht.
    exact (X8 t' Ht).
Qed.

Lemma ring_remove_absent ch ring :
  existsb (Nat.eqb ch) ring = false -> ring_remove ch ring = ring.
Proof.
  unfold ring_remove. induction ring as [|x ring IH]; simpl; intros H; [reflexivity|].
  apply orb_false_iff in H. destruct H as [A B].
  rewrite Nat.eqb_sym in A. rewrite A. simpl. rewrite (IH B). reflexivity.
Qed.

Lemma ring_remove_orphans ch ring :
  existsb (Nat.eqb ch) (ring_remove ch ring) = false.
Proof.
  unfold ring_remove. induction ring as [|x ring IH]; simpl; [reflexivity|].
  destruct (Nat.eqb_spec x ch) as [E|E]; simpl; [exact IH|].
  rewrite IH. destruct (Nat.eqb_spec ch x); [congruence|reflexivity].
Qed.


(** X13.  The critical section of [grpc_server_shutdown_and_notify].  Called
    in a reachable state with both mutexes free and run on its own, the
    call reaches its release of [mu_global], with both mutexes free and no
    other thread touched; the statement is about the state at that
    release, not at the return.  If shutdown had been published, the call
    has posted the completion of its tag with [done_published_shutdown] and
    left the server as it was.  Otherwise it has registered the tag; if
    shutdown was under way already it has done nothing else.  Otherwise it
    has set [shutdown_flag], every request matcher is empty, every call
    that was pending is ZOMBIED with its kill closure scheduled, every
    queued ticket has its failed completion, and shutdown is published at
    the release exactly when no channel is left and every listener has
    been destroyed, in which case every registered tag has its completion.
    After the release the call asks the listeners to destroy themselves,
    broadcasts the goaway and runs its closure list; a closure run there,
    such as [listener_destroy_done], is a thread of its own here (X15). *)
Theorem grpc_server_shutdown_and_notify_outcome t cq tg w :
  reachable w ->
  threads w t = T_shutdown_and_notify cq tg ->
  mu_global (server w) = None ->
  mu_call (server w) = None ->
  exists n w',
    run_thread n t w = w' /\
    threads w' t = T_done None /\
    mu_global (server w') = None /\
    mu_call (server w') = None /\
    (forall t', t' <> t -> threads w' t' = threads w t') /\
    (shutdown_published (server w) = true ->
     server w' = server w /\
     completions w' =
       completions w ++ [{| comp_cq := Some cq; comp_tag := tg; comp_success := true;
                            comp_done := done_published_shutdown |}]) /\
    (shutdown_published (server w) = false ->
     shutdown_tags (server w') =
       shutdown_tags (server w) ++ [{| sd_tag := tg; sd_cq := cq |}]) /\
    (shutdown_published (server w) = false -> shutdown_flag (server w) = true ->
     matchers (server w') = matchers (server w) /\
     shutdown_published (server w') = false /\
     completions w' = completions w /\ kill_scheduled w' = kill_scheduled w) /\
    (shutdown_published (server w) = false -> shutdown_flag (server w) = false ->
     shutdown_flag (server w') = true /\
     (forall m, In m (all_matchers (server w)) ->
        requests (matcher w' m) = [] /\ pending_head (matcher w' m) = None) /\
     (forall m L c, In m (all_matchers (server w)) ->
        fifo w (pending_head (matcher w m)) L -> In c L ->
        state (calls w' c) = ZOMBIED /\ In c (kill_scheduled w')) /\
     (forall m x, In m (all_matchers (server w)) -> In x (requests (matcher w m)) ->
        In (failed_completion (requested_calls (server w) x) (Slot x)) (completions w')) /\
     (shutdown_published (server w') = true <->
      channel_ring (server w) = [] /\
      (num_listeners (server w) <= listeners_destroyed (server w))%Z) /\
     (shutdown_published (server w') = true ->
      forall sdt, In sdt (shutdown_tags (server w')) ->
                  In (shutdown_completion sdt) (completions w'))).
Proof.
  intros R T G C.
  assert (H : forall m, In m (all_matchers (server w)) ->
                ~ In (-1)%Z (requests (matcher w m)) /\
                exists L, fifo w (pending_head (matcher w m)) L)
    by (intros m _; exact (reachable_matchers w R m)).
  destruct (shutdown_published (server w)) eqn:P.
  - (* published already *)
    exists 1, (finish t None (grpc_cq_end_op (Some cq) tg true done_published_shutdown w)).
    split.
    { simpl. unfold thread_step. rewrite T. cbn [shutdown_step]. rewrite G, P.
      reflexivity. }
    split; [apply set_thread_same|].
    split; [exact G|]. split; [exact C|].
    split; [intros t' Ht; unfold finish; rewrite set_thread_other by exact Ht; reflexivity|].
    split; [intros _; split; reflexivity|].
    repeat split; discriminate.
  - destruct (shutdown_flag (server w)) eqn:F.
    + (* shutdown under way *)
      exists 1, (finish t None
                   (upd_server
                      (fun s => set_shutdown_tags
                                  (shutdown_tags s ++ [{| sd_tag := tg; sd_cq := cq |}]) s)
                      w)).
      split.
      { simpl. unfold thread_step. rewrite T. cbn [shutdown_step]. rewrite G, P.
        simpl. rewrite F. reflexivity. }
      split; [apply set_thread_same|].
      split; [exact G|]. split; [exact C|].
      split; [intros t' Ht; unfold finish; rewrite set_thread_other by exact Ht; reflexivity|].
      split; [discriminate|]. split; [reflexivity|].
      split; [intros _ _; repeat split; exact P|].
      discriminate.
    + destruct (shutdown_and_notify_runs t cq tg w T G C P F H)
        as (n & w' & A1 & A2 & A3 & A4 & A5 & A6 & A7 & A8 & A9 & A10 & A11 & A12).
      exists n, w'.
      split; [exact A1|]. split; [exact A2|]. split; [exact A4|]. split; [exact A5|].
      split; [exact A12|]. split; [discriminate|]. split; [intros _; exact A6|].
      split; [discriminate|].
      intros _ _. split; [exact A3|]. split; [exact A7|]. split; [exact A8|].
      split; [exact A9|]. split; [exact A10 | exact A11].
Qed.

Lemma grpc_server_shutdown_and_notify_outcome_witness :
  exists n w',
    run_thread n 0 (from_run trace_pending_then_shutdown) = w' /\
    threads w' 0 = T_done None /\
    shutdown_flag (server w') = true /\
    state (calls w' 0) = ZOMBIED /\ In 0 (kill_scheduled w').
Proof.
  assert (T : threads (from_run trace_pending_then_shutdown) 0 =
              T_shutdown_and_notify 0 9%Z) by (vm_compute; reflexivity).
  assert (G : mu_global (server (from_run trace_pending_then_shutdown)) = None)
    by (vm_compute; reflexivity).
  assert (C : mu_call (server (from_run trace_pending_then_shutdown)) = None)
    by (vm_compute; reflexivity).
  assert (AM : all_matchers (server (from_run trace_pending_then_shutdown)) = [None])
    by (vm_compute; reflexivity).
  assert (F : fifo (from_run trace_pending_then_shutdown)
                (pending_head (matcher (from_run trace_pending_then_shutdown) None)) [0]).
  { replace (pending_head (matcher (from_run trace_pending_then_shutdown) None))
      with (Some 0) by (vm_compute; reflexivity).
    constructor.
    replace (pending_next (calls (from_run trace_pending_then_shutdown) 0))
      with (@None call_id) by (vm_compute; reflexivity).
    constructor. }
  assert (P : shutdown_published (server (from_run trace_pending_then_shutdown)) = false)
    by (vm_compute; reflexivity).
  assert (Fl : shutdown_flag (server (from_run trace_pending_then_shutdown)) = false)
    by (vm_compute; reflexivity).
  destruct (grpc_server_shutdown_and_notify_outcome 0 0 9%Z
              (from_run trace_pending_then_shutdown)
              (reachable_from_run trace_pending_then_shutdown) T G C)
    as (n & w' & A1 & A2 & _ & _ & _ & _ & _ & _ & A9).
  destruct (A9 P Fl) as (B1 & _ & B3 & _).
  assert (IN : In None (all_matchers (server (from_run trace_pending_then_shutdown)))).
  { rewrite AM. left. reflexivity. }
  destruct (B3 None [0] 0 IN F (or_introl eq_refl)) as [Z K].
  exists n, w'. repeat split; assumption.
Defined.

(** X14.  The destruction of a channel ([channel_connectivity_changed] through
    [destroy_channel], or [destroy_channel_elem]) in a reachable state with
    [mu_global] free returns with [mu_global] free and the channel
    orphaned, the other channels of the ring in place.  [destroy_channel]
    on a channel that is orphaned already does nothing at all.  Otherwise
    [maybe_finish_shutdown] runs: shutdown is published afterwards exactly
    when it was published before, or the flag is set, this was the last
    channel and every listener has been destroyed; when this call
    publishes, every registered tag gets its completion, and when the flag
    is set all request matchers are empty afterwards. *)
Theorem destroy_channel_outcome t ch elem w :
  reachable w ->
  threads w t = T_destroy_channel ch elem ->
  mu_global (server w) = None ->
  exists n w',
    run_thread n t w = w' /\
    threads w' t = T_done None /\
    mu_global (server w') = None /\
    (forall t', t' <> t -> threads w' t' = threads w t') /\
    channel_ring (server w') = ring_remove ch (channel_ring (server w)) /\
    is_channel_orphaned w' ch = true /\
    (elem = false -> is_channel_orphaned w ch = true -> w' = finish t None w) /\
    (elem = true \/ is_channel_orphaned w ch = false ->
     (shutdown_published (server w') = true <->
      shutdown_published (server w) = true \/
      (shutdown_flag (server w) = true /\
       ring_remove ch (channel_ring (server w)) = [] /\
       (num_listeners (server w) <= listeners_destroyed (server w))%Z)) /\
     (shutdown_published (server w) = false -> shutdown_published (server w') = true ->
      forall sdt, In sdt (shutdown_tags (server w)) ->
                  In (shutdown_completion sdt) (completions w')) /\
     (shutdown_flag (server w) = true -> shutdown_published (server w) = false ->
      forall m, In m (all_matchers (server w)) ->
                requests (matcher w' m) = [] /\ pending_head (matcher w' m) = None)).
Proof.
  intros R T G.
  destruct (negb elem && is_channel_orphaned w ch) eqn:Early.
  - (* destroy_channel on an orphaned channel *)
    apply andb_true_iff in Early. destruct Early as [El Or].
    apply negb_true_iff in El.
    exists 1, (finish t None w).
    split.
    { simpl. unfold thread_step. rewrite T. cbn [shutdown_step]. rewrite G, El, Or.
      reflexivity. }
    split; [apply set_thread_same|]. split; [exact G|].
    split; [intros t' Ht; unfold finish; apply set_thread_other; exact Ht|].
    split.
    { symmetry. apply ring_remove_absent. unfold is_channel_orphaned in Or.
      apply negb_true_iff in Or. exact Or. }
    split; [exact Or|]. split; [reflexivity|].
    intros [X|X]; [rewrite X in El; discriminate El | rewrite X in Or; discriminate Or].
  - set (ring := ring_remove ch (channel_ring (server w))).
    set (w1 := set_thread t T_maybe_finish_shutdown
                 (upd_server
                    (fun s => set_channel_ring (ring_remove ch (channel_ring s))
                                (set_mu_global (Some t) s)) w)).
    assert (S1 : thread_step t w = Some w1).
    { unfold thread_step. rewrite T. cbn [shutdown_step]. rewrite G, Early. reflexivity. }
    assert (T1 : threads w1 t = T_maybe_finish_shutdown)
      by (subst w1; apply set_thread_same).
    assert (X1 : forall t', t' <> t -> threads w1 t' = threads w t')
      by (intros t' Ht; subst w1; rewrite set_thread_other by exact Ht; reflexivity).
    assert (Orph : forall w', channel_ring (server w') = ring ->
                              is_channel_orphaned w' ch = true).
    { intros w' E. unfold is_channel_orphaned. rewrite E. subst ring.
      rewrite ring_remove_orphans. reflexivity. }
    assert (NotEarly : ~ (elem = false /\ is_channel_orphaned w ch = true)).
    { intros [A B]. rewrite A, B in Early. discriminate Early. }
    destruct (negb (shutdown_flag (server w)) || shutdown_published (server w)) eqn:Ret.
    + (* maybe_finish_shutdown returns at once *)
      set (w2 := finish t None (unlock_global w1)).
      assert (S2 : thread_step t w1 = Some w2).
      { unfold thread_step. rewrite T1. cbn [shutdown_step].
        change (shutdown_flag (server w1)) with (shutdown_flag (server w)).
        change (shutdown_published (server w1)) with (shutdown_published (server w)).
        rewrite Ret. reflexivity. }
      exists 2, w2.
      split; [rewrite (run_thread_step _ _ _ _ S1); simpl; rewrite S2; reflexivity|].
      split; [subst w2; apply set_thread_same|]. split; [reflexivity|].
      split.
      { intros t' Ht. subst w2. unfold finish. rewrite set_thread_other by exact Ht.
        exact (X1 t' Ht). }
      split; [reflexivity|]. split; [apply Orph; reflexivity|].
      split; [intros A B; exfalso; apply NotEarly; split; assumption|].
      intros _.
      change (shutdown_published (server w2)) with (shutdown_published (server w)).
      split.
      { split; [intros X; left; exact X|].
        intros [X|(X & _)]; [exact X|].
        rewrite X in Ret. simpl in Ret. exact Ret. }
      split; [intros X Y; rewrite X in Y; discriminate Y|].
      intros X Y. rewrite X, Y in Ret. discriminate Ret.
    + apply orb_false_iff in Ret. destruct Ret as [F P].
      apply negb_false_iff in F.
      assert (H1 : forall m, In m (all_matchers (server w1)) ->
                     ~ In (-1)%Z (requests (matcher w1 m)) /\
                     exists L, fifo w1 (pending_head (matcher w1 m)) L).
      { intros m _. destruct (reachable_matchers w R m) as [N [L FL]].
        split; [exact N|]. exists L. apply (fifo_ext w); [reflexivity | exact FL]. }
      destruct (maybe_finish_shutdown_runs t w1 T1 F P H1)
        as (n & w' & A1 & A2 & A3 & A4 & _ & _ & A7 & A8 & _ & A10 & _ & _ & A13).
      exists (S n), w'.
      split; [rewrite (run_thread_step _ _ _ _ S1); exact A1|].
      split; [exact A2|]. split; [exact A3|].
      split; [intros t' Ht; rewrite (A13 t' Ht); exact (X1 t' Ht)|].
      split; [exact A10|]. split; [apply Orph; exact A10|].
      split; [intros A B; exfalso; apply NotEarly; split; assumption|].
      intros _. split.
      { rewrite A7. split.
        - intros [Re Le]. right. split; [exact F|]. split; [exact Re | exact Le].
        - intros [X|(_ & Re & Le)]; [rewrite P in X; discriminate X|].
          split; [exact Re | exact Le]. }
      split; [intros _ Pub sdt I; exact (A8 Pub sdt I)|].
      intros _ _ m I. exact (A4 m I).
Qed.

Lemma destroy_channel_outcome_witness :
  exists n w',
    run_thread n 1 (from_run trace_shutdown_last_channel) = w' /\
    threads w' 1 = T_done None /\
    channel_ring (server w') = [] /\
    shutdown_published (server w') = false.
Proof.
  assert (T : threads (from_run trace_shutdown_last_channel) 1 = T_destroy_channel 0 true)
    by (vm_compute; reflexivity).
  assert (G : mu_global (server (from_run trace_shutdown_last_channel)) = None)
    by (vm_compute; reflexivity).
  assert (Ring : ring_remove 0 (channel_ring (server (from_run trace_shutdown_last_channel)))
                 = []) by (vm_compute; reflexivity).
  assert (P : shutdown_published (server (from_run trace_shutdown_last_channel)) = false)
    by (vm_compute; reflexivity).
  assert (L : (listeners_destroyed (server (from_run trace_shutdown_last_channel)) <?
               num_listeners (server (from_run trace_shutdown_last_channel)))%Z = true)
    by (vm_compute; reflexivity).
  destruct (destroy_channel_outcome 1 0 true (from_run trace_shutdown_last_channel)
              (reachable_from_run trace_shutdown_last_channel) T G)
    as (n & w' & A1 & A2 & _ & _ & A5 & _ & _ & A8).
  destruct (A8 (or_introl eq_refl)) as (B1 & _).
  exists n, w'. split; [exact A1|]. split; [exact A2|].
  split; [rewrite A5; exact Ring|].
  destruct (shutdown_published (server w')); [|reflexivity].
  exfalso. destruct B1 as [B1 _]. destruct (B1 eq_refl) as [X|(_ & _ & X)].
  - rewrite P in X. discriminate X.
  - apply Z.ltb_lt in L. lia.
Defined.

(** X15.  [listener_destroy_done] called in a reachable state with
    [mu_global] free returns with [mu_global] free and [listeners_destroyed]
    one higher.  Shutdown is published afterwards exactly when it was
    published before, or the flag is set, no channel is left and this
    acknowledgement brings [listeners_destroyed] up to [num_listeners];
    when this call publishes, every registered tag gets its completion,
    and when the flag is set all request matchers are empty afterwards. *)
Theorem listener_destroy_done_outcome t w :
  reachable w ->
  threads w t = T_listener_destroy_done ->
  mu_global (server w) = None ->
  exists n w',
    run_thread n t w = w' /\
    threads w' t = T_done None /\
    mu_global (server w') = None /\
    (forall t', t' <> t -> threads w' t' = threads w t') /\
    listeners_destroyed (server w') = (listeners_destroyed (server w) + 1)%Z /\
    (shutdown_published (server w') = true <->
     shutdown_published (server w) = true \/
     (shutdown_flag (server w) = true /\
      channel_ring (server w) = [] /\
      (num_listeners (server w) <= listeners_destroyed (server w) + 1)%Z)) /\
    (shutdown_published (server w) = false -> shutdown_published (server w') = true ->
     forall sdt, In sdt (shutdown_tags (server w)) ->
                 In (shutdown_completion sdt) (completions w')) /\
    (shutdown_flag (server w) = true -> shutdown_published (server w) = false ->
     forall m, In m (all_matchers (server w)) ->
               requests (matcher w' m) = [] /\ pending_head (matcher w' m) = None).
Proof.
  intros R T G.
  set (w1 := set_thread t T_maybe_finish_shutdown
               (upd_server
                  (fun s => set_listeners_destroyed (listeners_destroyed s + 1)%Z
                              (set_mu_global (Some t) s)) w)).
  assert (S1 : thread_step t w = Some w1).
  { unfold thread_step. rewrite T. cbn [shutdown_step]. rewrite G. reflexivity. }
  assert (T1 : threads w1 t = T_maybe_finish_shutdown)
    by (subst w1; apply set_thread_same).
  assert (X1 : forall t', t' <> t -> threads w1 t' = threads w t')
    by (intros t' Ht; subst w1; rewrite set_thread_other by exact Ht; reflexivity).
  destruct (negb (shutdown_flag (server w)) || shutdown_published (server w)) eqn:Ret.
  - set (w2 := finish t None (unlock_global w1)).
    assert (S2 : thread_step t w1 = Some w2).
    { unfold thread_step. rewrite T1. cbn [shutdown_step].
      change (shutdown_flag (server w1)) with (shutdown_flag (server w)).
      change (shutdown_published (server w1)) with (shutdown_published (server w)).
      rewrite Ret. reflexivity. }
    exists 2, w2.
    split; [rewrite (run_thread_step _ _ _ _ S1); simpl; rewrite S2; reflexivity|].
    split; [subst w2; apply set_thread_same|]. split; [reflexivity|].
    split.
    { intros t' Ht. subst w2. unfold finish. rewrite set_thread_other by exact Ht.
      exact (X1 t' Ht). }
    split; [reflexivity|].
    change (shutdown_published (server w2)) with (shutdown_published (server w)).
    split.
    { split; [intros X; left; exact X|].
      intros [X|(X & _)]; [exact X|].
      rewrite X in Ret. simpl in Ret. exact Ret. }
    split; [intros X Y; rewrite X in Y; discriminate Y|].
    intros X Y. rewrite X, Y in Ret. discriminate Ret.
  - apply orb_false_iff in Ret. destruct Ret as [F P].
    apply negb_false_iff in F.
    assert (H1 : forall m, In m (all_matchers (server w1)) ->
                   ~ In (-1)%Z (requests (matcher w1 m)) /\
                   exists L, fifo w1 (pending_head (matcher w1 m)) L).
    { intros m _. destruct (reachable_matchers w R m) as [N [L FL]].
      split; [exact N|]. exists L. apply (fifo_ext w); [reflexivity | exact FL]. }
    destruct (maybe_finish_shutdown_runs t w1 T1 F P H1)
      as (n & w' & A1 & A2 & A3 & A4 & _ & _ & A7 & A8 & _ & _ & A11 & _ & A13).
    exists (S n), w'.
    split; [rewrite (run_thread_step _ _ _ _ S1); exact A1|].
    split; [exact A2|]. split; [exact A3|].
    split; [intros t' Ht; rewrite (A13 t' Ht); exact (X1 t' Ht)|].
    split; [exact A11|].
    split.
    { rewrite A7. split.
      - intros [Re Le]. right. split; [exact F|]. split; [exact Re | exact Le].
      - intros [X|(_ & Re & Le)]; [rewrite P in X; discriminate X|].
        split; [exact Re | exact Le]. }
    split; [intros _ Pub sdt I; exact (A8 Pub sdt I)|].
    intros _ _ m I. exact (A4 m I).
Qed.

Lemma listener_destroy_done_outcome_witness :
  exists n w',
    run_thread n 2 (from_run trace_shutdown_last_listener) = w' /\
    threads w' 2 = T_done None /\
    shutdown_published (server w') = true /\
    In (shutdown_completion {| sd_tag := 9%Z; sd_cq := 0 |}) (completions w').
Proof.
  assert (T : threads (from_run trace_shutdown_last_listener) 2 = T_listener_destroy_done)
    by (vm_compute; reflexivity).
  assert (G : mu_global (server (from_run trace_shutdown_last_listener)) = None)
    by (vm_compute; reflexivity).
  assert (F : shutdown_flag (server (from_run trace_shutdown_last_listener)) = true)
    by (vm_compute; reflexivity).
  assert (P : shutdown_published (server (from_run trace_shutdown_last_listener)) = false)
    by (vm_compute; reflexivity).
  assert (Ring : channel_ring (server (from_run trace_shutdown_last_listener)) = [])
    by (vm_compute; reflexivity).
  assert (L : (num_listeners (server (from_run trace_shutdown_last_listener)) <=?
               listeners_destroyed (server (from_run trace_shutdown_last_listener)) + 1)%Z
              = true) by (vm_compute; reflexivity).
  assert (Tg : shutdown_tags (server (from_run trace_shutdown_last_listener)) =
               [{| sd_tag := 9%Z; sd_cq := 0 |}]) by (vm_compute; reflexivity).
  destruct (listener_destroy_done_outcome 2 (from_run trace_shutdown_last_listener)
              (reachable_from_run trace_shutdown_last_listener) T G)
    as (n & w' & A1 & A2 & _ & _ & _ & A6 & A7 & _).
  assert (Pub : shutdown_published (server w') = true).
  { apply A6. right. split; [exact F|]. split; [exact Ring|]. apply Z.leb_le. exact L. }
  exists n, w'. split; [exact A1|]. split; [exact A2|]. split; [exact Pub|].
  apply (A7 P Pub). rewrite Tg. left. reflexivity.
Defined.

Lemma fifo_snoc w w' c : forall o L,
  fifo w o L ->
  L <> [] ->
  ~ In c L ->
  pending_next (calls w' (last L c)) = Some c ->
  pending_next (calls w' c) = None ->
  (forall x, x <> last L c -> x <> c ->
             pending_next (calls w' x) = pending_next (calls w x)) ->
  fifo w' o (L ++ [c]).
Proof.
  intros o L F. pose proof (fifo_NoDup w _ _ F) as N.
  induction F as [|c0 l F IH]; intros NE NI E1 E2 E; [congruence|].
  inversion N as [|? ? N1 N2]; subst.
  simpl. constructor. destruct l as [|c1 l].
  - simpl in *. rewrite E1. constructor. rewrite E2. constructor.
  - assert (X : last (c0 :: c1 :: l) c = last (c1 :: l) c) by reflexivity.
    rewrite X in E1, E.
    assert (I : In (last (c1 :: l) c) (c1 :: l)).
    { clear. generalize c1. induction l as [|a l IHl]; intros b; [left; reflexivity|].
      right. exact (IHl a). }
    rewrite E.
    + apply IH; auto; [discriminate | intros Y; apply NI; right; exact Y].
    + intros Y. apply N1. rewrite Y. exact I.
    + intros Y. apply NI. left. exact Y.
Qed.

(** X16.  The append of [finish_start_new_rpc]: when call [c] found no ticket
    and [mu_call] is free, and the pending list of the matcher is [L] with
    [pending_tail] at its last call (nothing is asked of [pending_tail]
    when [L] is empty), the step makes the call PENDING and the list
    [L] followed by [c], with [pending_tail] at [c].  The stack of
    requests, the other matchers and the state of every other call are
    unchanged, and nothing is posted or scheduled. *)
Theorem finish_start_new_rpc_appends_at_tail c rm L w :
  on_recv w c = R_append rm ->
  mu_call (server w) = None ->
  fifo w (pending_head (matcher w rm)) L ->
  (L <> [] -> pending_tail (matcher w rm) = Some (last L c)) ->
  ~ In c L ->
  exists w',
    recv_step c w = Some w' /\
    fifo w' (pending_head (matcher w' rm)) (L ++ [c]) /\
    pending_tail (matcher w' rm) = Some c /\
    state (calls w' c) = PENDING /\
    on_recv w' c = R_switch /\
    requests (matcher w' rm) = requests (matcher w rm) /\
    (forall rm', rm' <> rm -> matcher w' rm' = matcher w rm') /\
    (forall x, x <> c -> state (calls w' x) = state (calls w x)) /\
    completions w' = completions w /\
    kill_scheduled w' = kill_scheduled w.
Proof.
  intros Pc Mu F Tl NI.
  exists (set_recv_pc c R_switch (enqueue_pending rm c w)).
  split; [unfold recv_step; rewrite Pc, Mu; reflexivity|].
  destruct L as [|c0 l].
  - inversion F as [Hd|]; subst.
    unfold matcher in *. unfold enqueue_pending, set_recv_pc, set_matcher, set_call, matcher.
    simpl. rewrite <- Hd. simpl. unfold upd_matcher, upd_nat.
    destruct (matcher_ref_eqb_spec rm rm) as [_|X]; [|congruence].
    rewrite Nat.eqb_refl. simpl.
    split; [constructor; simpl; rewrite Nat.eqb_refl; simpl; constructor|].
    split; [reflexivity|]. split; [reflexivity|]. split; [reflexivity|].
    split; [reflexivity|].
    split; [intros rm' Hr; destruct (matcher_ref_eqb_spec rm' rm); [contradiction|reflexivity]|].
    split; [|split; reflexivity].
    intros x Hx. destruct (Nat.eqb_spec x c); [contradiction|reflexivity].
  - assert (Hd : pending_head (matcher w rm) = Some c0) by (inversion F; reflexivity).
    assert (NE : c0 :: l <> []) by discriminate.
    specialize (Tl NE).
    set (tl := last (c0 :: l) c) in *.
    assert (Itl : In tl (c0 :: l)).
    { subst tl. clear. generalize c0. induction l as [|a l IHl]; intros b;
        [left; reflexivity|]. right. exact (IHl a). }
    assert (Ntl : tl <> c) by (intros X; apply NI; rewrite <- X; exact Itl).
    unfold matcher in *. unfold enqueue_pending, set_recv_pc, set_matcher, set_call, matcher.
    simpl. rewrite Hd, Tl. simpl. unfold upd_matcher, upd_nat.
    destruct (matcher_ref_eqb_spec rm rm) as [_|X]; [|congruence].
    rewrite Nat.eqb_refl. simpl.
    split.
    { apply (fifo_snoc w _ c _ (c0 :: l)); auto.
      - fold tl. simpl. rewrite Nat.eqb_refl. simpl.
        destruct (Nat.eqb_spec tl c); [contradiction|]. simpl. reflexivity.
      - simpl. rewrite Nat.eqb_refl. reflexivity.
      - fold tl. intros x X1 X2. simpl.
        destruct (Nat.eqb_spec x c); [contradiction|].
        destruct (Nat.eqb_spec x tl); [contradiction|].
        destruct (Nat.eqb_spec x c); [contradiction|]. reflexivity. }
    split; [reflexivity|].
    split.
    { destruct (Nat.eqb_spec c tl) as [X|X]; [symmetry in X; contradiction|]. reflexivity. }
    split; [reflexivity|]. split; [reflexivity|].
    split; [intros rm' Hr; destruct (matcher_ref_eqb_spec rm' rm); [contradiction|reflexivity]|].
    split; [|split; reflexivity].
    intros x Hx. destruct (Nat.eqb_spec x c); [contradiction|].
    destruct (Nat.eqb_spec x tl); [subst x|]; simpl.
    + destruct (Nat.eqb_spec tl c); [contradiction|]. reflexivity.
    + reflexivity.
Qed.

Lemma finish_start_new_rpc_appends_at_tail_witness :
  exists w',
    recv_step 1 (from_run trace_second_pending) = Some w' /\
    fifo w' (pending_head (matcher w' None)) [0; 1].
Proof.
  assert (Pc : on_recv (from_run trace_second_pending) 1 = R_append None)
    by (vm_compute; reflexivity).
  assert (Mu : mu_call (server (from_run trace_second_pending)) = None)
    by (vm_compute; reflexivity).
  assert (F : fifo (from_run trace_second_pending)
                (pending_head (matcher (from_run trace_second_pending) None)) [0]).
  { replace (pending_head (matcher (from_run trace_second_pending) None))
      with (Some 0) by (vm_compute; reflexivity).
    constructor.
    replace (pending_next (calls (from_run trace_second_pending) 0))
      with (@None call_id) by (vm_compute; reflexivity).
    constructor. }
  assert (Tl : [0] <> [] ->
               pending_tail (matcher (from_run trace_second_pending) None) =
               Some (last [0] 1)) by (intros _; vm_compute; reflexivity).
  assert (NI : ~ In 1 [0]) by (simpl; intros [X|[]]; discriminate X).
  destruct (finish_start_new_rpc_appends_at_tail 1 None [0]
              (from_run trace_second_pending) Pc Mu F Tl NI) as (w' & A & B & _).
  exists w'. split; [exact A | exact B].
Defined.

Lemma advanced_refl w c : advanced w w c.
Proof. constructor; auto. Qed.

Lemma advanced_trans w1 w2 w3 c :
  advanced w1 w2 c -> advanced w2 w3 c -> advanced w1 w3 c.
Proof.
  intros [A1 A2 A3] [B1 B2 B3]. constructor.
  - lia.
  - congruence.
  - intros G. destruct (A3 G) as (G2 & P & H & D).
    destruct (B3 G2) as (G3 & P' & H' & D').
    repeat split; congruence.
Qed.

Lemma recv_metadata_once cd success ops :
  got_initial_metadata cd = true -> recv_metadata cd success ops = (cd, false).
Proof.
  intros G. unfold recv_metadata. rewrite G. rewrite andb_false_r. reflexivity.
Qed.

Lemma recv_metadata_keeps cd success ops cd' start :
  recv_metadata cd success ops = (cd', start) ->
  state cd' = state cd /\ cd_channel cd' = cd_channel cd /\
  (got_initial_metadata cd = true -> cd' = cd).
Proof.
  intros H. destruct (recv_metadata_spec _ _ _ H) as (A & _ & _ & B & _).
  split; [exact A|]. split; [exact B|].
  intros G. rewrite (recv_metadata_once cd success ops G) in H.
  inversion H. reflexivity.
Qed.

Lemma advanced_step l w w' :
  call_inv w -> step l w = Some w' ->
  forall c, c < ncalls w -> advanced w w' c.
Proof.
  intros CI H. unfold_step H.
  all: norm_bool.
  all: repeat match goal with
       | H : recv_metadata _ _ _ = (_, _) |- _ =>
           apply recv_metadata_keeps in H; simpl in H; destruct H as (? & ? & ?)
       end.
  all: try match goal with
       | Ht : on_recv ?w ?c = _ |- _ =>
           let B := fresh "B" in
           pose proof (ci_recv CI c) as B; rewrite Ht in B; simpl in B;
           try (specialize (B eq_refl));
           try match type of B with _ /\ _ => destruct B end
       end.
  all: intros c9 Hc9.
  all: try solve [apply advanced_refl].
  all: constructor; simpl; unfold upd_nat; case_eqb; simpl; auto; try lia.
  all: try solve [intros G;
                  repeat match goal with
                  | H : got_initial_metadata _ = true -> _ = _ |- _ =>
                      rewrite (H G) in *; clear H
                  end; simpl; auto].
  all: try solve [repeat match goal with
                  | H : state (calls ?w ?c) = _ |- _ => rewrite H in *
                  | H : state ?x = state (calls ?w ?c) |- _ => rewrite H in *
                  end; simpl; try lia;
                  match goal with
                  | |- context [state (calls ?w ?c)] =>
                      destruct (state (calls w c)); simpl; lia
                  end].
  all: try congruence.
Qed.

Lemma advanced_run ls : forall w w',
  reachable w -> run ls w = Some w' ->
  forall c, c < ncalls w -> advanced w w' c.
Proof.
  induction ls as [|l ls IH]; simpl; intros w w' R H c Hc.
  - inversion H; subst. apply advanced_refl.
  - destruct (step l w) as [w1|] eqn:E; [|discriminate].
    apply (advanced_trans w w1 w' c).
    + exact (advanced_step l w w1 (call_inv_reachable R) E c Hc).
    + apply (IH w1 w' (reachable_step l R E) H).
      pose proof (lt_counts (later_step l w w1 E)) as [X _]. lia.
Qed.

(** X17.  Along every execution from a reachable state the state of a call
    only moves forward in the order NOT_STARTED, PENDING, ACTIVATED,
    ZOMBIED: a ZOMBIED call stays ZOMBIED and no call returns to
    NOT_STARTED.  The call keeps its channel, and once
    [got_initial_metadata] is set it stays set and [path], [host] and
    [deadline] never change again. *)
Theorem call_state_only_advances ls w w' c :
  reachable w ->
  run ls w = Some w' ->
  c < ncalls w ->
  state_rank (state (calls w c)) <= state_rank (state (calls w' c)) /\
  (state (calls w c) = ZOMBIED -> state (calls w' c) = ZOMBIED) /\
  (state (calls w c) <> NOT_STARTED -> state (calls w' c) <> NOT_STARTED) /\
  cd_channel (calls w' c) = cd_channel (calls w c) /\
  (got_initial_metadata (calls w c) = true ->
   got_initial_metadata (calls w' c) = true /\
   path (calls w' c) = path (calls w c) /\
   host (calls w' c) = host (calls w c) /\
   deadline (calls w' c) = deadline (calls w c)).
Proof.
  intros R H Hc. destruct (advanced_run ls w w' R H c Hc) as [A B C].
  split; [exact A|]. split.
  { intros Z. rewrite Z in A. destruct (state (calls w' c)); simpl in A; try lia.
    reflexivity. }
  split.
  { intros N Z. rewrite Z in A. destruct (state (calls w c)); simpl in A; try lia.
    apply N. reflexivity. }
  split; [exact B | exact C].
Qed.

Lemma call_state_only_advances_witness :
  exists w',
    run (skipn 3 trace_closed_while_pending) (from_run trace_one_stream) = Some w' /\
    state (calls w' 0) = ZOMBIED /\
    state_rank (state (calls (from_run trace_one_stream) 0)) <=
    state_rank (state (calls w' 0)).
Proof.
  assert (T : option_map (fun w => state (calls w 0))
                (run (skipn 3 trace_closed_while_pending) (from_run trace_one_stream)) =
              Some ZOMBIED) by (vm_compute; reflexivity).
  assert (Hc : 0 < ncalls (from_run trace_one_stream)) by (vm_compute; lia).
  destruct (run (skipn 3 trace_closed_while_pending) (from_run trace_one_stream))
    as [w'|] eqn:R; [|discriminate T].
  simpl in T. inversion T as [T'].
  exists w'. split; [reflexivity|]. split; [reflexivity|]. rewrite T'.
  destruct (call_state_only_advances _ _ _ 0 (reachable_from_run trace_one_stream) R Hc)
    as (A & _).
  rewrite T' in A. exact A.
Defined.

Lemma server_cq_kept cq x (l : list cq_id) :
  existsb (Nat.eqb x) l = true -> existsb (Nat.eqb x) (l ++ [cq]) = true.
Proof. intros H. rewrite existsb_app. apply orb_true_iff. left. exact H. Qed.

Lemma In_pop_tail (x : Z) l : In x (tl l) -> In x l.
Proof. destruct l; simpl; auto. Qed.

Lemma pop_facts (l : gpr_stack_lockfree) z g :
  gpr_stack_lockfree_pop l = (z, g) -> (z =? -1)%Z = false ->
  In z l /\ forall x, In x g -> In x l.
Proof.
  unfold gpr_stack_lockfree_pop. destruct l as [|a l]; intros H E; inversion H; subst.
  - discriminate E.
  - split; [left; reflexivity | intros x I; right; exact I].
Qed.

Lemma fold_server_filter_cq_new l : forall cd,
  cq_new (fold_left server_filter l cd) = cq_new cd.
Proof.
  induction l as [|md l IH]; intros cd; simpl; [reflexivity|].
  rewrite IH. unfold server_filter.
  destruct (String.eqb (fst md) path_key); [reflexivity|].
  destruct (String.eqb (fst md) authority_key); reflexivity.
Qed.

Lemma recv_metadata_cq_new cd success ops cd' start :
  recv_metadata cd success ops = (cd', start) -> cq_new cd' = cq_new cd.
Proof.
  unfold recv_metadata. intros H.
  destruct (success && negb (got_initial_metadata cd)); [|inversion H; reflexivity].
  destruct (first_metadata ops) as [b|]; [|inversion H; reflexivity].
  pose proof (fold_server_filter_cq_new (md_list b) cd) as E.
  set (cd1 := fold_left server_filter (md_list b) cd) in *.
  assert (E2 : cq_new (match md_deadline b with
                       | Some d => set_deadline (Some d) cd1
                       | None => cd1
                       end) = cq_new cd) by (destruct (md_deadline b); exact E).
  set (cd2 := match md_deadline b with
              | Some d => set_deadline (Some d) cd1
              | None => cd1
              end) in *.
  destruct (host cd2); [destruct (path cd2)|]; inversion H; subst; simpl; exact E2.
Qed.

Lemma ticket_inv_step l w w' :
  call_inv w -> ticket_inv w -> step l w = Some w' -> ticket_inv w'.
Proof.
  intros CI I H. unfold_step H.
  all: destruct I as [I1 I2 I3 I4 I5 I6].
  all: norm_bool.
  all: repeat match goal with
       | H : recv_metadata _ _ _ = (_, _) |- _ =>
           apply recv_metadata_cq_new in H; simpl in H
       end.
  all: try match goal with
       | Ht : threads ?w ?t = _ |- _ =>
           let B := fresh "B" in
           pose proof (I1 t) as B; rewrite Ht in B; simpl in B;
           try (specialize (B _ eq_refl))
       end.
  all: try match goal with
       | Ht : threads ?w ?t = T_drain_call _ _ _ |- _ =>
           let B := fresh "B" in
           pose proof (I3 t _ _ _ Ht) as B; destruct B
       end.
  all: repeat match goal with
       | H : _ = (?z, ?g), E : (?z =? -1)%Z = false |- _ =>
           apply pop_facts in H; [destruct H as [? ?] | exact E]
       | H : existsb (ioreq_eqb _) _ = true |- _ => apply existsb_ioreq_In in H
       end.
  all: constructor; simpl.
  all: try assumption.
  all: unfold grpc_cq_is_server_cq, matcher in *; simpl.
  all: try assumption.
  all: intros; unfold upd_nat, upd_Z, upd_matcher in *; simpl in *.
  all: try solve [eauto 3].
  all: try solve [eauto 3 using server_cq_kept].
  all: try solve [edestruct I6 as (? & ? & ?); eauto 3 using server_cq_kept].
  all: try solve [edestruct I3 as (? & ?); eauto 3 using server_cq_kept].
  all: try solve [edestruct I5 as (? & ?); eauto 3].
  all: case_eqb; simpl in *; try discriminate; try congruence.
  all: try solve [eauto 3 using server_cq_kept, In_pop_tail].
  all: try solve [edestruct I3 as (? & ?); eauto 3 using server_cq_kept].
  all: try solve [edestruct I5 as (? & ?); eauto 3].
  all: try solve [edestruct I5 as (? & ?); eauto 3; split; [lia|assumption]].
  all: try solve [edestruct I3 as (? & ?); eauto 3; split; [lia|assumption]].
  all: try solve [split; [lia | congruence]].
  all: repeat match goal with
       | H : cq_new ?x = cq_new (calls _ _) |- _ => rewrite H in *; clear H
       | H : In _ (_ ++ _) |- _ => apply in_app_or in H; destruct H
       | H : In _ [_] |- _ => destruct H as [H|[]]; subst
       | H : In _ (remove_first _ _ _) |- _ => apply In_remove_first in H
       | H : In _ (map shutdown_completion _) |- _ =>
           apply in_map_iff in H; destruct H as (? & ? & ?); subst
       | H : Some ?a = Some ?b |- _ =>
           assert (a = b) by congruence; clear H; subst
       | H : done_request_event _ = done_request_event _ |- _ => clear H
       | |- context [Z.eqb ?a ?b] => destruct (Z.eqb_spec a b); [subst|]
       end; simpl in *; try discriminate.
  all: try solve [eauto 3 using server_cq_kept, In_pop_tail].
  all: try solve [exfalso; edestruct I5 as (? & ?); eauto 2; lia].
  all: try solve [edestruct I5 as (? & ?); eauto 3; split; [lia|assumption]].
  all: try solve [edestruct I3 as (? & ?); eauto 3; split; [lia|assumption]].
  all: try solve [eexists; split; [reflexivity|]; eauto 3 using server_cq_kept, In_pop_tail].
  all: try solve [split; [edestruct I3 as (? & ?); eauto 2 | assumption]].
  all: try solve [match goal with
                  | H : In (?c, _) (started_ioreqs ?w) |- _ =>
                      destruct (I5 _ _ H) as [? ?];
                      destruct (cq_new (calls w c)) eqn:?; [|congruence];
                      eexists; split; [reflexivity|]; eauto 2
                  end].
  all: try solve [match goal with
                  | H : (_, _) = (_, _) |- _ => inversion H; congruence
                  end].
  - destruct (I6 _ _ H H0) as (q & Q1 & Q2). exists q.
    split; [exact Q1 | apply server_cq_kept; exact Q2].
  - destruct H as [H|H]; [congruence | exact (I2 _ _ H)].
  - destruct H as [H|H]; [congruence | exact (I2 _ _ H)].
  - inversion H1; subst. split; [|exact (I2 _ _ H)].
    destruct (@ci_head w CI rm0 c0 Heqo0) as [X _]. exact X.
  Unshelve. all: first [exact 0 | exact 0%Z].
Qed.

Lemma ticket_inv_init : ticket_inv init_world.
Proof.
  constructor; unfold matcher; simpl; intros;
    try discriminate; try contradiction.
Qed.

Lemma ticket_inv_reachable w : reachable w -> ticket_inv w.
Proof.
  induction 1 as [|w l w' R IH H]; [exact ticket_inv_init|].
  exact (ticket_inv_step l w w' (call_inv_reachable R) IH H).
Qed.

(** X18.  In every reachable state every completion posted for a request
    (by [fail_call] or by [publish_registered_or_batch], its done callback
    being [done_request_event]) is on a completion queue that was
    registered with [grpc_server_register_completion_queue]: the test of
    [grpc_cq_is_server_cq] at the entry of [grpc_server_request_call] and
    [grpc_server_request_registered_call] covers every ticket inside
    [queue_call_request], every slot queued on a request matcher, and the
    queue [cq_new] that [begin_call] binds to a call whose ioreq is
    outstanding. *)
Theorem request_completions_on_server_cqs w :
  reachable w ->
  (forall cmp r, In cmp (completions w) -> comp_done cmp = done_request_event r ->
     exists cq, comp_cq cmp = Some cq /\ grpc_cq_is_server_cq (server w) cq = true) /\
  (forall t rc, thread_rc (threads w t) = Some rc ->
     grpc_cq_is_server_cq (server w) (cq_for_notification rc) = true) /\
  (forall rm id, In id (requests (matcher w rm)) ->
     grpc_cq_is_server_cq (server w)
       (cq_for_notification (requested_calls (server w) id)) = true) /\
  (forall c request_id, In (c, request_id) (started_ioreqs w) ->
     exists cq, cq_new (calls w c) = Some cq /\
                grpc_cq_is_server_cq (server w) cq = true).
Proof.
  intros R. pose proof (ticket_inv_reachable w R) as I.
  split; [exact (@tk_done w I)|]. split; [exact (@tk_thread w I)|].
  split; [exact (@tk_stack w I)|].
  intros c id H. destruct (@tk_ioreq w I c id H) as [_ N].
  destruct (cq_new (calls w c)) as [cq|] eqn:E; [|congruence].
  exists cq. split; [reflexivity | exact (@tk_new w I c cq E)].
Qed.

Lemma request_completions_on_server_cqs_witness :
  In {| comp_cq := Some 0; comp_tag := 7%Z; comp_success := false;
        comp_done := done_request_event (Heap 3) |}
     (completions (from_run trace_ticket_after_shutdown)) /\
  exists cq,
    Some 0 = Some cq /\
    grpc_cq_is_server_cq (server (from_run trace_ticket_after_shutdown)) cq = true.
Proof.
  assert (I : In {| comp_cq := Some 0; comp_tag := 7%Z; comp_success := false;
                    comp_done := done_request_event (Heap 3) |}
                 (completions (from_run trace_ticket_after_shutdown)))
    by (vm_compute; tauto).
  split; [exact I|].
  exact (proj1 (request_completions_on_server_cqs _
                  (reachable_from_run trace_ticket_after_shutdown)) _ (Heap 3) I eq_refl).
Defined.
